(** * balpy: transaction orchestration and deterministic encoding

    A shallow embedding of [balpy/balpy.py] and the properties of its
    specification.  Python objects that are shared and mutated (the token
    lists that [list.sort] reorders in place, the class-level caches, the
    rate limiter's timestamp) live in an explicit [world]; every effect on an
    external collaborator (node, gas oracle, clock, console errors) is
    recorded in the world's [trace].  Methods are computations in the monad
    [Py], which threads the world and propagates Python exceptions. *)

From Stdlib Require Import ZArith String Ascii PrimFloat SpecFloat FloatOps
  FloatAxioms.
From stdpp Require Import base gmap list strings sorting pretty.

Open Scope Z_scope.

(* A decimal literal such as [0.49] or [1.1] denotes the nearest double, as
   it does in Python. *)
#[local] Set Warnings "-inexact-float".

(** ** Python runtime: exceptions and results *)

Inductive exn : Type :=
| TypeError
| IndexError
| KeyError
| ValueError
| OverflowError
| ValidationError        (* web3.exceptions.ValidationError *)
| TimeExhausted.         (* web3.exceptions.TimeExhausted *)

Inductive result (A : Type) : Type :=
| Ret (a : A)
| Raise (e : exn).
Arguments Ret {A} a.
Arguments Raise {A} e.

(** ** Python numbers

    JSON numbers reach the code as [int] or [float]; a field that the code
    passes through [int()] or [float()] may also hold a string. *)

Inductive num : Type :=
| PInt (z : Z)
| PFloat (f : float).

Inductive pyval : Type :=
| VNum (n : num)
| VStr (s : string).

(** [float(z)] for an int: correctly rounded to nearest even, and
    [OverflowError] when the result does not fit a double. *)
Definition float_of_Z (z : Z) : result float :=
  match binary_normalize prec emax z 0 false with
  | S754_infinity _ => Raise OverflowError
  | sf => Ret (SF2Prim sf)
  end.

(** [int(f)] for a float: truncation towards zero; [ValueError] on NaN and
    [OverflowError] on an infinity. *)
Definition Z_of_float (f : float) : result Z :=
  match Prim2SF f with
  | S754_zero _ => Ret 0
  | S754_finite s m e =>
      let a := if (0 <=? e)%Z then Z.pos m * 2 ^ e else Z.pos m / 2 ^ (- e) in
      Ret (if s then - a else a)
  | S754_infinity _ => Raise OverflowError
  | S754_nan => Raise ValueError
  end.

Definition num_float (n : num) : result float :=
  match n with
  | PInt z => float_of_Z z
  | PFloat f => Ret f
  end.

Definition num_int (n : num) : result Z :=
  match n with
  | PInt z => Ret z
  | PFloat f => Z_of_float f
  end.

(** Binary arithmetic: two ints stay exact, anything else is carried out on
    doubles after converting the int operand. *)
Definition num_arith (fz : Z -> Z -> Z) (ff : float -> float -> float)
    (a b : num) : result num :=
  match a, b with
  | PInt x, PInt y => Ret (PInt (fz x y))
  | _, _ =>
      match num_float a with
      | Raise e => Raise e
      | Ret x =>
          match num_float b with
          | Raise e => Raise e
          | Ret y => Ret (PFloat (ff x y))
          end
      end
  end.

Definition num_mul : num -> num -> result num := num_arith Z.mul PrimFloat.mul.
Definition num_add : num -> num -> result num := num_arith Z.add PrimFloat.add.

(** Comparison of numbers is exact, also between an int and a float; it is
    undefined ([None]) when a NaN takes part. *)
Definition cmp_Z_sf (z : Z) (f : spec_float) : option comparison :=
  match f with
  | S754_zero _ => Some (z ?= 0)
  | S754_finite s m e =>
      let v := if s then Z.neg m else Z.pos m in
      Some (if (0 <=? e)%Z then z ?= v * 2 ^ e else z * 2 ^ (- e) ?= v)
  | S754_infinity s => Some (if s then Gt else Lt)
  | S754_nan => None
  end.

Definition cmp_float (x y : float) : option comparison :=
  match PrimFloat.compare x y with
  | FEq => Some Eq
  | FLt => Some Lt
  | FGt => Some Gt
  | FNotComparable => None
  end.

Definition num_cmp (a b : num) : option comparison :=
  match a, b with
  | PInt x, PInt y => Some (x ?= y)
  | PInt x, PFloat g => cmp_Z_sf x (Prim2SF g)
  | PFloat f, PInt y => CompOpp <$> cmp_Z_sf y (Prim2SF f)
  | PFloat f, PFloat g => cmp_float f g
  end.

(** [a >= b], [a > b] and [a == b] *)
Definition num_gt (a b : num) : bool :=
  match num_cmp a b with
  | Some Gt => true
  | _ => false
  end.

Definition num_ge (a b : num) : bool :=
  match num_cmp a b with
  | Some Gt | Some Eq => true
  | _ => false
  end.

Definition num_eq (a b : num) : bool :=
  match num_cmp a b with
  | Some Eq => true
  | _ => false
  end.

(** [float(v)] and [int(v)] on a JSON value.  Parsing a string is Python's
    own; it is taken as given by the two functions below, with [None] for a
    string Python rejects with [ValueError]. *)
Section Conversions.
Variable parse_float : string -> option float.
Variable parse_int : string -> option Z.

Definition py_float (v : pyval) : result float :=
  match v with
  | VNum n => num_float n
  | VStr s => match parse_float s with Some f => Ret f | None => Raise ValueError end
  end.

Definition py_int (v : pyval) : result Z :=
  match v with
  | VNum n => num_int n
  | VStr s => match parse_int s with Some z => Ret z | None => Raise ValueError end
  end.
End Conversions.

(** A method that reports an error prints it and returns [False] in place
    of its value. *)
Inductive or_false (A : Type) : Type :=
| PyFalse
| Val (a : A).
Arguments PyFalse {A}.
Arguments Val {A} a.

(** ** Contract calls and transactions *)

Record swaps_tuple : Type := SwapsTuple {
  st_poolId : string;
  st_idxSortedIn : nat;
  st_idxSortedOut : nat;
  st_amount : Z;
  st_userData : list Z
}.

Record funds_tuple : Type := FundsTuple {
  fd_sender : string;
  fd_fromInternalBalance : bool;
  fd_recipient : string;
  fd_toInternalBalance : bool
}.

(** The "built call" objects the ABI binding layer hands back. *)
Inductive contract_fn : Type :=
| FnApprove (token allowedAddress : string) (allowance : Z)
| FnCreateWeighted (name symbol : string) (checksumTokens : list string)
    (weights : list Z) (swapFeePercentage : Z) (owner : or_false string)
| FnCreateWeighted2Tokens (name symbol : string) (checksumTokens : list string)
    (weights : list Z) (swapFeePercentage : Z) (oracleEnabled : bool)
    (owner : or_false string)
| FnBatchSwap (kind : Z) (swapsTuples : list swaps_tuple) (assets : list string)
    (funds : funds_tuple) (limits : list Z) (deadline : Z).

Record transaction : Type := Transaction {
  tx_fn : contract_fn;
  tx_chainId : Z;
  tx_gas : Z;
  tx_gasPrice : Z;
  tx_nonce : Z
}.

(** ** The world *)

Inductive erc20_query : Type :=
| QDecimals
| QBalanceOf (owner : string)
| QAllowance (owner allowedAddress : string).

(** Effects on the collaborators, most recent first in the trace. *)
Inductive event : Type :=
| EvError (text : string)
| EvSleep (seconds : num)
| EvGetTransactionCount
| EvErc20Call (token : string) (q : erc20_query)
| EvEstimateGas (fn : contract_fn)
| EvSendRawTransaction (tx : transaction)
| EvWaitForReceipt (txHash : string)
| EvGetTransactionReceipt (txHash : string)
| EvEtherscanGet
| EvTime.

Definition loc := nat.

Record world : Type := World {
  heap : gmap loc (list string);      (* Python list objects of addresses *)
  decimals : gmap string Z;           (* balpy.decimals *)
  erc20Contracts : gset string;       (* keys of balpy.erc20Contracts *)
  lastEtherscanCallTime : float;      (* balpy.lastEtherscanCallTime *)
  trace : list event
}.

Definition set_heap (h : gmap loc (list string)) (w : world) : world :=
  World h (decimals w) (erc20Contracts w) (lastEtherscanCallTime w) (trace w).
Definition set_decimals (d : gmap string Z) (w : world) : world :=
  World (heap w) d (erc20Contracts w) (lastEtherscanCallTime w) (trace w).
Definition set_erc20Contracts (c : gset string) (w : world) : world :=
  World (heap w) (decimals w) c (lastEtherscanCallTime w) (trace w).
Definition set_lastEtherscanCallTime (t : float) (w : world) : world :=
  World (heap w) (decimals w) (erc20Contracts w) t (trace w).
Definition set_trace (t : list event) (w : world) : world :=
  World (heap w) (decimals w) (erc20Contracts w) (lastEtherscanCallTime w) t.

(** ** The monad of methods *)

Definition Py (A : Type) : Type := world -> result A * world.

Definition ret {A} (a : A) : Py A := fun w => (Ret a, w).
Definition raise {A} (e : exn) : Py A := fun w => (Raise e, w).
Definition bind {A B} (m : Py A) (k : A -> Py B) : Py B :=
  fun w =>
    match m w with
    | (Ret a, w') => k a w'
    | (Raise e, w') => (Raise e, w')
    end.
Definition lift {A} (r : result A) : Py A := fun w => (r, w).
Definition get_world : Py world := fun w => (Ret w, w).
Definition emit (e : event) : Py unit :=
  fun w => (Ret tt, set_trace (e :: trace w) w).

(** [try: m except Exception: h] *)
Definition try_except {A} (m : Py A) (h : exn -> Py A) : Py A :=
  fun w =>
    match m w with
    | (Ret a, w') => (Ret a, w')
    | (Raise e, w') => h e w'
    end.

Declare Scope py_scope.
Delimit Scope py_scope with py.
Notation "'let!' x ':=' m 'in' k" := (bind m (fun x => k))
  (at level 10, x pattern, m at level 100, k at level 200) : py_scope.
Notation "m ';;!' k" := (bind m (fun _ => k))
  (at level 100, k at level 200, right associativity) : py_scope.
Open Scope py_scope.

(** A [for] loop over [xs] that updates the local variables [acc]; the body
    answers [inl r] to [return r] from the enclosing method and [inr acc'] to
    go on.  The loop itself answers [inr acc] when it runs to its end. *)
Fixpoint for_each {X S R} (xs : list X) (acc : S)
    (body : X -> S -> Py (R + S)) : Py (R + S) :=
  match xs with
  | [] => ret (inr acc)
  | x :: xs' =>
      let! r := body x acc in
      match r with
      | inl v => ret (inl v)
      | inr acc' => for_each xs' acc' body
      end
  end.

(** A loop without [return] in its body. *)
Fixpoint for_in {X S} (xs : list X) (acc : S) (body : X -> S -> Py S) : Py S :=
  match xs with
  | [] => ret acc
  | x :: xs' => let! acc' := body x acc in for_in xs' acc' body
  end.

Definition range (n : nat) : list nat := seq 0 n.

(** ** Lists of addresses on the heap *)

(** [str <= str]: lexicographic on code points, as Python compares. *)
Definition str_le (s1 s2 : string) : Prop := String.leb s1 s2 = true.

#[global] Instance str_le_dec : RelDecision str_le.
Proof. intros s1 s2. unfold str_le. apply _. Defined.

(** [len(l)] *)
Definition list_len (l : loc) : Py nat :=
  fun w =>
    match heap w !! l with
    | Some xs => (Ret (length xs), w)
    | None => (Raise TypeError, w)
    end.

(** [l[i]] for [i >= 0] *)
Definition list_get (l : loc) (i : nat) : Py string :=
  fun w =>
    match heap w !! l with
    | Some xs =>
        match xs !! i with
        | Some x => (Ret x, w)
        | None => (Raise IndexError, w)
        end
    | None => (Raise TypeError, w)
    end.

(** [l.sort()]: the list object itself is reordered. *)
Definition list_sort (l : loc) : Py unit :=
  fun w =>
    match heap w !! l with
    | Some xs => (Ret tt, set_heap (<[l := merge_sort str_le xs]> (heap w)) w)
    | None => (Raise TypeError, w)
    end.

(** [list(keys)]: a fresh list object. *)
Definition list_new (xs : list string) : Py loc :=
  fun w =>
    let l := fresh (dom (heap w)) in
    (Ret l, set_heap (<[l := xs]> (heap w)) w).

(** The elements of a list object, for a comprehension over it. *)
Definition list_elems (l : loc) : Py (list string) :=
  fun w =>
    match heap w !! l with
    | Some xs => (Ret xs, w)
    | None => (Raise TypeError, w)
    end.

(** [d[k]] on a dict *)
Definition dict_get `{Countable K} {V} (d : gmap K V) (k : K) : Py V :=
  match d !! k with
  | Some v => ret v
  | None => raise KeyError
  end.

(** ** TokenReorderer *)

Definition balReorderTokenDicts (tokens : loc)
    : Py (loc * gmap nat nat * gmap nat nat) :=
  let originalIdxToSortedIdx : gmap nat nat := ∅ in
  let sortedIdxToOriginalIdx : gmap nat nat := ∅ in
  let tokenAddressToIdx : gmap string nat := ∅ in
  let! n := list_len tokens in
  let! tokenAddressToIdx :=
    for_in (range n) tokenAddressToIdx (fun i tokenAddressToIdx =>
      let! t := list_get tokens i in
      ret (<[t := i]> tokenAddressToIdx)) in
  let sortedTokens := tokens in
  list_sort sortedTokens ;;!
  let! n := list_len sortedTokens in
  let! (originalIdxToSortedIdx, sortedIdxToOriginalIdx) :=
    for_in (range n) (originalIdxToSortedIdx, sortedIdxToOriginalIdx)
      (fun i '(originalIdxToSortedIdx, sortedIdxToOriginalIdx) =>
        let! t := list_get sortedTokens i in
        let! k := dict_get tokenAddressToIdx t in
        let originalIdxToSortedIdx := <[k := i]> originalIdxToSortedIdx in
        let! t := list_get sortedTokens i in
        let! k := dict_get tokenAddressToIdx t in
        let sortedIdxToOriginalIdx := <[i := k]> sortedIdxToOriginalIdx in
        ret (originalIdxToSortedIdx, sortedIdxToOriginalIdx)) in
  ret (sortedTokens, originalIdxToSortedIdx, sortedIdxToOriginalIdx).

Definition empty_world : world := World ∅ ∅ ∅ 0%float [].

(** ** Domain input *)

Record token_data : Type := TokenData {
  td_weight : num;
  td_initialBalance : num;
  td_allowance : option num
}.

(** [poolData["tokens"]] keeps the order of the description, which the
    weight sum follows. *)
Record pool_data : Type := PoolData {
  pd_name : string;
  pd_symbol : string;
  pd_tokens : list (string * token_data);
  pd_swapFeePercent : num;
  pd_owner : option string;
  pd_oracleEnabled : option (bool + string)
}.

Record swap_step : Type := SwapStep {
  sw_poolId : string;
  sw_assetInIndex : pyval;
  sw_assetOutIndex : pyval;
  sw_amount : pyval
}.

(** [swapDescription["assets"]] is the caller's list object. *)
Record swap_description : Type := SwapDescription {
  sd_kind : pyval;
  sd_assets : loc;
  sd_swaps : list swap_step;
  sd_limits : list pyval;
  sd_sender : string;
  sd_fromInternalBalance : bool;
  sd_recipient : string;
  sd_toInternalBalance : bool;
  sd_deadline : pyval
}.

(** A text between double quotes. *)
Definition quoted (s : string) : string :=
  let q := String (ascii_of_nat 34) EmptyString in
  q +:+ s +:+ q.

(** [s.lower()] on ASCII *)
Definition ascii_lower (c : ascii) : ascii :=
  let n := nat_of_ascii c in
  if ((65 <=? n) && (n <=? 90))%nat then ascii_of_nat (n + 32) else c.

Fixpoint str_lower (s : string) : string :=
  match s with
  | EmptyString => EmptyString
  | String c s' => String (ascii_lower c) (str_lower s')
  end.

(** [len(s)]: the number of code points.  A string holds the UTF-8 bytes of
    the text; the continuation bytes [10xxxxxx] start no code point. *)
Definition is_continuation (c : ascii) : bool :=
  let n := nat_of_ascii c in ((128 <=? n) && (n <? 192))%nat.

Fixpoint py_len (s : string) : nat :=
  match s with
  | EmptyString => 0%nat
  | String c s' => ((if is_continuation c then 0 else 1) + py_len s')%nat
  end.

(** ** The collaborators

    The node, the gas oracle, the clock and the library functions the code
    calls but does not define.  An answer may depend on everything that
    happened before the call, which the trace records.  The calls that send
    or wait, the gas estimate, the request to the gas oracle and the
    conversion to wei may raise.  The reads of the node (the nonce and the
    ERC-20 [call]s) are taken to answer, and [toChecksumAddress] is taken on
    address strings, where web3 does not refuse it. *)

Record receipt : Type := Receipt {
  rc_transactionHash : string;
  rc_blockNumber : Z
}.

Class Collaborators : Type := {
  toChecksumAddress : string -> string;
  parse_float : string -> option float;
  parse_int : string -> option Z;
  float_str : float -> string;                      (* str(x) on a float *)
  pow10_neg : Z -> float;                           (* 10 ** (-d), d > 0 *)
  time_now : list event -> float;                   (* time.time() *)
  chainIdNetwork : Z;                 (* networkParams[self.network]["id"] *)
  address : string;                                 (* self.address *)
  transaction_count : list event -> N;
  erc20_answer : list event -> string -> erc20_query -> Z;
  abi_accepts : contract_fn -> bool;      (* do the arguments fit the ABI? *)
  estimateGas : list event -> contract_fn -> result Z;
  etherscan_get : list event -> result (string -> result pyval);
  toWei : pyval -> result Z;              (* web3.toWei(number, 'gwei') *)
  transaction_hash : transaction -> string;
  send_raw_transaction : list event -> transaction -> result unit;
  wait_for_transaction_receipt : list event -> string -> result unit;
  transaction_receipt : list event -> string -> result receipt
}.

Section Methods.
Context `{!Collaborators}.

(** A call on a collaborator: answered from the history, then recorded. *)
Definition ask {A} (e : event) (answer : list event -> result A) : Py A :=
  fun w => (answer (trace w), set_trace (e :: trace w) w).

Definition time_time : Py float :=
  ask EvTime (fun tr => Ret (time_now tr)).

(** [time.sleep(seconds)] raises [ValueError] for a negative length and for
    NaN; [-0.0] is a length of zero.  The [OverflowError] of a length past
    the limit of the platform is left out: the statements about a delay the
    caller supplies keep it below [sleep_max]. *)
Definition sleep_accepts (seconds : num) : bool := num_ge seconds (PInt 0).
Definition sleep_max : Z := 4294967.

Definition time_sleep (seconds : num) : Py unit :=
  if sleep_accepts seconds then emit (EvSleep seconds) else raise ValueError.

(** [10 ** e] *)
Definition py_pow10 (e : Z) : num :=
  if 0 <=? e then PInt (10 ^ e) else PFloat (pow10_neg (- e)).

(** [str(x)] *)
Definition num_str (x : num) : string :=
  match x with
  | PInt z => pretty z
  | PFloat f => float_str f
  end.

Definition INFINITE : Z := 2 ^ 256 - 1.
Definition VAULT : string := "0xBA12222222228d8Ba445958a75a0704d566BF2C8".
Definition ZERO_ADDRESS : string := "0x0000000000000000000000000000000000000000".
Definition etherscanMaxRate : float := 5.0.
Definition etherscanSpeedDict : gmap string string :=
  {[ "slow" := "SafeGasPrice";
     "average" := "ProposeGasPrice";
     "fast" := "FastGasPrice" ]}.

(** [def ERROR(self, text)] takes one argument; a call that passes another
    number of arguments raises [TypeError] before the body runs. *)
Definition ERROR (args : list string) : Py unit :=
  match args with
  | [text] => emit (EvError text)
  | _ => raise TypeError
  end.

(** [contract.functions.f(args)]: web3 matches the arguments against the ABI
    when the call is built and raises [ValidationError] when they fit no
    function.  A [False] where the ABI has an address never fits; the rest
    of the check is web3's own. *)
Definition fits_abi (fn : contract_fn) : bool :=
  match fn with
  | FnCreateWeighted _ _ _ _ _ PyFalse
  | FnCreateWeighted2Tokens _ _ _ _ _ _ PyFalse => false
  | _ => abi_accepts fn
  end.

Definition build_call (fn : contract_fn) : Py contract_fn :=
  if fits_abi fn then ret fn else raise ValidationError.

(** [web3.toWei(number, 'gwei')]: a bool is not a number for it. *)
Definition web3_toWei (number : or_false pyval) : result Z :=
  match number with
  | PyFalse => Raise TypeError
  | Val v => toWei v
  end.

(** *** GasOracleClient *)

Definition getGasPriceEtherscanGwei (speed : string) : Py (or_false pyval) :=
  let! now := time_time in
  let! w := get_world in
  let dt := (now - lastEtherscanCallTime w)%float in
  (if (dt <? 1.0 / etherscanMaxRate)%float
   then time_sleep (PFloat ((1.0 / etherscanMaxRate - dt) * 1.1)%float)
   else ret tt) ;;!
  match etherscanSpeedDict !! speed with
  | None =>
      emit (EvError ("Speed entered is: " +:+ speed)) ;;!
      ret PyFalse
  | Some key =>
      let! response := ask EvEtherscanGet etherscan_get in
      let! now := time_time in
      (fun w => (Ret tt, set_lastEtherscanCallTime now w)) ;;!
      let! price := lift (response key) in
      ret (Val price)
  end.

(** *** TransactionBuilder and TransactionSubmitter *)

Definition buildTx (fn : contract_fn) (gasFactor : num) (gasSpeed : string)
    (nonceOverride gasEstimateOverride : Z) (gasPriceGweiOverride : num)
    : Py transaction :=
  let! nonce :=
    if -1 <? nonceOverride then ret nonceOverride
    else ask EvGetTransactionCount (fun tr => Ret (Z.of_N (transaction_count tr))) in
  let! gasEstimate :=
    if -1 <? gasEstimateOverride then ret gasEstimateOverride
    else
      let! g := ask (EvEstimateGas fn) (fun tr => estimateGas tr fn) in
      let! scaled := lift (num_mul (PInt g) gasFactor) in
      lift (num_int scaled) in
  let! gasPriceGwei :=
    if num_gt gasPriceGweiOverride (PInt (-1))
    then ret (Val (VNum gasPriceGweiOverride))
    else getGasPriceEtherscanGwei gasSpeed in
  let! gasPrice := lift (web3_toWei gasPriceGwei) in
  ret (Transaction fn chainIdNetwork gasEstimate gasPrice nonce).

Definition waitForTx (txHash : string) : Py bool :=
  ask (EvWaitForReceipt txHash)
      (fun tr => wait_for_transaction_receipt tr txHash) ;;!
  ret true.

(** Signing and broadcasting; the hash is that of the transaction. *)
Definition sendTx (tx : transaction) (isAsync : bool) : Py string :=
  let! txHash :=
    ask (EvSendRawTransaction tx)
        (fun tr =>
           match send_raw_transaction tr tx with
           | Ret _ => Ret (transaction_hash tx)
           | Raise e => Raise e
           end) in
  (if negb isAsync then waitForTx txHash else ret true) ;;!
  ret txHash.

Definition getTxReceipt (txHash : string) (delay : num) (maxRetries : Z)
    : Py (or_false receipt) :=
  let! r :=
    for_each (range (Z.to_nat maxRetries)) tt (fun i _ =>
      try_except
        (let! receipt :=
           ask (EvGetTransactionReceipt txHash)
               (fun tr => transaction_receipt tr txHash) in
         ret (inl receipt))
        (fun e =>
           time_sleep delay ;;!
           ret (inr tt))) in
  match r with
  | inl receipt => ret (Val receipt)
  | inr _ =>
      ERROR ["Transaction not found in"; pretty maxRetries; "retries."] ;;!
      ret PyFalse
  end.

(** *** ERC20 reads and the allowance workflow *)

Definition erc20GetContract (tokenAddress : string) : Py string :=
  let! w := get_world in
  if decide (tokenAddress ∈ erc20Contracts w) then ret tokenAddress
  else
    (fun w => (Ret tt, set_erc20Contracts ({[tokenAddress]} ∪ erc20Contracts w) w)) ;;!
    ret tokenAddress.

Definition erc20_call (token : string) (q : erc20_query) : Py Z :=
  ask (EvErc20Call token q) (fun tr => Ret (erc20_answer tr token q)).

Definition erc20GetDecimals (tokenAddress : string) : Py Z :=
  let! w := get_world in
  match decimals w !! tokenAddress with
  | Some d => ret d
  | None =>
      let! token := erc20GetContract tokenAddress in
      let! d := erc20_call token QDecimals in
      (fun w => (Ret tt, set_decimals (<[tokenAddress := d]> (decimals w)) w)) ;;!
      ret d
  end.

Definition erc20GetBalanceStandard (tokenAddress : string) : Py num :=
  let! token := erc20GetContract tokenAddress in
  let! decimals := erc20GetDecimals tokenAddress in
  let! raw := erc20_call token (QBalanceOf address) in
  lift (num_mul (PInt raw) (py_pow10 (- decimals))).

Definition erc20GetAllowanceStandard (tokenAddress allowedAddress : string)
    : Py num :=
  let! token := erc20GetContract tokenAddress in
  let! decimals := erc20GetDecimals tokenAddress in
  let! raw := erc20_call token (QAllowance address allowedAddress) in
  lift (num_mul (PInt raw) (py_pow10 (- decimals))).

Definition erc20BuildFunctionSetAllowance (tokenAddress allowedAddress : string)
    (allowance : Z) : Py contract_fn :=
  let! token := erc20GetContract tokenAddress in
  build_call (FnApprove token allowedAddress allowance).

Definition erc20SignAndSendNewAllowance (tokenAddress allowedAddress : string)
    (allowance : Z) (gasFactor : num) (gasSpeed : string)
    (nonceOverride gasEstimateOverride : Z) (gasPriceGweiOverride : num)
    (isAsync : bool) : Py string :=
  let! fn := erc20BuildFunctionSetAllowance tokenAddress allowedAddress allowance in
  let! tx := buildTx fn gasFactor gasSpeed nonceOverride gasEstimateOverride
               gasPriceGweiOverride in
  sendTx tx isAsync.

Definition erc20HasSufficientAllowance (tokenAddress allowedAddress : string)
    (amount : num) : Py bool :=
  let! currentAllowance := erc20GetAllowanceStandard tokenAddress allowedAddress in
  let! balance := erc20GetBalanceStandard tokenAddress in
  ret (num_ge currentAllowance amount).

(** Returns [None] or the hash of the approval it sent. *)
Definition erc20EnforceSufficientAllowance (tokenAddress allowedAddress : string)
    (targetAllowance amount gasFactor : num) (gasSpeed : string)
    (nonceOverride gasEstimateOverride : Z) (gasPriceGweiOverride : num)
    (isAsync : bool) : Py (option string) :=
  let! sufficient := erc20HasSufficientAllowance tokenAddress allowedAddress amount in
  if negb sufficient then
    let! targetAllowance :=
      if num_eq targetAllowance (PInt (-1)) || num_eq targetAllowance (PInt INFINITE)
      then ret (PInt INFINITE)
      else
        let! decimals := erc20GetDecimals tokenAddress in
        lift (num_mul targetAllowance (py_pow10 decimals)) in
    let! targetAllowance := lift (num_int targetAllowance) in
    let! txHash :=
      erc20SignAndSendNewAllowance tokenAddress allowedAddress targetAllowance
        gasFactor gasSpeed nonceOverride (-1) (PInt (-1)) isAsync in
    ret (Some txHash)
  else ret None.

Definition erc20EnforceSufficientVaultAllowance (tokenAddress : string)
    (targetAllowance amount gasFactor : num) (gasSpeed : string)
    (nonceOverride gasEstimateOverride : Z) (gasPriceGweiOverride : num)
    (isAsync : bool) : Py (option string) :=
  erc20EnforceSufficientAllowance tokenAddress VAULT targetAllowance amount
    gasFactor gasSpeed nonceOverride gasEstimateOverride gasPriceGweiOverride
    isAsync.

(** [xs[i]] on a list value, [i >= 0] *)
Definition index {A} (xs : list A) (i : nat) : Py A :=
  match xs !! i with
  | Some x => ret x
  | None => raise IndexError
  end.

(** The batched form; the loop carries the local variables [nonce] and
    [txHashes]. *)
Definition erc20AsyncEnforceSufficientVaultAllowances (tokens : list string)
    (targetAllowances amounts : list num) (gasFactor : num) (gasSpeed : string)
    (nonceOverride gasEstimateOverride : Z) (gasPriceGweiOverride : num)
    : Py bool :=
  if negb (length tokens =? length targetAllowances)%nat then
    ERROR ["Array length mismatch with " +:+ pretty (length tokens) +:+
           " tokens and " +:+ pretty (length targetAllowances) +:+
           " targetAllowances."] ;;!
    ret false
  else
    let! nonce := ask EvGetTransactionCount (fun tr => Ret (Z.of_N (transaction_count tr))) in
    let txHashes : list string := [] in
    let numElements := length tokens in
    let! (nonce, txHashes) :=
      for_in (range numElements) (nonce, txHashes) (fun i '(nonce, txHashes) =>
        let! token := index tokens i in
        let! targetAllowance := index targetAllowances i in
        let! amount := index amounts i in
        let! txHash :=
          erc20EnforceSufficientVaultAllowance token targetAllowance amount
            gasFactor gasSpeed nonce (-1) (PInt (-1)) true in
        match txHash with
        | Some txHash => ret (nonce + 1, txHashes ++ [txHash])
        | None => ret (nonce, txHashes)
        end) in
    for_in txHashes tt (fun txHash _ =>
      waitForTx txHash ;;!
      ret tt) ;;!
    ret true.

(** *** Token sorting and pool creation

    [balGetFactoryContract] only binds an address to its ABI and is left
    out; the factory a call goes to is the constructor of [contract_fn]. *)

Definition balSortTokens (tokensIn : loc) : Py (loc * list string) :=
  list_sort tokensIn ;;!
  let! ts := list_elems tokensIn in
  let checksumTokens := toChecksumAddress <$> ts in
  ret (tokensIn, checksumTokens).

(** [poolData["tokens"][t]["weight"]] *)
Definition token_weight (poolData : pool_data) (t : string) : Py num :=
  match list_find (fun kv => kv.1 = t) (pd_tokens poolData) with
  | Some (_, kv) => ret (td_weight kv.2)
  | None => raise KeyError
  end.

Definition balWeightsEqualOne (poolData : pool_data) : Py bool :=
  let tokenData := pd_tokens poolData in
  let tokens := tokenData.*1 in
  let weightSum := PFloat 0.0 in
  let! weightSum :=
    for_in tokens weightSum (fun token weightSum =>
      let! weight := token_weight poolData token in
      lift (num_add weightSum weight)) in
  let weightEqualsOne := num_eq weightSum (PFloat 1.0) in
  (if negb weightEqualsOne then
     ERROR ["Token weights add up to " +:+ num_str weightSum +:+
            ", but they must add up to 1.0"]
   else ret tt) ;;!
  ret weightEqualsOne.

Definition balSetOwner (poolData : pool_data) : Py (or_false string) :=
  let owner := ZERO_ADDRESS in
  match pd_owner poolData with
  | Some ownerAddress =>
      if negb (py_len ownerAddress =? 42)%nat then
        ERROR ["Entry for " +:+ quoted "owner" +:+
               " must be a 42 character Ethereum address beginning with " +:+
               quoted "0x"] ;;!
        ret PyFalse
      else ret (Val (toChecksumAddress ownerAddress))
  | None => ret (Val owner)
  end.

(** [[int(poolData["tokens"][t]["weight"] * 1e18) for t in tokens]] *)
Definition intWithDecimalsWeights_of (poolData : pool_data) (tokens : loc)
    : Py (list Z) :=
  let! ts := list_elems tokens in
  for_in ts [] (fun t acc =>
    let! weight := token_weight poolData t in
    let! scaled := lift (num_mul weight (PFloat 1e18)) in
    let! z := lift (num_int scaled) in
    ret (acc ++ [z])).

Definition swapFeePercentage_of (poolData : pool_data) : Py Z :=
  let! scaled := lift (num_mul (pd_swapFeePercent poolData) (PFloat 1e16)) in
  lift (num_int scaled).

Definition balCreateFnWeightedPoolFactory (poolData : pool_data)
    : Py (or_false contract_fn) :=
  let! keys := list_new (pd_tokens poolData).*1 in
  let! (tokens, checksumTokens) := balSortTokens keys in
  let! intWithDecimalsWeights := intWithDecimalsWeights_of poolData tokens in
  let! swapFeePercentage := swapFeePercentage_of poolData in
  let! ok := balWeightsEqualOne poolData in
  if negb ok then ret PyFalse
  else
    let! owner := balSetOwner poolData in
    let! createFunction :=
      build_call (FnCreateWeighted (pd_name poolData) (pd_symbol poolData)
                    checksumTokens intWithDecimalsWeights swapFeePercentage
                    owner) in
    ret (Val createFunction).

Definition balCreateFnWeightedPool2TokensFactory (poolData : pool_data)
    : Py (or_false contract_fn) :=
  let! keys := list_new (pd_tokens poolData).*1 in
  let! (tokens, checksumTokens) := balSortTokens keys in
  let! n := list_len tokens in
  if negb (n =? 2)%nat then
    ERROR ["WeightedPool2TokensFactory requires 2 tokens, but"; pretty n; "were given."] ;;!
    ret PyFalse
  else
    let! ok := balWeightsEqualOne poolData in
    if negb ok then ret PyFalse
    else
      let! intWithDecimalsWeights := intWithDecimalsWeights_of poolData tokens in
      let! swapFeePercentage := swapFeePercentage_of poolData in
      let! owner := balSetOwner poolData in
      let oracleEnabled :=
        match pd_oracleEnabled poolData with
        | Some (inl b) => b
        | Some (inr s) => bool_decide (str_lower s = "true")
        | None => false
        end in
      let! createFunction :=
        build_call (FnCreateWeighted2Tokens (pd_name poolData)
                      (pd_symbol poolData) checksumTokens intWithDecimalsWeights
                      swapFeePercentage oracleEnabled owner) in
      ret (Val createFunction).

(** *** Swaps *)

Definition balSwapIsFlashSwap (swapDescription : swap_description) : Py bool :=
  let! r :=
    for_each (sd_limits swapDescription) tt (fun amount _ =>
      let! a := lift (py_float parse_float amount) in
      if negb (a =? 0.0)%float then ret (inl false)
      else ret (inr tt)) in
  match r with
  | inl b => ret b
  | inr _ => ret true
  end.

(** [eth_abi.encode_abi(['uint256'], [0])]: one zero word. *)
Definition balSwapGetUserData : list Z := replicate 32 0.

(** [d[z]] on a dict whose keys are the ints [0, 1, ...] *)
Definition dict_get_int {V} (d : gmap nat V) (z : Z) : Py V :=
  if z <? 0 then raise KeyError else dict_get d (Z.to_nat z).

Definition balCreateFnBatchSwap (swapDescription : swap_description)
    : Py contract_fn :=
  let! (sortedTokens, originalIdxToSortedIdx, sortedIdxToOriginalIdx) :=
    balReorderTokenDicts (sd_assets swapDescription) in
  let! numTokens := list_len sortedTokens in
  let! reorderedLimits :=
    for_in (range numTokens) [] (fun i reorderedLimits =>
      let! k := dict_get sortedIdxToOriginalIdx i in
      let! limit := index (sd_limits swapDescription) k in
      let! currLimitStandard := lift (py_float parse_float limit) in
      let! token := list_get sortedTokens i in
      let! decimals := erc20GetDecimals token in
      let! scaled := lift (num_mul (PFloat currLimitStandard) (py_pow10 decimals)) in
      let! currLimitRaw := lift (num_int scaled) in
      ret (reorderedLimits ++ [currLimitRaw])) in
  let! kind := lift (py_int parse_int (sd_kind swapDescription)) in
  let! ts := list_elems sortedTokens in
  let assets := toChecksumAddress <$> ts in
  let! swapsTuples :=
    for_in (sd_swaps swapDescription) [] (fun swap swapsTuples =>
      let! a := lift (py_int parse_int (sw_assetInIndex swap)) in
      let! idxSortedIn := dict_get_int originalIdxToSortedIdx a in
      let! b := lift (py_int parse_int (sw_assetOutIndex swap)) in
      let! idxSortedOut := dict_get_int originalIdxToSortedIdx b in
      let! token := list_get sortedTokens idxSortedIn in
      let! decimals := erc20GetDecimals token in
      let! amount := lift (py_float parse_float (sw_amount swap)) in
      let! scaled := lift (num_mul (PFloat amount) (py_pow10 decimals)) in
      let! amount := lift (num_int scaled) in
      let swapsTuple :=
        SwapsTuple (sw_poolId swap) idxSortedIn idxSortedOut amount
          balSwapGetUserData in
      ret (swapsTuples ++ [swapsTuple])) in
  let funds :=
    FundsTuple (toChecksumAddress (sd_sender swapDescription))
      (sd_fromInternalBalance swapDescription)
      (toChecksumAddress (sd_recipient swapDescription))
      (sd_toInternalBalance swapDescription) in
  let intReorderedLimits := reorderedLimits in
  let! deadline := lift (py_int parse_int (sd_deadline swapDescription)) in
  build_call
    (FnBatchSwap kind swapsTuples assets funds intReorderedLimits deadline).
End Methods.

(** ** Further methods *)

Section MoreMethods.
Context `{!Collaborators}.

(** *** Balance checks *)

Definition erc20HasSufficientBalance (tokenAddress : string) (amountToUse : pyval)
    : Py bool :=
  let! balance := erc20GetBalanceStandard tokenAddress in
  let! need := lift (py_float parse_float amountToUse) in
  let! has := lift (num_float balance) in
  let sufficient := (need <=? has)%float in
  (if negb sufficient then ERROR ["Insufficient Balance!"] else ret tt) ;;!
  ret sufficient.

Definition erc20HasSufficientBalances (tokens : list string) (amounts : list pyval)
    : Py bool :=
  if negb (length tokens =? length amounts)%nat then
    ERROR ["Array length mismatch with " +:+ pretty (length tokens) +:+
           " tokens and " +:+ pretty (length amounts) +:+ " amounts."] ;;!
    ret false
  else
    let numElements := length tokens in
    let sufficientBalance := true in
    for_in (range numElements) sufficientBalance (fun i sufficientBalance =>
      let! token := index tokens i in
      let! amount := index amounts i in
      let! currentHasSufficientBalance := erc20HasSufficientBalance token amount in
      ret (sufficientBalance && currentHasSufficientBalance)).

(** *** Target allowances of a pool description *)

(** [poolDescription["tokens"][token]] *)
Definition token_entry (poolData : pool_data) (t : string) : Py token_data :=
  match list_find (fun kv => kv.1 = t) (pd_tokens poolData) with
  | Some (_, kv) => ret kv.2
  | None => raise KeyError
  end.

Definition erc20GetTargetAllowancesFromPoolData (poolDescription : pool_data)
    : Py (loc * list num) :=
  let! keys := list_new (pd_tokens poolDescription).*1 in
  let! (tokens, checksumTokens) := balSortTokens keys in
  let! ts := list_elems tokens in
  let! allowances :=
    for_in ts [] (fun token allowances =>
      let targetAllowance := PInt (-1) in
      let! entry := token_entry poolDescription token in
      let targetAllowance :=
        match td_allowance entry with
        | Some a => a
        | None => targetAllowance
        end in
      let targetAllowance :=
        if num_eq targetAllowance (PInt (-1)) then PInt INFINITE
        else targetAllowance in
      ret (allowances ++ [targetAllowance])) in
  ret (tokens, allowances).

(** *** Conversion to raw units *)

Definition balConvertTokensToWei (tokens : list string) (amounts : list num)
    : Py (or_false (list Z)) :=
  let rawTokens : list Z := [] in
  if negb (length tokens =? length amounts)%nat then
    ERROR ["Array length mismatch with " +:+ pretty (length tokens) +:+
           " tokens and " +:+ pretty (length amounts) +:+ " amounts."] ;;!
    ret PyFalse
  else
    let numElements := length tokens in
    let! rawTokens :=
      for_in (range numElements) rawTokens (fun i rawTokens =>
        let! token := index tokens i in
        let! rawValue := index amounts i in
        let! decimals := erc20GetDecimals token in
        let! scaled := lift (num_mul rawValue (py_pow10 decimals)) in
        let! raw := lift (num_int scaled) in
        ret (rawTokens ++ [raw])) in
    ret (Val rawTokens).

(** *** Sending a batch swap *)

Definition balDoBatchSwap (swapDescription : swap_description) (isAsync : bool)
    (gasFactor : num) (gasPriceSpeed : string)
    (nonceOverride gasEstimateOverride : Z) (gasPriceGweiOverride : num)
    : Py string :=
  let! batchSwapFn := balCreateFnBatchSwap swapDescription in
  let! tx := buildTx batchSwapFn gasFactor gasPriceSpeed nonceOverride
               gasEstimateOverride gasPriceGweiOverride in
  sendTx tx isAsync.
End MoreMethods.

(** The two loops of [balReorderTokenDicts] read as folds, for reasoning. *)
Definition index_step (xs : list string) (i : nat) (d : gmap string nat)
    : gmap string nat :=
  match xs !! i with
  | Some t => <[t := i]> d
  | None => d
  end.

Definition address_index (xs : list string) : gmap string nat :=
  foldl (flip (index_step xs)) ∅ (range (length xs)).

Definition remap_step (d : gmap string nat) (ys : list string) (i : nat)
    (m : gmap nat nat * gmap nat nat) : gmap nat nat * gmap nat nat :=
  match ys !! i with
  | Some t =>
      match d !! t with
      | Some k => (<[k := i]> m.1, <[i := k]> m.2)
      | None => m
      end
  | None => m
  end.

Definition index_maps (d : gmap string nat) (ys : list string)
    : gmap nat nat * gmap nat nat :=
  foldl (flip (remap_step d ys)) (∅, ∅) (range (length ys)).

(** Sorted position [j] of [ys] holds the token of original position [i]
    of [xs]. *)
Definition same_token (xs ys : list string) (i j : nat) : Prop :=
  exists t, xs !! i = Some t /\ ys !! j = Some t.

(** What the loop of [balSwapIsFlashSwap] answers, read off the limits. *)
Fixpoint flash_scan (parse : string -> option float) (limits : list pyval)
    : result bool :=
  match limits with
  | [] => Ret true
  | amount :: rest =>
      match py_float parse amount with
      | Raise e => Raise e
      | Ret a => if (a =? 0.0)%float then flash_scan parse rest else Ret false
      end
  end.

(** A limit that reads as a number equal to [0.0], and one that reads as a
    number different from it. *)
Definition reads_zero (parse : string -> option float) (v : pyval) : Prop :=
  exists a, py_float parse v = Ret a /\ (a =? 0.0)%float = true.
Definition reads_nonzero (parse : string -> option float) (v : pyval) : Prop :=
  exists a, py_float parse v = Ret a /\ (a =? 0.0)%float = false.

Definition with_limits (limits : list pyval) : swap_description :=
  SwapDescription (VNum (PInt 0)) 0%nat [] limits "0xME" false "0xME" false
    (VNum (PInt 0)).

(** The events of [n] failed receipt lookups, most recent first. *)
Fixpoint failed_lookups (n : nat) (txHash : string) (delay : num) : list event :=
  match n with
  | O => []
  | S n' =>
      EvSleep delay :: EvGetTransactionReceipt txHash ::
      failed_lookups n' txHash delay
  end.

(** ** Observations on the trace *)

(** The transactions broadcast and the hashes waited for, most recent
    first, and the number of times the account's nonce was fetched. *)
Definition sent (tr : list event) : list transaction :=
  omap (fun e => match e with EvSendRawTransaction tx => Some tx | _ => None end) tr.

Definition waited (tr : list event) : list string :=
  omap (fun e => match e with EvWaitForReceipt h => Some h | _ => None end) tr.

Definition nonce_fetches (tr : list event) : nat :=
  length (omap (fun e => match e with EvGetTransactionCount => Some tt | _ => None end) tr).

(** An event that neither submits nor waits, and one that moreover does
    not fetch the nonce. *)
Definition no_submit (e : event) : bool :=
  match e with
  | EvSendRawTransaction _ | EvWaitForReceipt _ => false
  | _ => true
  end.

Definition is_read (e : event) : bool :=
  match e with
  | EvGetTransactionCount => false
  | _ => no_submit e
  end.

(** [w'] comes from [w] by events that [allow] accepts: the lists on the
    heap are the same and the decimals cache has only grown. *)
Definition reads (allow : event -> bool) (w w' : world) : Prop :=
  heap w' = heap w /\
  decimals w ⊆ decimals w' /\
  exists evs, trace w' = evs ++ trace w /\ Forall (fun e => allow e = true) evs.

(** A computation that only does so, whether it returns or raises. *)
Definition quiet (allow : event -> bool) {A} (m : Py A) : Prop :=
  forall w, reads allow w (m w).2.

(** [targetAllowance == -1 or targetAllowance == self.INFINITE] *)
Definition is_infinite_target (targetAllowance : num) : bool :=
  num_eq targetAllowance (PInt (-1)) || num_eq targetAllowance (PInt INFINITE).

(** The allowance argument of an approval for [targetAllowance], for a
    token of [d] decimals: [2^256 - 1] for the two sentinels, and otherwise
    [int(targetAllowance * 10 ** d)]. *)
Definition approval_amount `{!Collaborators} (targetAllowance : num) (d : Z)
    (allowance : Z) : Prop :=
  if is_infinite_target targetAllowance then allowance = INFINITE
  else exists scaled,
    num_mul targetAllowance (py_pow10 d) = Ret scaled /\
    num_int scaled = Ret allowance.

(** The token a transaction approves the vault for. *)
Definition vault_approval_of (tx : transaction) : option string :=
  match tx_fn tx with
  | FnApprove t spender _ => if decide (spender = VAULT) then Some t else None
  | _ => None
  end.

(** The nonces [base, base + 1, ..., base + k - 1]. *)
Definition consecutive_from (base : Z) (k : nat) : list Z :=
  (fun i => base + Z.of_nat i) <$> seq 0 k.

(** What holds of the variables [nonce] and [txHashes] of the batch's loop
    after its first [i] operations; [ws] is the world in which the loop
    starts, [base] the nonce fetched, and [txs] the transactions sent so
    far, in the order of their submission. *)
Definition batch_inv `{!Collaborators} (tokens : list string) (base : Z)
    (ws : world) (i : nat) (st : Z * list string) (w1 : world) : Prop :=
  exists txs,
    sent (trace w1) = reverse txs ++ sent (trace ws) /\
    st.2 = transaction_hash <$> txs /\
    st.1 = base + Z.of_nat (length txs) /\
    tx_nonce <$> txs = consecutive_from base (length txs) /\
    waited (trace w1) = waited (trace ws) /\
    nonce_fetches (trace w1) = nonce_fetches (trace ws) /\
    length (omap vault_approval_of txs) = length txs /\
    omap vault_approval_of txs `sublist_of` take i tokens.

(** ** What the batch-swap encoder owes its caller *)

(** The limit [v] at sorted position [i]: the caller's limit at original
    position [sortedIdxToOriginalIdx[i]], read as a number and converted
    with the decimals that world [w] has for the token at sorted position
    [i] of [ys]. *)
Definition limit_ok `{!Collaborators} (limits : list pyval) (ys : list string)
    (s2o : gmap nat nat) (w : world) (i : nat) (v : Z) : Prop :=
  exists k lim f tok d scaled,
    s2o !! i = Some k /\ limits !! k = Some lim /\
    py_float parse_float lim = Ret f /\
    ys !! i = Some tok /\ decimals w !! tok = Some d /\
    num_mul (PFloat f) (py_pow10 d) = Ret scaled /\ num_int scaled = Ret v.

(** The tuple of a step carries the step's indices sent through
    [originalIdxToSortedIdx]. *)
Definition step_ok `{!Collaborators} (o2s : gmap nat nat) (swap : swap_step)
    (tuple : swaps_tuple) : Prop :=
  exists a b,
    py_int parse_int (sw_assetInIndex swap) = Ret a /\
    py_int parse_int (sw_assetOutIndex swap) = Ret b /\
    0 <= a /\ 0 <= b /\
    o2s !! Z.to_nat a = Some (st_idxSortedIn tuple) /\
    o2s !! Z.to_nat b = Some (st_idxSortedOut tuple) /\
    st_poolId tuple = sw_poolId swap.

(** The sorted indices of a tuple resolve, in the emitted asset list, to
    the addresses the step's indices had in the caller's list [xs]. *)
Definition step_resolves `{!Collaborators} (xs assets : list string)
    (swap : swap_step) (tuple : swaps_tuple) : Prop :=
  exists a b addr_in addr_out,
    py_int parse_int (sw_assetInIndex swap) = Ret a /\
    py_int parse_int (sw_assetOutIndex swap) = Ret b /\
    0 <= a /\ 0 <= b /\
    xs !! Z.to_nat a = Some addr_in /\ xs !! Z.to_nat b = Some addr_out /\
    assets !! st_idxSortedIn tuple = Some (toChecksumAddress addr_in) /\
    assets !! st_idxSortedOut tuple = Some (toChecksumAddress addr_out).

(** The weight sum of [balWeightsEqualOne], accumulated on doubles in the
    order of the description's tokens. *)
Fixpoint weight_sum (poolData : pool_data) (tokens : list string) (acc : num)
    : result num :=
  match tokens with
  | [] => Ret acc
  | t :: ts =>
      match list_find (fun kv => kv.1 = t) (pd_tokens poolData) with
      | Some (_, kv) =>
          match num_add acc (td_weight kv.2) with
          | Ret acc' => weight_sum poolData ts acc'
          | Raise e => Raise e
          end
      | None => Raise KeyError
      end
  end.

(** ** Concrete inputs for the examples *)

Definition bb_aa_cc : list string := ["0xBB"; "0xAA"; "0xCC"].

Definition world_with (xs : list string) : world :=
  World {[ 0%nat := xs ]} ∅ ∅ 0%float [].

(** Collaborators that answer the same whatever happened before: token
    ["0xAA"] has granted nothing, any other token an allowance of 5; every
    token has 18 decimals; no receipt is ever found. *)
Definition fixed_collaborators : Collaborators := {|
  toChecksumAddress := id;
  parse_float := fun _ => None;
  parse_int := fun _ => None;
  float_str := fun _ => "float";
  pow10_neg := fun _ => 1e-18%float;
  time_now := fun _ => 1000%float;
  chainIdNetwork := 42;
  address := "0xME";
  transaction_count := fun _ => 7%N;
  erc20_answer := fun _ token q =>
    match q with
    | QDecimals => 18
    | QBalanceOf _ => 5 * 10 ^ 18
    | QAllowance _ _ => if decide (token = "0xAA") then 0 else 5 * 10 ^ 18
    end;
  abi_accepts := fun _ => true;
  estimateGas := fun _ _ => Ret 50000;
  etherscan_get := fun _ => Ret (fun _ => Ret (VStr "5"));
  toWei := fun _ => Ret 5000000000;
  transaction_hash := fun tx => "hash" +:+ pretty (tx_nonce tx);
  send_raw_transaction := fun _ _ => Ret tt;
  wait_for_transaction_receipt := fun _ _ => Ret tt;
  transaction_receipt := fun _ _ => Raise KeyError
|}.

Definition pool_of (weights : list (string * num)) : pool_data :=
  PoolData "pool" "BPT"
    ((fun kw => (kw.1, TokenData kw.2 (PInt 1) None)) <$> weights)
    (PFloat 0.3) None None.

(** A batch of three operations; with [fixed_collaborators] the first and
    the third need an approval. *)
Definition batch_tokens : list string := ["0xAA"; "0xBB"; "0xAA"].
Definition batch_targets : list num := [PInt (-1); PInt (-1); PInt (-1)].
Definition batch_amounts : list num := [PInt 1; PInt 1; PInt 1].

Definition run_batch (tokens : list string) (targetAllowances amounts : list num)
    (w : world) : result bool * world :=
  @erc20AsyncEnforceSufficientVaultAllowances fixed_collaborators tokens
    targetAllowances amounts (PFloat 1.05) "average" (-1) (-1) (PInt (-1)) w.

(** A swap over the assets ["0xBB", "0xAA", "0xCC"], which are list [0] of
    [world_with bb_aa_cc]: one step from original index [0] to original
    index [1]. *)
Definition demo_swap : swap_description :=
  SwapDescription (VNum (PInt 0)) 0%nat
    [SwapStep "pool1" (VNum (PInt 0)) (VNum (PInt 1)) (VNum (PFloat 1.5))]
    [VNum (PInt 100); VNum (PInt 0); VNum (PFloat 2.5)]
    "0xME" false "0xME" false (VNum (PInt 999)).

Definition demo_swap_call : contract_fn :=
  FnBatchSwap 0
    [SwapsTuple "pool1" 1 0 1500000000000000000 (replicate 32 0)]
    ["0xAA"; "0xBB"; "0xCC"]
    (FundsTuple "0xME" false "0xME" false)
    [0; 100000000000000000000; 2500000000000000000]
    999.

(** Collaborators like [fixed_collaborators], but a receipt is found once
    the history holds four events, that is at the third lookup. *)
Definition patient_collaborators : Collaborators := {|
  toChecksumAddress := id;
  parse_float := fun _ => None;
  parse_int := fun _ => None;
  float_str := fun _ => "float";
  pow10_neg := fun _ => 1e-18%float;
  time_now := fun _ => 1000%float;
  chainIdNetwork := 42;
  address := "0xME";
  transaction_count := fun _ => 7%N;
  erc20_answer := fun _ token q =>
    match q with
    | QDecimals => 18
    | QBalanceOf _ => 5 * 10 ^ 18
    | QAllowance _ _ => if decide (token = "0xAA") then 0 else 5 * 10 ^ 18
    end;
  abi_accepts := fun _ => true;
  estimateGas := fun _ _ => Ret 50000;
  etherscan_get := fun _ => Ret (fun _ => Ret (VStr "5"));
  toWei := fun _ => Ret 5000000000;
  transaction_hash := fun tx => "hash" +:+ pretty (tx_nonce tx);
  send_raw_transaction := fun _ _ => Ret tt;
  wait_for_transaction_receipt := fun _ _ => Ret tt;
  transaction_receipt := fun tr h =>
    if (length tr <? 4)%nat then Raise KeyError else Ret (Receipt h 1)
|}.

(** The sleep of the rate limiter for a clock reading [now] and a last call
    at [last]. *)
Definition rate_limit_sleep (now last : float) : list event :=
  let dt := (now - last)%float in
  if (dt <? 1.0 / etherscanMaxRate)%float
  then [EvSleep (PFloat ((1.0 / etherscanMaxRate - dt) * 1.1)%float)]
  else [].

(** ** Further observations on the trace *)

(** The tokens whose balance was asked, most recent first, and the number
    of reports of an insufficient balance. *)
Definition balance_calls (tr : list event) : list string :=
  omap (fun e => match e with
                 | EvErc20Call t (QBalanceOf _) => Some t
                 | _ => None
                 end) tr.

Definition insufficient_reports (tr : list event) : nat :=
  length (omap (fun e => match e with
                         | EvError text =>
                             if decide (text = "Insufficient Balance!") then Some tt
                             else None
                         | _ => None
                         end) tr).

(** [poolData["tokens"][t]], and the target allowance that
    [erc20GetTargetAllowancesFromPoolData] derives from such an entry. *)
Definition entry_of (poolData : pool_data) (t : string) : option token_data :=
  (fun r => r.2.2) <$> list_find (fun kv => kv.1 = t) (pd_tokens poolData).

Definition target_allowance_of (entry : token_data) : num :=
  match td_allowance entry with
  | Some given => if num_eq given (PInt (-1)) then PInt INFINITE else given
  | None => PInt INFINITE
  end.

(** The raw amount [raw] at position [i]: the amount at that position
    multiplied by ten to the decimals that world [w] has for the token at
    that position, truncated. *)
Definition wei_ok `{!Collaborators} (tokens : list string) (amounts : list num)
    (w : world) (i : nat) (raw : Z) : Prop :=
  exists t a d scaled,
    tokens !! i = Some t /\ amounts !! i = Some a /\
    decimals w !! t = Some d /\
    num_mul a (py_pow10 d) = Ret scaled /\ num_int scaled = Ret raw.

(** [poolData["tokens"][t]["weight"]], and the integer weight the factories
    pass for token [t]: [int(weight * 1e18)]. *)
Definition weight_of (poolData : pool_data) (t : string) : option num :=
  td_weight <$> entry_of poolData t.

Definition scaled_weight_ok (poolData : pool_data) (t : string) (z : Z) : Prop :=
  exists weight scaled,
    weight_of poolData t = Some weight /\
    num_mul weight (PFloat 1e18) = Ret scaled /\ num_int scaled = Ret z.

(** The owner argument of a create call, as [balSetOwner] derives it. *)
Definition owner_of `{!Collaborators} (poolData : pool_data) : or_false string :=
  match pd_owner poolData with
  | Some ownerAddress =>
      if (py_len ownerAddress =? 42)%nat
      then Val (toChecksumAddress ownerAddress)
      else PyFalse
  | None => Val ZERO_ADDRESS
  end.

(** A pool of two tokens with equal weights and the owner entry [owner]. *)
Definition pool_owned_by (owner : string) : pool_data :=
  PoolData "pool" "BPT"
    [("0xBB", TokenData (PFloat 0.5) (PInt 1) None);
     ("0xAA", TokenData (PFloat 0.5) (PInt 1) None)]
    (PFloat 0.3) (Some owner) (Some (inr "True")).

(** The amount of a step's tuple: the step's amount read as a number,
    multiplied by ten to the decimals that world [w] has for the token at
    the tuple's sorted in-index in [ys], truncated; pool id and user data
    pass through. *)
Definition amount_ok `{!Collaborators} (ys : list string) (w : world)
    (swap : swap_step) (tuple : swaps_tuple) : Prop :=
  exists tok d f scaled,
    ys !! st_idxSortedIn tuple = Some tok /\ decimals w !! tok = Some d /\
    py_float parse_float (sw_amount swap) = Ret f /\
    num_mul (PFloat f) (py_pow10 d) = Ret scaled /\
    num_int scaled = Ret (st_amount tuple) /\
    st_poolId tuple = sw_poolId swap /\ st_userData tuple = balSwapGetUserData.

(** An event other than a wait for a receipt. *)
Definition no_wait (e : event) : bool :=
  match e with
  | EvWaitForReceipt _ => false
  | _ => true
  end.

(** [w'] comes from [w] by reads, whatever happened to the heap; a
    computation that only does so, whether it returns or raises. *)
Definition only_reads (w w' : world) : Prop :=
  exists evs, trace w' = evs ++ trace w /\ Forall (fun e => is_read e = true) evs.

Definition silent {A} (m : Py A) : Prop :=
  forall w, only_reads w (m w).2.

(** Nothing was broadcast, waited for, or fetched as a nonce between [w]
    and [w']. *)
Definition submissions_unchanged (w w' : world) : Prop :=
  sent (trace w') = sent (trace w) /\ waited (trace w') = waited (trace w) /\
  nonce_fetches (trace w') = nonce_fetches (trace w).

(** ** Signs of doubles *)

(** The double [x] is a zero, a finite number or an infinity of sign [s];
    and [x] is no NaN and not below zero. *)
Definition sf_signed (x : spec_float) (s : bool) : Prop :=
  match x with
  | S754_zero s' | S754_infinity s' | S754_finite s' _ _ => s' = s
  | S754_nan => False
  end.

Definition sf_nonneg (x : spec_float) : bool :=
  match x with
  | S754_zero _ => true
  | S754_infinity s | S754_finite s _ _ => negb s
  | S754_nan => false
  end.

(** * Properties *)

#[global] Arguments num_mul : simpl never.
#[global] Arguments num_add : simpl never.
#[global] Arguments num_int : simpl never.
#[global] Arguments num_float : simpl never.
#[global] Arguments num_eq : simpl never.
#[global] Arguments num_ge : simpl never.
#[global] Arguments py_pow10 : simpl never.

(** ** The order on addresses *)

Lemma ascii_compare_trans_le (a b c : ascii) :
  Ascii.compare a b <> Gt -> Ascii.compare b c <> Gt -> Ascii.compare a c <> Gt.
Proof.
  unfold Ascii.compare. rewrite !N.compare_le_iff. intros; etrans; eauto.
Qed.

Lemma string_compare_refl (s : string) : String.compare s s = Eq.
Proof.
  induction s as [|a s IH]; simpl; [done|].
  unfold Ascii.compare. by rewrite N.compare_refl.
Qed.

Lemma string_compare_trans_le (s1 s2 s3 : string) :
  String.compare s1 s2 <> Gt -> String.compare s2 s3 <> Gt ->
  String.compare s1 s3 <> Gt.
Proof.
  revert s2 s3. induction s1 as [|a s1 IH]; intros [|b s2] [|c s3]; simpl; try done.
  destruct (Ascii.compare a b) eqn:Hab; [|clear IH|done].
  - apply Ascii.compare_eq_iff in Hab as ->.
    destruct (Ascii.compare b c) eqn:Hbc; [|done|done]. apply IH.
  - intros _.
    destruct (Ascii.compare b c) eqn:Hbc; [|idtac|done].
    + apply Ascii.compare_eq_iff in Hbc as <-. by rewrite Hab.
    + intros _.
      assert (Ascii.compare a c = Lt) as ->; [|done].
      unfold Ascii.compare in *. rewrite N.compare_lt_iff in Hab, Hbc |- *.
      by etrans.
Qed.

Lemma str_le_compare (s1 s2 : string) : str_le s1 s2 <-> String.compare s1 s2 <> Gt.
Proof. unfold str_le, String.leb. by destruct (String.compare s1 s2). Qed.

#[global] Instance str_le_total : Total str_le.
Proof. intros s1 s2. apply String.leb_total. Qed.

#[global] Instance str_le_trans : Transitive str_le.
Proof.
  intros s1 s2 s3. rewrite !str_le_compare. apply string_compare_trans_le.
Qed.

#[global] Instance str_le_antisymm : AntiSymm (=) str_le.
Proof. intros s1 s2. apply String.leb_antisym. Qed.

#[global] Instance str_le_refl : Reflexive str_le.
Proof. intros s. apply str_le_compare. by rewrite string_compare_refl. Qed.

(** [list.sort] is modelled by [merge_sort]; on a total order any sorting
    algorithm gives the same list. *)
Lemma sort_unique (xs ys : list string) :
  ys ≡ₚ xs -> Sorted str_le ys -> ys = merge_sort str_le xs.
Proof.
  intros Hp Hs. apply (Sorted_unique str_le); [done| |].
  - apply Sorted_merge_sort, _.
  - by rewrite merge_sort_Permutation.
Qed.

(** ** Loops whose body leaves the world alone *)

Lemma for_in_pure {X S} (xs : list X) (body : X -> S -> Py S) (f : X -> S -> S)
    (acc : S) (w : world) :
  (forall x a, x ∈ xs -> body x a w = (Ret (f x a), w)) ->
  for_in xs acc body w = (Ret (foldl (flip f) acc xs), w).
Proof.
  revert acc. induction xs as [|x xs IH]; intros acc Hb; simpl; [done|].
  unfold bind. rewrite Hb by left. apply IH. intros; apply Hb. by right.
Qed.

(** ** TokenReorderer: the index maps *)

Lemma address_index_prefix (xs : list string) (k : nat) :
  (k <= length xs)%nat ->
  let d := foldl (flip (index_step xs)) ∅ (range k) in
  (forall t i, d !! t = Some i -> (i < k)%nat /\ xs !! i = Some t) /\
  (forall t i, (i < k)%nat -> xs !! i = Some t -> is_Some (d !! t)).
Proof.
  induction k as [|k IH]; intros Hk; cbv zeta.
  - split; [|lia]. intros t i. simpl. by rewrite lookup_empty.
  - destruct IH as [IH1 IH2]; [lia|].
    unfold range in *. rewrite seq_S, foldl_snoc. simpl.
    set (d := foldl _ _ _) in *. unfold flip, index_step.
    destruct (lookup_lt_is_Some_2 xs k) as [t0 Ht0]; [lia|]. rewrite Ht0.
    split; intros t i.
    + rewrite lookup_insert. case_decide as Ht; [intros [= <-]; subst; split; [lia|done]|].
      intros [? ?]%IH1. split; [lia|done].
    + intros Hi Hx. rewrite lookup_insert. case_decide; [by eexists|].
      apply (IH2 t i); [|done]. destruct (decide (i = k)) as [->|]; [congruence|lia].
Qed.

Lemma address_index_lookup (xs : list string) (t : string) (i : nat) :
  NoDup xs -> address_index xs !! t = Some i <-> xs !! i = Some t.
Proof.
  intros Hnd. destruct (address_index_prefix xs (length xs)) as [H1 H2]; [done|].
  split; [by intros [? ?]%H1|]. intros Hx.
  destruct (H2 t i) as [i' Hi']; [by eapply lookup_lt_Some|done|].
  unfold address_index. rewrite Hi'. f_equal.
  apply H1 in Hi' as [_ Hi']. by eapply NoDup_lookup.
Qed.

Lemma address_index_is_Some (xs : list string) (t : string) :
  t ∈ xs -> is_Some (address_index xs !! t).
Proof.
  intros [i Hi]%list_elem_of_lookup.
  destruct (address_index_prefix xs (length xs)) as [_ H2]; [done|].
  apply (H2 t i); [by eapply lookup_lt_Some|done].
Qed.

Lemma index_maps_prefix (d : gmap string nat) (ys : list string) (k : nat) :
  let P := fun j i => exists t, ys !! j = Some t /\ d !! t = Some i in
  (forall j j' i, P j i -> P j' i -> j = j') ->
  (k <= length ys)%nat ->
  let m := foldl (flip (remap_step d ys)) (∅, ∅) (range k) in
  (forall i j, m.1 !! i = Some j <-> (j < k)%nat /\ P j i) /\
  (forall i j, m.2 !! j = Some i <-> (j < k)%nat /\ P j i).
Proof.
  intros P Hinj. induction k as [|k IH]; intros Hk; cbv zeta.
  - split; intros i j; simpl; rewrite lookup_empty; split; [done|lia|done|lia].
  - destruct IH as [IH1 IH2]; [lia|].
    unfold range in *. rewrite seq_S, foldl_snoc. simpl.
    set (m := foldl _ _ _) in *. unfold flip, remap_step.
    destruct (lookup_lt_is_Some_2 ys k) as [t0 Ht0]; [lia|]. rewrite Ht0.
    assert (forall j i, (j < S k)%nat /\ P j i <->
              ((j < k)%nat /\ P j i) \/ (j = k /\ d !! t0 = Some i)) as Hsplit.
    { intros j i. split.
      - intros [Hj HP]. destruct (decide (j = k)) as [->|]; [|left; split; [lia|done]].
        right. split; [done|]. destruct HP as (t & Ht & Hd). congruence.
      - intros [[? ?]|[-> ?]]; [split; [lia|done]|]. split; [lia|]. by exists t0. }
    destruct (d !! t0) as [i0|] eqn:Hd0; simpl.
    + split; intros i j; rewrite Hsplit, lookup_insert.
      * case_decide as Hi; subst.
        -- split; [intros [= <-]; by right|].
           intros [[Hj HP]|[-> _]]; [|done]. f_equal.
           apply (Hinj _ _ i); [by exists t0|done].
        -- rewrite IH1. split; [by left|]. intros [?|[_ [=]]]; done.
      * case_decide as Hj; subst.
        -- split; [intros [= <-]; by right|].
           intros [[Hj _]|[_ ?]]; [lia|done].
        -- rewrite IH2. split; [by left|]. intros [?|[? _]]; done.
    + split; intros i j; rewrite Hsplit; [rewrite IH1|rewrite IH2];
        (split; [by left|]); intros [?|[_ [=]]]; done.
Qed.

Lemma index_maps_lookup (xs ys : list string) :
  NoDup xs -> ys ≡ₚ xs ->
  let m := index_maps (address_index xs) ys in
  (forall i j, m.1 !! i = Some j <-> same_token xs ys i j) /\
  (forall i j, m.2 !! j = Some i <-> same_token xs ys i j).
Proof.
  intros Hnd Hp.
  assert (NoDup ys) as Hndy by by rewrite Hp.
  assert (forall i j, same_token xs ys i j <->
    (j < length ys)%nat /\
    exists t, ys !! j = Some t /\ address_index xs !! t = Some i) as Hst.
  { intros i j. unfold same_token. split.
    - intros (t & Hx & Hy). split; [by eapply lookup_lt_Some|].
      exists t. by rewrite address_index_lookup.
    - intros (_ & t & Hy & Hx). exists t. by rewrite <-address_index_lookup. }
  destruct (index_maps_prefix (address_index xs) ys (length ys)) as [H1 H2]; [|done|].
  - intros j j' i (t & Hy & Hd) (t' & Hy' & Hd').
    rewrite address_index_lookup in Hd, Hd' by done.
    assert (t = t') as <- by congruence. by eapply NoDup_lookup.
  - split; intros i j; rewrite Hst; [apply H1|apply H2].
Qed.

(** ** Running a method step by step *)

Lemma bind_run {A B} (m : Py A) (k : A -> Py B) (a : A) (w w' : world) :
  m w = (Ret a, w') -> bind m k w = k a w'.
Proof. unfold bind. by intros ->. Qed.

Lemma bind_raise {A B} (m : Py A) (k : A -> Py B) (e : exn) (w w' : world) :
  m w = (Raise e, w') -> bind m k w = (Raise e, w').
Proof. unfold bind. by intros ->. Qed.

Lemma list_len_run (l : loc) (xs : list string) (w : world) :
  heap w !! l = Some xs -> list_len l w = (Ret (length xs), w).
Proof. unfold list_len. by intros ->. Qed.

Lemma list_get_run (l : loc) (xs : list string) (i : nat) (x : string) (w : world) :
  heap w !! l = Some xs -> xs !! i = Some x -> list_get l i w = (Ret x, w).
Proof. unfold list_get. by intros -> ->. Qed.

Lemma list_sort_run (l : loc) (xs : list string) (w : world) :
  heap w !! l = Some xs ->
  list_sort l w = (Ret tt, set_heap (<[l := merge_sort str_le xs]> (heap w)) w).
Proof. unfold list_sort. by intros ->. Qed.

Lemma list_elems_run (l : loc) (xs : list string) (w : world) :
  heap w !! l = Some xs -> list_elems l w = (Ret xs, w).
Proof. unfold list_elems. by intros ->. Qed.

Lemma dict_get_run `{Countable K} {V} (d : gmap K V) (k : K) (v : V) (w : world) :
  d !! k = Some v -> dict_get d k w = (Ret v, w).
Proof. unfold dict_get. by intros ->. Qed.

(** What [balReorderTokenDicts] computes and what it does to the heap. *)
Lemma balReorderTokenDicts_run (tokens : loc) (xs : list string) (w : world) :
  heap w !! tokens = Some xs ->
  let ys := merge_sort str_le xs in
  let m := index_maps (address_index xs) ys in
  balReorderTokenDicts tokens w =
    (Ret (tokens, m.1, m.2), set_heap (<[tokens := ys]> (heap w)) w).
Proof.
  intros Hx ys m. unfold balReorderTokenDicts.
  erewrite bind_run by by apply list_len_run.
  erewrite bind_run; last first.
  { apply (for_in_pure _ _ (index_step xs)).
    intros i d [_ Hi]%elem_of_seq. unfold index_step.
    destruct (lookup_lt_is_Some_2 xs i) as [t Ht]; [lia|]. rewrite Ht.
    by erewrite bind_run by by eapply list_get_run. }
  fold (address_index xs).
  erewrite bind_run by by apply list_sort_run. fold ys.
  set (w1 := set_heap _ w).
  assert (heap w1 !! tokens = Some ys) as Hy by apply lookup_insert_eq.
  erewrite bind_run by by apply list_len_run.
  erewrite bind_run; last first.
  { apply (for_in_pure _ _ (remap_step (address_index xs) ys)).
    intros i [o s] [_ Hi]%elem_of_seq. unfold remap_step.
    destruct (lookup_lt_is_Some_2 ys i) as [t Ht]; [lia|]. rewrite Ht.
    destruct (address_index_is_Some xs t) as [k Hk].
    { rewrite <-(merge_sort_Permutation str_le xs). by eapply list_elem_of_lookup_2. }
    rewrite Hk.
    erewrite bind_run by by eapply list_get_run.
    erewrite bind_run by by eapply dict_get_run.
    erewrite bind_run by by eapply list_get_run.
    by erewrite bind_run by by eapply dict_get_run. }
  fold (index_maps (address_index xs) ys). fold m. by destruct m.
Qed.

Section TokenReorderer.
Variables (tokens : loc) (xs : list string) (w : world).
Hypothesis Htokens : heap w !! tokens = Some xs.

(** C1 (TokenReorderer): on a list of unique addresses the reorder
    operation returns, it returns a list that is sorted in ascending
    address order and holds the same addresses, and the index maps
    [originalIdxToSortedIdx] and [sortedIdxToOriginalIdx] are defined
    exactly on [0, n), map into [0, n), and are inverse to each other:
    one after the other, in either order, is the identity on [0, n). *)
Theorem balReorderTokenDicts_sorted_inverse_maps :
  NoDup xs ->
  exists sortedTokens o2s s2o w' ys,
    balReorderTokenDicts tokens w = (Ret (sortedTokens, o2s, s2o), w') /\
    heap w' !! sortedTokens = Some ys /\
    ys ≡ₚ xs /\
    StronglySorted str_le ys /\
    (forall i, (i < length xs)%nat ->
       exists j, (j < length xs)%nat /\ o2s !! i = Some j /\ s2o !! j = Some i) /\
    (forall j, (j < length xs)%nat ->
       exists i, (i < length xs)%nat /\ s2o !! j = Some i /\ o2s !! i = Some j) /\
    (forall i, (length xs <= i)%nat -> o2s !! i = None /\ s2o !! i = None).
Proof.
  intros Hnd. set (ys := merge_sort str_le xs).
  assert (ys ≡ₚ xs) as Hp by apply merge_sort_Permutation.
  pose proof (Permutation_length Hp) as Hlen.
  destruct (index_maps_lookup xs ys Hnd Hp) as [H1 H2].
  set (m := index_maps (address_index xs) ys) in *.
  exists tokens, m.1, m.2, (set_heap (<[tokens := ys]> (heap w)) w), ys.
  split; [by apply balReorderTokenDicts_run|].
  split; [apply lookup_insert_eq|]. split; [done|].
  split; [apply StronglySorted_merge_sort; apply _|].
  split; [|split].
  - intros i Hi. destruct (lookup_lt_is_Some_2 xs i Hi) as [t Ht].
    assert (t ∈ ys) as [j Hj]%list_elem_of_lookup.
    { rewrite Hp. by eapply list_elem_of_lookup_2. }
    exists j. split; [apply lookup_lt_Some in Hj; lia|].
    rewrite H1, H2. split; by exists t.
  - intros j Hj. destruct (lookup_lt_is_Some_2 ys j) as [t Ht]; [lia|].
    assert (t ∈ xs) as [i Hi]%list_elem_of_lookup.
    { rewrite <-Hp. by eapply list_elem_of_lookup_2. }
    exists i. split; [by eapply lookup_lt_Some|].
    rewrite H1, H2. split; by exists t.
  - intros i Hi. split; apply eq_None_not_Some; intros [k Hk].
    + apply H1 in Hk as (t & Ht & _). apply lookup_lt_Some in Ht. lia.
    + apply H2 in Hk as (t & _ & Ht). apply lookup_lt_Some in Ht. lia.
Qed.
End TokenReorderer.

Lemma balReorderTokenDicts_sorted_inverse_maps_witness :
  exists sortedTokens o2s s2o w' ys,
    balReorderTokenDicts 0%nat (world_with bb_aa_cc) =
      (Ret (sortedTokens, o2s, s2o), w') /\
    heap w' !! sortedTokens = Some ys /\
    ys ≡ₚ bb_aa_cc /\
    StronglySorted str_le ys /\
    (forall i, (i < length bb_aa_cc)%nat ->
       exists j, (j < length bb_aa_cc)%nat /\ o2s !! i = Some j /\ s2o !! j = Some i) /\
    (forall j, (j < length bb_aa_cc)%nat ->
       exists i, (i < length bb_aa_cc)%nat /\ s2o !! j = Some i /\ o2s !! i = Some j) /\
    (forall i, (length bb_aa_cc <= i)%nat -> o2s !! i = None /\ s2o !! i = None).
Proof.
  apply (balReorderTokenDicts_sorted_inverse_maps 0%nat bb_aa_cc (world_with bb_aa_cc)).
  - reflexivity.
  - refine (bool_decide_unpack (NoDup bb_aa_cc) _). vm_compute. exact I.
Defined.

(** The scenario of the specification: ["0xBB", "0xAA", "0xCC"]. *)
Example balReorderTokenDicts_scenario :
  exists w',
    balReorderTokenDicts 0%nat (world_with bb_aa_cc) =
      (Ret (0%nat, {[ 0%nat := 1%nat; 1%nat := 0%nat; 2%nat := 2%nat ]},
                   {[ 0%nat := 1%nat; 1%nat := 0%nat; 2%nat := 2%nat ]}), w') /\
    heap w' !! 0%nat = Some ["0xAA"; "0xBB"; "0xCC"]%string.
Proof. eexists. split; [vm_compute; reflexivity|]. vm_compute. reflexivity. Qed.

(** ** In-place sorting *)

Section InPlace.
Context `{!Collaborators}.

Lemma balSortTokens_run (tokensIn : loc) (xs : list string) (w : world) :
  heap w !! tokensIn = Some xs ->
  let ys := merge_sort str_le xs in
  balSortTokens tokensIn w =
    (Ret (tokensIn, toChecksumAddress <$> ys),
     set_heap (<[tokensIn := ys]> (heap w)) w).
Proof.
  intros Hx ys. unfold balSortTokens.
  erewrite bind_run by by apply list_sort_run.
  erewrite bind_run; [done|]. apply list_elems_run. apply lookup_insert_eq.
Qed.

(** C7, as the code has it: both operations sort the caller's list object
    itself and hand that same object back.  After the call the caller's
    list holds the addresses it held before, rearranged in ascending order,
    so it is unchanged exactly when it was in ascending order already; no
    other list object changes. *)
Theorem sorting_reorders_the_callers_list (tokens : loc) (xs : list string)
    (w : world) :
  heap w !! tokens = Some xs ->
  exists ys,
    ys ≡ₚ xs /\ Sorted str_le ys /\ (ys = xs <-> Sorted str_le xs) /\
    (exists o2s s2o w',
       balReorderTokenDicts tokens w = (Ret (tokens, o2s, s2o), w') /\
       heap w' = <[tokens := ys]> (heap w)) /\
    (exists w',
       balSortTokens tokens w = (Ret (tokens, toChecksumAddress <$> ys), w') /\
       heap w' = <[tokens := ys]> (heap w)).
Proof.
  intros Hx. exists (merge_sort str_le xs).
  assert (Sorted str_le (merge_sort str_le xs)) as Hs by apply Sorted_merge_sort, _.
  split; [apply merge_sort_Permutation|]. split; [done|]. split; [|split].
  - split; [by intros <-|]. intros Hxs. symmetry. by apply sort_unique.
  - eexists _, _, _. split; [by apply balReorderTokenDicts_run|done].
  - eexists. split; [by apply balSortTokens_run|done].
Qed.
End InPlace.

Lemma sorting_reorders_the_callers_list_witness :
  exists ys,
    ys ≡ₚ bb_aa_cc /\ Sorted str_le ys /\ (ys = bb_aa_cc <-> Sorted str_le bb_aa_cc) /\
    (exists o2s s2o w',
       balReorderTokenDicts 0%nat (world_with bb_aa_cc) = (Ret (0%nat, o2s, s2o), w') /\
       heap w' = <[0%nat := ys]> (heap (world_with bb_aa_cc))) /\
    (exists w',
       @balSortTokens fixed_collaborators 0%nat (world_with bb_aa_cc) =
         (Ret (0%nat, @toChecksumAddress fixed_collaborators <$> ys), w') /\
       heap w' = <[0%nat := ys]> (heap (world_with bb_aa_cc))).
Proof.
  apply (@sorting_reorders_the_callers_list fixed_collaborators 0%nat bb_aa_cc
           (world_with bb_aa_cc)).
  reflexivity.
Defined.

(** The claim as the specification words it fails: the caller's list is
    not what it was. *)
Lemma sorting_mutates_the_callers_list :
  ~ (forall (tokens : loc) (xs : list string) (w : world),
       heap w !! tokens = Some xs ->
       heap (balReorderTokenDicts tokens w).2 !! tokens = Some xs /\
       heap (@balSortTokens fixed_collaborators tokens w).2 !! tokens = Some xs).
Proof.
  intros Hclaim.
  destruct (Hclaim 0%nat bb_aa_cc (world_with bb_aa_cc) eq_refl) as [Hr _].
  vm_compute in Hr. discriminate Hr.
Qed.

(** ** The flash-swap predicate *)

Section FlashSwap.
Context `{!Collaborators}.

Lemma balSwapIsFlashSwap_run (sd : swap_description) (w : world) :
  balSwapIsFlashSwap sd w = (flash_scan parse_float (sd_limits sd), w).
Proof.
  unfold balSwapIsFlashSwap. generalize (sd_limits sd) as limits.
  induction limits as [|a limits IH]; [done|].
  simpl. unfold bind at 1 2 3. unfold lift at 1.
  destruct (py_float parse_float a) as [f|e]; [|done].
  destruct (f =? 0)%float; simpl; [|done]. apply IH.
Qed.

Lemma flash_scan_true (limits : list pyval) :
  flash_scan parse_float limits = Ret true <-> Forall (reads_zero parse_float) limits.
Proof.
  induction limits as [|a limits IH]; simpl; [by split; [constructor|]|].
  rewrite Forall_cons, <-IH. unfold reads_zero.
  destruct (py_float parse_float a) as [f|e].
  - destruct (f =? 0)%float eqn:Hf.
    + split; [by eauto|]. by intros [_ ?].
    + split; [done|]. intros [(f' & [= <-] & ?) _]. congruence.
  - split; [done|]. by intros [(f' & ? & _) _].
Qed.

Lemma flash_scan_false (zeros : list pyval) (amount : pyval) (rest : list pyval) :
  Forall (reads_zero parse_float) zeros -> reads_nonzero parse_float amount ->
  flash_scan parse_float (zeros ++ amount :: rest) = Ret false.
Proof.
  intros Hz (f & Hf & Hne). induction Hz as [|z zeros (f0 & Hf0 & Hz0) _ IH]; simpl.
  - by rewrite Hf, Hne.
  - by rewrite Hf0, Hz0.
Qed.

(** C10 (balSwapIsFlashSwap): the predicate answers [True] exactly when
    every entry of the limits reads, through [float], as a number equal to
    [0.0]; so it answers [True] on empty limits; and it answers [False] at
    the first entry that reads as a non-zero number, whatever follows it.
    It changes nothing. *)
Theorem balSwapIsFlashSwap_all_limits_zero (sd : swap_description) (w : world) :
  (balSwapIsFlashSwap sd w = (Ret true, w) <->
     Forall (reads_zero parse_float) (sd_limits sd)) /\
  (sd_limits sd = [] -> balSwapIsFlashSwap sd w = (Ret true, w)) /\
  (forall zeros amount rest,
     sd_limits sd = zeros ++ amount :: rest ->
     Forall (reads_zero parse_float) zeros -> reads_nonzero parse_float amount ->
     balSwapIsFlashSwap sd w = (Ret false, w)).
Proof.
  rewrite balSwapIsFlashSwap_run. split; [|split].
  - rewrite <-flash_scan_true. split; [by intros [= ->]|by intros ->].
  - by intros ->.
  - intros zeros amount rest -> Hz Hnz. by rewrite flash_scan_false.
Qed.
End FlashSwap.

Lemma balSwapIsFlashSwap_all_limits_zero_witness :
  @balSwapIsFlashSwap fixed_collaborators (with_limits []) empty_world =
    (Ret true, empty_world) /\
  @balSwapIsFlashSwap fixed_collaborators
      (with_limits [VNum (PInt 0); VNum (PFloat (-0.0)); VNum (PFloat 0.5); VStr "x"])
      empty_world = (Ret false, empty_world).
Proof.
  split.
  - apply (proj1 (proj2 (@balSwapIsFlashSwap_all_limits_zero fixed_collaborators
             (with_limits []) empty_world))).
    reflexivity.
  - apply (proj2 (proj2 (@balSwapIsFlashSwap_all_limits_zero fixed_collaborators
             (with_limits [VNum (PInt 0); VNum (PFloat (-0.0)); VNum (PFloat 0.5); VStr "x"])
             empty_world))
             [VNum (PInt 0); VNum (PFloat (-0.0))] (VNum (PFloat 0.5)) [VStr "x"]).
    + reflexivity.
    + repeat constructor; eexists; (split; [vm_compute; reflexivity|vm_compute; reflexivity]).
    + eexists; (split; [vm_compute; reflexivity|vm_compute; reflexivity]).
Defined.

(** ** The sleep of the rate limiter

    Subtraction and multiplication of doubles, as the specification of the
    primitive floats has them, keep the sign of the exact result; so the
    length [(1/5 - dt) * 1.1] that the rate limiter sleeps when [dt < 1/5]
    is accepted by [time.sleep]. *)

Lemma shr_1_nonneg mrs : 0 <= shr_m mrs -> 0 <= shr_m (shr_1 mrs).
Proof. destruct mrs as [m r s]. simpl. destruct m as [|[p|p|]|[p|p|]]; simpl; lia. Qed.

Lemma iter_pos_shr_1_nonneg p mrs :
  0 <= shr_m mrs -> 0 <= shr_m (SpecFloat.iter_pos shr_1 p mrs).
Proof. revert mrs. induction p; intros mrs H; simpl; auto using shr_1_nonneg. Qed.

Lemma shr_fexp_nonneg m e l :
  0 <= m -> 0 <= shr_m (fst (shr_fexp prec emax m e l)).
Proof.
  intros Hm. unfold shr_fexp, shr.
  assert (0 <= shr_m (shr_record_of_loc m l)) by (destruct l as [|[]]; exact Hm).
  destruct (fexp prec emax (Zdigits2 m + e) - e); simpl; auto using iter_pos_shr_1_nonneg.
Qed.

Lemma round_nearest_even_nonneg m l : 0 <= m -> 0 <= round_nearest_even m l.
Proof.
  intros Hm. unfold round_nearest_even. destruct l as [|[]]; try lia.
  destruct (Z.even m); lia.
Qed.

Lemma binary_round_aux_signed sx mx ex lx :
  0 <= mx -> sf_signed (binary_round_aux prec emax sx mx ex lx) sx.
Proof.
  intros Hm. unfold binary_round_aux.
  pose proof (shr_fexp_nonneg mx ex lx Hm) as H1.
  destruct (shr_fexp prec emax mx ex lx) as [mrs' e']. simpl in H1.
  pose proof (shr_fexp_nonneg _ e' loc_Exact
                (round_nearest_even_nonneg _ (loc_of_shr_record mrs') H1)) as H2.
  destruct (shr_fexp prec emax _ e' loc_Exact) as [mrs'' e'']. simpl in H2.
  destruct (shr_m mrs''); [reflexivity| |lia].
  destruct (_ <=? _); reflexivity.
Qed.

Lemma binary_round_signed sx mx ex :
  sf_signed (binary_round prec emax sx mx ex) sx.
Proof.
  unfold binary_round. destruct (shl_align mx ex _) as [mz ez].
  apply binary_round_aux_signed. lia.
Qed.

Lemma binary_normalize_nonneg m e : 0 <= m -> sf_nonneg (binary_normalize prec emax m e false) = true.
Proof.
  intros Hm. unfold binary_normalize. destruct m as [|p|p]; [reflexivity| |lia].
  pose proof (binary_round_signed false p e) as H.
  destruct (binary_round prec emax false p e); simpl in *; subst; try reflexivity; contradiction.
Qed.

Lemma digits2_pos_bound m : Z.pos m < 2 ^ Z.pos (digits2_pos m).
Proof.
  induction m as [m IH|m IH|]; simpl digits2_pos.
  - rewrite Pos2Z.inj_succ, Z.pow_succ_r by lia. lia.
  - rewrite Pos2Z.inj_succ, Z.pow_succ_r by lia. lia.
  - reflexivity.
Qed.

Lemma valid_mantissa_bound s m e :
  valid_binary (S754_finite s m e) = true -> Z.pos m < 2 ^ 53.
Proof.
  unfold SpecFloat.valid_binary, bounded, canonical_mantissa, fexp.
  intros [H _]%andb_prop. apply Z.eqb_eq in H.
  assert (Z.pos (digits2_pos m) <= 53) as Hd by (unfold prec in H; lia).
  eapply Z.lt_le_trans; [apply digits2_pos_bound|].
  apply Z.pow_le_mono_r; lia.
Qed.

Lemma shl_align_value mx ex ez :
  ez <= ex -> Z.pos (fst (shl_align mx ex ez)) = Z.pos mx * 2 ^ (ex - ez).
Proof.
  intros Hle. unfold shl_align.
  destruct (ez - ex) as [|d|d] eqn:Hd; cbn [fst].
  - replace (ex - ez) with 0 by lia. rewrite Z.pow_0_r. lia.
  - lia.
  - fold (shift_pos d mx). rewrite shift_pos_correct.
    replace (ex - ez) with (Z.pos d) by lia.
    change (Z.pow_pos 2 d) with (2 ^ Z.pos d). lia.
Qed.

Lemma SFsub_nonneg (cm : positive) (ce : Z) (x : spec_float) :
  2 ^ 52 <= Z.pos cm ->
  valid_binary x = true ->
  SFltb x (S754_finite false cm ce) = true ->
  sf_nonneg (SFsub prec emax (S754_finite false cm ce) x) = true.
Proof.
  intros Hcm Hv Hlt. destruct x as [s|s| |s m e].
  - reflexivity.
  - destruct s; [reflexivity|discriminate Hlt].
  - discriminate Hlt.
  - cbn [SFsub]. apply binary_normalize_nonneg.
    assert (Z.pos m < 2 ^ 53) as Hm by (eapply valid_mantissa_bound; eassumption).
    rewrite !shl_align_value by lia.
    unfold SFltb, SFcompare in Hlt.
    change IntDef.Z.sub with Z.sub. change IntDef.Z.min with Z.min.
    destruct s; cbn [cond_Zopp].
    { assert (0 < Z.pos m * 2 ^ (e - Z.min ce e))
        by (apply Z.mul_pos_pos; [lia|apply Z.pow_pos_nonneg; lia]).
      assert (0 < Z.pos cm * 2 ^ (ce - Z.min ce e))
        by (apply Z.mul_pos_pos; [lia|apply Z.pow_pos_nonneg; lia]).
      lia. }
    destruct (Z.compare_spec e ce) as [->|He|He]; [| |discriminate Hlt].
    + change (PosDef.Pos.compare_cont Eq m cm) with (Pos.compare m cm) in Hlt.
      destruct (Pos.compare m cm) eqn:Hc; try discriminate Hlt.
      assert (Z.pos m < Z.pos cm) by exact Hc.
      rewrite Z.min_id, Z.sub_diag, Z.pow_0_r. lia.
    + rewrite Z.min_r, Z.sub_diag, Z.pow_0_r by lia.
      assert (2 ^ 1 <= 2 ^ (ce - e)) by (apply Z.pow_le_mono_r; lia).
      change (2 ^ 1) with 2 in *. change (2 ^ 53) with (2 * 2 ^ 52) in Hm.
      nia.
Qed.

Lemma SFmul_nonneg (km : positive) (ke : Z) (x : spec_float) :
  sf_nonneg x = true ->
  sf_nonneg (SFmul prec emax x (S754_finite false km ke)) = true.
Proof.
  destruct x as [s|s| |s m e]; cbn [SFmul sf_nonneg]; try done.
  - by destruct s.
  - intros ->%negb_true_iff. cbn [xorb].
    pose proof (binary_round_aux_signed false (Z.pos (m * km)) (e + ke) loc_Exact
                  ltac:(lia)) as H.
    destruct (binary_round_aux _ _ _ _ _ _); simpl in *; subst; done.
Qed.

Lemma num_ge_zero (f : float) : num_ge (PFloat f) (PInt 0) = sf_nonneg (Prim2SF f).
Proof.
  unfold num_ge, num_cmp, cmp_Z_sf.
  destruct (Prim2SF f) as [s|s| |s m e]; simpl; try done.
  - by destruct s.
  - destruct (Z.leb_spec 0 e) as [He|He]; [|by destruct s].
    assert (0 < 2 ^ e) by (apply Z.pow_pos_nonneg; lia).
    destruct s; simpl.
    + destruct (Z.neg m * 2 ^ e) eqn:Hp; [nia|nia|done].
    + destruct (Z.pos m * 2 ^ e) eqn:Hp; [nia|done|nia].
Qed.

Lemma rate_limit_sleep_accepted (dt : float) :
  (dt <? 1.0 / etherscanMaxRate)%float = true ->
  sleep_accepts (PFloat ((1.0 / etherscanMaxRate - dt) * 1.1)%float) = true.
Proof.
  unfold sleep_accepts, etherscanMaxRate. rewrite num_ge_zero.
  rewrite ltb_spec, mul_spec, sub_spec.
  replace (Prim2SF (1.0 / 5.0)%float) with (S754_finite false 7205759403792794 (-55))
    by (vm_compute; reflexivity).
  replace (Prim2SF 1.1%float) with (S754_finite false 4953959590107546 (-52))
    by (vm_compute; reflexivity).
  intros Hlt. apply SFmul_nonneg, SFsub_nonneg; [|apply Prim2SF_valid|done].
  vm_compute. discriminate.
Qed.

(** ** GasOracleClient *)

Section GasOracle.
Context `{!Collaborators}.

(** C9 (getGasPriceEtherscanGwei): for a speed that is none of ["slow"],
    ["average"], ["fast"] the quote reports the error and answers [False]
    instead of a price; the oracle is not called and the time of the last
    call stays what it was. *)
Theorem getGasPriceEtherscanGwei_unknown_speed (speed : string) (w : world) :
  speed <> "slow" -> speed <> "average" -> speed <> "fast" ->
  exists w' evs,
    getGasPriceEtherscanGwei speed w = (Ret PyFalse, w') /\
    lastEtherscanCallTime w' = lastEtherscanCallTime w /\
    trace w' = evs ++ trace w /\
    (EvEtherscanGet ∉ evs) /\
    (EvError ("Speed entered is: " +:+ speed) ∈ evs).
Proof.
  intros H1 H2 H3.
  assert (etherscanSpeedDict !! speed = None) as Hd.
  { unfold etherscanSpeedDict.
    rewrite !lookup_insert_ne by done. by rewrite lookup_singleton_ne. }
  unfold getGasPriceEtherscanGwei. rewrite Hd.
  unfold bind, time_time, ask, get_world, ret. simpl.
  destruct (_ <? _)%float eqn:Hdt; simpl.
  - unfold time_sleep. rewrite rate_limit_sleep_accepted by done.
    unfold emit. simpl.
    eexists _, [_; _; _]. split; [done|]. split; [done|]. split; [done|].
    split; [|set_solver].
    rewrite !not_elem_of_cons. split_and!; try done. apply not_elem_of_nil.
  - eexists _, [_; _]. split; [done|]. split; [done|]. split; [done|].
    split; [|set_solver].
    rewrite !not_elem_of_cons. split_and!; try done. apply not_elem_of_nil.
Qed.
End GasOracle.

Lemma getGasPriceEtherscanGwei_unknown_speed_witness :
  exists w' evs,
    @getGasPriceEtherscanGwei fixed_collaborators "turbo" empty_world =
      (Ret PyFalse, w') /\
    lastEtherscanCallTime w' = lastEtherscanCallTime empty_world /\
    trace w' = evs ++ trace empty_world /\
    (EvEtherscanGet ∉ evs) /\
    (EvError ("Speed entered is: " +:+ "turbo") ∈ evs).
Proof.
  apply (@getGasPriceEtherscanGwei_unknown_speed fixed_collaborators "turbo"
           empty_world); discriminate.
Defined.

(** ** Receipt polling *)

Section Receipt.
Context `{!Collaborators}.
Variables (txHash : string) (delay : num).

Lemma failed_lookups_snoc (n : nat) (tr : list event) :
  failed_lookups n txHash delay ++
    EvSleep delay :: EvGetTransactionReceipt txHash :: tr =
  failed_lookups (S n) txHash delay ++ tr.
Proof. induction n as [|n IH]; simpl; [done|]. by rewrite IH. Qed.

(** Every attempt that fails, with whatever exception, is followed by the
    same sleep and the next attempt. *)
Lemma time_sleep_run (w : world) :
  sleep_accepts delay = true ->
  time_sleep delay w = (Ret tt, set_trace (EvSleep delay :: trace w) w).
Proof. intros Hd. unfold time_sleep. by rewrite Hd. Qed.

Lemma getTxReceipt_loop_never_found (xs : list nat) (w : world) :
  sleep_accepts delay = true ->
  (forall tr, exists e, transaction_receipt tr txHash = Raise e) ->
  for_each xs tt (fun (i : nat) (_ : unit) =>
      try_except
        (let! receipt :=
           ask (EvGetTransactionReceipt txHash)
               (fun tr => transaction_receipt tr txHash) in
         ret (inl receipt))
        (fun e => time_sleep delay ;;! ret (inr tt))) w =
    (Ret (inr tt) : result (receipt + unit),
     set_trace (failed_lookups (length xs) txHash delay ++ trace w) w).
Proof.
  intros Hd Hnf. revert w. induction xs as [|x xs IH]; intros w; simpl.
  - by destruct w.
  - unfold bind at 1. unfold try_except at 1. unfold bind at 1. unfold ask at 1.
    destruct (Hnf (trace w)) as [e ->]. simpl.
    unfold bind at 1. rewrite time_sleep_run by done. unfold ret at 1.
    rewrite IH. simpl. by rewrite failed_lookups_snoc.
Qed.

(** When no lookup ever succeeds, [maxRetries] attempts are made, each
    followed by a sleep of [delay], and the method then raises [TypeError]
    from its call of [ERROR] with three arguments. *)
Lemma getTxReceipt_exhausted_raises (maxRetries : Z) (w : world) :
  sleep_accepts delay = true ->
  (forall tr, exists e, transaction_receipt tr txHash = Raise e) ->
  getTxReceipt txHash delay maxRetries w =
    (Raise TypeError,
     set_trace (failed_lookups (Z.to_nat maxRetries) txHash delay ++ trace w) w).
Proof.
  intros Hd Hnf. unfold getTxReceipt.
  erewrite bind_run by by apply getTxReceipt_loop_never_found.
  unfold range. by rewrite length_seq.
Qed.

(** A lookup that succeeds ends the polling with the receipt. *)
Lemma getTxReceipt_found_at_once (maxRetries : Z) (w : world) (r : receipt) :
  0 < maxRetries -> transaction_receipt (trace w) txHash = Ret r ->
  getTxReceipt txHash delay maxRetries w =
    (Ret (Val r), set_trace (EvGetTransactionReceipt txHash :: trace w) w).
Proof.
  intros Hpos Hr. unfold getTxReceipt.
  destruct (Z.to_nat maxRetries) as [|n] eqn:Hn; [lia|].
  unfold range. simpl. unfold bind, try_except, ask. by rewrite Hr.
Qed.
End Receipt.

(** C5 (getTxReceipt), at [delay = 2], [maxRetries = 5] (the values of
    [balGetPoolIdFromHash]) and a hash that never confirms: after the five
    attempts and sleeps the method raises [TypeError]; it does not return
    its [False]. *)
Theorem getTxReceipt_timeout_raises_TypeError :
  @getTxReceipt fixed_collaborators "0xhash" (PInt 2) 5 empty_world =
    (Raise TypeError,
     set_trace (failed_lookups 5 "0xhash" (PInt 2)) empty_world).
Proof.
  rewrite (@getTxReceipt_exhausted_raises fixed_collaborators).
  - reflexivity.
  - reflexivity.
  - intros tr. by exists KeyError.
Qed.

(** ** Pool creation *)

(** The weights of the specification's examples, on the weighted factory. *)
Example weighted_pool_accepts_half_half :
  exists fn w',
    @balCreateFnWeightedPoolFactory fixed_collaborators
      (pool_of [("0xBB", PFloat 0.5); ("0xAA", PFloat 0.5)]) empty_world =
    (Ret (Val fn), w').
Proof. eexists _, _. vm_compute. reflexivity. Qed.

Example weighted_pool_rejects_half_049 :
  exists w',
    @balCreateFnWeightedPoolFactory fixed_collaborators
      (pool_of [("0xBB", PFloat 0.5); ("0xAA", PFloat 0.49)]) empty_world =
    (Ret PyFalse, w') /\
    exists text, trace w' = [EvError text].
Proof. eexists. split; [vm_compute; reflexivity|]. eexists. reflexivity. Qed.

Example two_tokens_pool_accepts_half_half :
  exists fn w',
    @balCreateFnWeightedPool2TokensFactory fixed_collaborators
      (pool_of [("0xBB", PFloat 0.5); ("0xAA", PFloat 0.5)]) empty_world =
    (Ret (Val fn), w').
Proof. eexists _, _. vm_compute. reflexivity. Qed.

Example two_tokens_pool_rejects_half_049 :
  exists w',
    @balCreateFnWeightedPool2TokensFactory fixed_collaborators
      (pool_of [("0xBB", PFloat 0.5); ("0xAA", PFloat 0.49)]) empty_world =
    (Ret PyFalse, w').
Proof. eexists. vm_compute. reflexivity. Qed.

(** Ten weights of [0.1] add up to [0.9999999999999999] on doubles. *)
Example weighted_pool_rejects_ten_tenths :
  exists w',
    @balWeightsEqualOne fixed_collaborators
      (pool_of ((fun i => (pretty i, PFloat 0.1)) <$> seq 0 10)) empty_world =
    (Ret false, w').
Proof. eexists. vm_compute. reflexivity. Qed.

Section PoolCreation.
Context `{!Collaborators}.

Lemma list_new_run (xs : list string) (w : world) :
  let l := fresh (dom (heap w)) in
  list_new xs w = (Ret l, set_heap (<[l := xs]> (heap w)) w).
Proof. done. Qed.

(** With a number of tokens other than two, the two-token factory reaches
    its call of [ERROR] with three arguments, which raises. *)
Lemma balCreateFnWeightedPool2TokensFactory_wrong_count (poolData : pool_data)
    (w : world) :
  length (pd_tokens poolData) <> 2%nat ->
  exists w',
    balCreateFnWeightedPool2TokensFactory poolData w = (Raise TypeError, w') /\
    trace w' = trace w.
Proof.
  intros Hn. unfold balCreateFnWeightedPool2TokensFactory.
  erewrite bind_run by apply list_new_run.
  erewrite bind_run; last first.
  { apply balSortTokens_run. apply lookup_insert_eq. }
  simpl. erewrite bind_run; last first.
  { apply list_len_run. simpl. rewrite insert_insert_eq. apply lookup_insert_eq. }
  rewrite (Permutation_length (merge_sort_Permutation _ _)), length_fmap.
  destruct (Nat.eqb_spec (length (pd_tokens poolData)) 2) as [|_]; [done|].
  simpl. eexists. split; [reflexivity|done].
Qed.
End PoolCreation.

Section Weights.
Context `{!Collaborators}.

Lemma weight_loop_run (poolData : pool_data) (tokens : list string) (acc : num)
    (w : world) :
  for_in tokens acc (fun token weightSum =>
      let! weight := token_weight poolData token in
      lift (num_add weightSum weight)) w =
    (weight_sum poolData tokens acc, w).
Proof.
  revert acc. induction tokens as [|t ts IH]; intros acc; simpl; [done|].
  unfold bind at 1. unfold bind at 1. unfold token_weight at 1.
  destruct (list_find _ _) as [[i kv]|]; [|done].
  unfold ret at 1, lift at 1.
  destruct (num_add acc (td_weight kv.2)) as [acc'|e]; [apply IH|done].
Qed.

(** [balWeightsEqualOne] answers [True] exactly when the sum, as doubles
    add, compares equal to [1.0]; it reports the error otherwise. *)
Lemma balWeightsEqualOne_run (poolData : pool_data) (w : world) (sum : num) :
  weight_sum poolData (pd_tokens poolData).*1 (PFloat 0) = Ret sum ->
  balWeightsEqualOne poolData w =
    (Ret (num_eq sum (PFloat 1)),
     if num_eq sum (PFloat 1) then w
     else set_trace
            (EvError ("Token weights add up to " +:+ num_str sum +:+
                      ", but they must add up to 1.0") :: trace w) w).
Proof.
  intros Hsum. unfold balWeightsEqualOne.
  erewrite bind_run; last by rewrite weight_loop_run, Hsum.
  by destruct (num_eq sum (PFloat 1)).
Qed.
End Weights.

(** C8, the two-token factory on three tokens: the method raises
    [TypeError] where the claim has it report the error and return its
    [False]. *)
Theorem balCreateFnWeightedPool2TokensFactory_three_tokens_raises :
  exists w',
    @balCreateFnWeightedPool2TokensFactory fixed_collaborators
      (pool_of [("0xBB", PFloat 0.5); ("0xAA", PFloat 0.25); ("0xCC", PFloat 0.25)])
      empty_world =
    (Raise TypeError, w') /\
    trace w' = [].
Proof. eexists. split; [vm_compute; reflexivity|reflexivity]. Qed.

(** ** Reads leave the submissions alone *)

Section Reads.
Context `{!Collaborators}.
Variable allow : event -> bool.
Hypothesis allow_reads : forall e, is_read e = true -> allow e = true.

Lemma reads_refl (w : world) : reads allow w w.
Proof. split; [done|]. split; [done|]. by exists []. Qed.

Lemma reads_other_fields (w : world) (c : gset string) (t : float) :
  reads allow w (set_erc20Contracts c w) /\
  reads allow w (set_lastEtherscanCallTime t w).
Proof. split; (split; [done|]; split; [done|]; by exists []). Qed.

Lemma reads_trans (w1 w2 w3 : world) :
  reads allow w1 w2 -> reads allow w2 w3 -> reads allow w1 w3.
Proof.
  intros (Hh1 & Hd1 & evs1 & Ht1 & He1) (Hh2 & Hd2 & evs2 & Ht2 & He2).
  split; [congruence|]. split; [by etrans|].
  exists (evs2 ++ evs1). split; [by rewrite Ht2, Ht1, (assoc_L (++))|].
  by apply Forall_app.
Qed.

Lemma reads_event (e : event) (w : world) :
  allow e = true -> reads allow w (set_trace (e :: trace w) w).
Proof.
  intros He. split; [done|]. split; [done|]. exists [e]. split; [done|].
  by constructor.
Qed.

Lemma quiet_ret {A} (a : A) : quiet allow (ret a).
Proof. intros w. apply reads_refl. Qed.

Lemma quiet_raise {A} (e : exn) : quiet allow (@raise A e).
Proof. intros w. apply reads_refl. Qed.

Lemma quiet_lift {A} (r : result A) : quiet allow (lift r).
Proof. intros w. apply reads_refl. Qed.

Lemma quiet_get_world : quiet allow get_world.
Proof. intros w. apply reads_refl. Qed.

Lemma quiet_bind {A B} (m : Py A) (k : A -> Py B) :
  quiet allow m -> (forall a, quiet allow (k a)) -> quiet allow (bind m k).
Proof.
  intros Hm Hk w. unfold bind. specialize (Hm w).
  destruct (m w) as [[a|e] w1]; simpl in *; [|done].
  eapply reads_trans; [done|]. apply Hk.
Qed.

Lemma quiet_emit (e : event) : allow e = true -> quiet allow (emit e).
Proof. intros He w. by apply reads_event. Qed.

Lemma quiet_ask {A} (e : event) (answer : list event -> result A) :
  allow e = true -> quiet allow (ask e answer).
Proof. intros He w. by apply reads_event. Qed.

Lemma quiet_ERROR (args : list string) : quiet allow (ERROR args).
Proof.
  destruct args as [|text [|]]; try apply quiet_raise. by apply quiet_emit, allow_reads.
Qed.

Lemma quiet_time_sleep (seconds : num) : quiet allow (time_sleep seconds).
Proof.
  unfold time_sleep.
  destruct (sleep_accepts seconds); [by apply quiet_emit, allow_reads|].
  apply quiet_raise.
Qed.

Lemma quiet_build_call (fn : contract_fn) : quiet allow (build_call fn).
Proof.
  unfold build_call. destruct (fits_abi fn); [apply quiet_ret|apply quiet_raise].
Qed.

Lemma quiet_getGasPriceEtherscanGwei (speed : string) :
  quiet allow (getGasPriceEtherscanGwei speed).
Proof.
  unfold getGasPriceEtherscanGwei.
  apply quiet_bind; [by apply quiet_ask, allow_reads|]. intros now.
  apply quiet_bind; [apply quiet_get_world|]. intros w0.
  apply quiet_bind.
  { destruct (_ <? _)%float; [apply quiet_time_sleep|apply quiet_ret]. }
  intros _. destruct (etherscanSpeedDict !! speed).
  - apply quiet_bind; [by apply quiet_ask, allow_reads|]. intros r.
    apply quiet_bind; [by apply quiet_ask, allow_reads|]. intros now'.
    apply quiet_bind; last first.
    { intros _. apply quiet_bind; [apply quiet_lift|]. intros; apply quiet_ret. }
    intros w. apply (proj2 (reads_other_fields w ∅ now')).
  - apply quiet_bind; [by apply quiet_emit, allow_reads|]. intros _. apply quiet_ret.
Qed.

Lemma quiet_erc20GetContract (t : string) : quiet allow (erc20GetContract t).
Proof.
  unfold erc20GetContract. apply quiet_bind; [apply quiet_get_world|]. intros w0.
  case_decide; [apply quiet_ret|].
  apply quiet_bind; [|intros; apply quiet_ret]. intros w.
  apply (proj1 (reads_other_fields w _ 0%float)).
Qed.

Lemma quiet_erc20_call (t : string) (q : erc20_query) : quiet allow (erc20_call t q).
Proof. by apply quiet_ask, allow_reads. Qed.

Lemma erc20GetContract_returns (t : string) (w : world) :
  exists w', erc20GetContract t w = (Ret t, w') /\ decimals w' = decimals w.
Proof.
  unfold erc20GetContract, bind, get_world. case_decide; by eexists.
Qed.

(** [erc20GetDecimals] always answers, and what it answers is in the cache
    afterwards. *)
Lemma erc20GetDecimals_run (t : string) (w : world) :
  exists d w',
    erc20GetDecimals t w = (Ret d, w') /\ reads allow w w' /\
    decimals w' !! t = Some d.
Proof.
  unfold erc20GetDecimals, bind at 1, get_world.
  destruct (decimals w !! t) as [d|] eqn:Hd.
  - exists d, w. split; [done|]. split; [apply reads_refl|done].
  - pose proof (quiet_erc20GetContract t w) as Hq.
    destruct (erc20GetContract_returns t w) as (w1 & Hc & Hd1).
    rewrite Hc in Hq. simpl in Hq.
    erewrite bind_run by done.
    unfold bind, erc20_call, ask, ret. simpl.
    eexists _, _. split; [done|]. split; [|apply lookup_insert_eq].
    eapply reads_trans; [done|].
    split; [done|]. split.
    + simpl. apply insert_subseteq. by rewrite Hd1.
    + exists [EvErc20Call t QDecimals]. split; [done|]. constructor; [|done].
      by apply allow_reads.
Qed.

Lemma erc20GetDecimals_cached (t : string) (d : Z) (w : world) :
  decimals w !! t = Some d -> erc20GetDecimals t w = (Ret d, w).
Proof. intros Hd. unfold erc20GetDecimals, bind, get_world. by rewrite Hd. Qed.

Lemma quiet_erc20GetDecimals (t : string) : quiet allow (erc20GetDecimals t).
Proof.
  intros w. destruct (erc20GetDecimals_run t w) as (d & w' & -> & Hr & _). done.
Qed.
End Reads.

Lemma reads_weaken (allow allow' : event -> bool) (w w' : world) :
  (forall e, allow e = true -> allow' e = true) ->
  reads allow w w' -> reads allow' w w'.
Proof.
  intros Ha (Hh & Hd & evs & Ht & He). split; [done|]. split; [done|].
  exists evs. split; [done|]. eapply Forall_impl; [done|]. apply Ha.
Qed.

Lemma omap_allowed {B} (allow : event -> bool) (f : event -> option B)
    (evs : list event) :
  (forall e, allow e = true -> f e = None) ->
  Forall (fun e => allow e = true) evs -> omap f evs = [].
Proof.
  intros Hf. induction 1 as [|e evs He _ IH]; csimpl; [done|].
  by rewrite (Hf e He), IH.
Qed.

Lemma reads_no_submit (w w' : world) :
  reads no_submit w w' ->
  sent (trace w') = sent (trace w) /\ waited (trace w') = waited (trace w).
Proof.
  intros (_ & _ & evs & -> & He). unfold sent, waited.
  rewrite !omap_app, !(omap_allowed no_submit _ evs) by (done || by intros []).
  done.
Qed.

Lemma reads_is_read (w w' : world) :
  reads is_read w w' ->
  sent (trace w') = sent (trace w) /\ waited (trace w') = waited (trace w) /\
  nonce_fetches (trace w') = nonce_fetches (trace w).
Proof.
  intros Hr. split_and!.
  - apply reads_no_submit. eapply reads_weaken; [|done]. by intros [].
  - apply reads_no_submit. eapply reads_weaken; [|done]. by intros [].
  - destruct Hr as (_ & _ & evs & -> & He). unfold nonce_fetches.
    by rewrite omap_app, (omap_allowed is_read _ evs) by (done || by intros []).
Qed.

Lemma bind_Ret_inv {A B} (m : Py A) (k : A -> Py B) (b : B) (w w' : world) :
  bind m k w = (Ret b, w') ->
  exists a w1, m w = (Ret a, w1) /\ k a w1 = (Ret b, w').
Proof.
  unfold bind. destruct (m w) as [[a|e] w1]; [|done]. intros Hk. by exists a, w1.
Qed.

Section Allowance.
Context `{!Collaborators}.
Variable allow : event -> bool.
Hypothesis allow_reads : forall e, is_read e = true -> allow e = true.

Lemma erc20GetAllowanceStandard_run (t a : string) (w : world) :
  exists d raw w',
    erc20GetAllowanceStandard t a w =
      (num_mul (PInt raw) (py_pow10 (- d)), w') /\
    reads allow w w' /\ decimals w' !! t = Some d.
Proof.
  unfold erc20GetAllowanceStandard.
  pose proof (quiet_erc20GetContract allow t w) as Hq.
  destruct (erc20GetContract_returns t w) as (w1 & Hc & _).
  rewrite Hc in Hq. erewrite bind_run by done.
  destruct (erc20GetDecimals_run allow allow_reads t w1) as (d & w2 & Hd & Hr & Hl).
  erewrite bind_run by done.
  unfold bind, erc20_call, ask, lift. simpl.
  eexists d, _, _. split; [done|]. split; [|done].
  eapply reads_trans; [done|]. eapply reads_trans; [done|].
  by apply reads_event, allow_reads.
Qed.

Lemma erc20GetBalanceStandard_run (t : string) (w : world) :
  exists d raw w',
    erc20GetBalanceStandard t w = (num_mul (PInt raw) (py_pow10 (- d)), w') /\
    reads allow w w' /\ decimals w' !! t = Some d.
Proof.
  unfold erc20GetBalanceStandard.
  pose proof (quiet_erc20GetContract allow t w) as Hq.
  destruct (erc20GetContract_returns t w) as (w1 & Hc & _).
  rewrite Hc in Hq. erewrite bind_run by done.
  destruct (erc20GetDecimals_run allow allow_reads t w1) as (d & w2 & Hd & Hr & Hl).
  erewrite bind_run by done.
  unfold bind, erc20_call, ask, lift. simpl.
  eexists d, _, _. split; [done|]. split; [|done].
  eapply reads_trans; [done|]. eapply reads_trans; [done|].
  by apply reads_event, allow_reads.
Qed.

(** The check only reads, and leaves the token's decimals in the cache. *)
Lemma erc20HasSufficientAllowance_run (t a : string) (amount : num)
    (w : world) (r : result bool) (w' : world) :
  erc20HasSufficientAllowance t a amount w = (r, w') ->
  reads allow w w' /\ is_Some (decimals w' !! t).
Proof.
  unfold erc20HasSufficientAllowance.
  destruct (erc20GetAllowanceStandard_run t a w) as (d & raw & w1 & Ha & Hr1 & Hd1).
  unfold bind at 1. rewrite Ha.
  destruct (num_mul _ _) as [cur|e]; [|intros [= <- <-]; eauto].
  destruct (erc20GetBalanceStandard_run t w1) as (d2 & raw2 & w2 & Hb & Hr2 & Hd2).
  unfold bind at 1. rewrite Hb.
  destruct (num_mul _ _) as [bal|e]; intros [= <- <-];
    (split; [by eapply reads_trans|eauto]).
Qed.
End Allowance.

Lemma lift_Ret {A} (r : result A) (a : A) (w w' : world) :
  lift r w = (Ret a, w') -> r = Ret a /\ w' = w.
Proof. unfold lift. by intros [= -> ->]. Qed.

Lemma build_call_Ret `{!Collaborators} (fn fn' : contract_fn) (w w' : world) :
  build_call fn w = (Ret fn', w') -> fn' = fn /\ w' = w /\ fits_abi fn = true.
Proof. unfold build_call. destruct (fits_abi fn); [|done]. by intros [= <- <-]. Qed.

(** ** Building and sending the approval *)

Lemma bind_inv {A B} (m : Py A) (k : A -> Py B) (r : result B) (w w' : world) :
  bind m k w = (r, w') ->
  (exists a w1, m w = (Ret a, w1) /\ k a w1 = (r, w')) \/
  (exists e, m w = (Raise e, w') /\ r = Raise e).
Proof.
  unfold bind. destruct (m w) as [[a|e] w1].
  - intros Hk. left. by exists a, w1.
  - intros [= <- <-]. right. by exists e.
Qed.

Section Approval.
Context `{!Collaborators}.
Variable allow : event -> bool.
Hypothesis allow_reads : forall e, is_read e = true -> allow e = true.

(** Building a transaction only reads, apart from the fetch of the nonce
    when none is handed in. *)
Lemma quiet_buildTx (fn : contract_fn) (gasFactor : num) (gasSpeed : string)
    (nonce gasEstimate : Z) (gasPrice : num) :
  -1 < nonce \/ allow EvGetTransactionCount = true ->
  quiet allow (buildTx fn gasFactor gasSpeed nonce gasEstimate gasPrice).
Proof.
  intros Hn. unfold buildTx. apply quiet_bind.
  { destruct (Z.ltb_spec (-1) nonce); [apply quiet_ret|].
    apply quiet_ask. destruct Hn; [lia|done]. }
  intros n. apply quiet_bind.
  { destruct (-1 <? gasEstimate); [apply quiet_ret|].
    apply quiet_bind; [by apply quiet_ask, allow_reads|]. intros g.
    apply quiet_bind; [apply quiet_lift|]. intros sc. apply quiet_lift. }
  intros g. apply quiet_bind.
  { destruct (num_gt _ _); [apply quiet_ret|by apply quiet_getGasPriceEtherscanGwei]. }
  intros price. apply quiet_bind; [apply quiet_lift|]. intros; apply quiet_ret.
Qed.

Lemma buildTx_fields (fn : contract_fn) (gasFactor : num) (gasSpeed : string)
    (nonce geo : Z) (gpo : num) (w w' : world) (tx : transaction) :
  buildTx fn gasFactor gasSpeed nonce geo gpo w = (Ret tx, w') ->
  tx_fn tx = fn /\ (-1 < nonce -> tx_nonce tx = nonce).
Proof.
  unfold buildTx.
  intros (n & w1 & Hn & Hrest)%bind_Ret_inv.
  apply bind_Ret_inv in Hrest as (g & w2 & _ & Hrest).
  apply bind_Ret_inv in Hrest as (pr & w3 & _ & Hrest).
  apply bind_Ret_inv in Hrest as (wei & w4 & _ & [= <- _]).
  split; [done|]. intros Hlt. simpl.
  destruct (Z.ltb_spec (-1) nonce); [|lia]. by injection Hn as <- _.
Qed.

(** Whatever happens to it, a transaction handed to [sendTx] is the one
    transaction handed to the node; a hash that comes back is its hash, and
    its receipt has then been waited for unless the call is asynchronous. *)
Lemma sendTx_outcome (tx : transaction) (isAsync : bool) (r : result string)
    (w w' : world) :
  sendTx tx isAsync w = (r, w') ->
  sent (trace w') = tx :: sent (trace w) /\
  nonce_fetches (trace w') = nonce_fetches (trace w) /\
  (isAsync = true -> w' = set_trace (EvSendRawTransaction tx :: trace w) w) /\
  forall h, r = Ret h ->
    h = transaction_hash tx /\
    w' = set_trace ((if isAsync then [] else [EvWaitForReceipt h]) ++
                    EvSendRawTransaction tx :: trace w) w.
Proof.
  unfold sendTx, bind, ask, waitForTx, bind, ask, ret.
  destruct (send_raw_transaction (trace w) tx) as [[]|e]; simpl.
  - destruct isAsync; simpl.
    + intros [= <- <-]. split_and!; try done. by intros h [= <-].
    + destruct (wait_for_transaction_receipt _ _) as [[]|e]; simpl;
        intros [= <- <-]; (split_and!; try done); by intros h [= <-].
  - intros [= <- <-]. split_and!; try done.
Qed.

Lemma erc20BuildFunctionSetAllowance_Ret (t a : string) (allowance : Z)
    (fn : contract_fn) (w w' : world) :
  erc20BuildFunctionSetAllowance t a allowance w = (Ret fn, w') ->
  fn = FnApprove t a allowance.
Proof.
  unfold erc20BuildFunctionSetAllowance.
  destruct (erc20GetContract_returns t w) as (w1 & Hc & _).
  erewrite bind_run by done. unfold build_call.
  destruct (fits_abi _); [|done]. by intros [= <- _].
Qed.

Lemma quiet_erc20BuildFunctionSetAllowance (t a : string) (allowance : Z) :
  quiet allow (erc20BuildFunctionSetAllowance t a allowance).
Proof.
  unfold erc20BuildFunctionSetAllowance.
  apply quiet_bind; [apply quiet_erc20GetContract|]. intros c.
  apply quiet_build_call.
Qed.

(** Signing and sending an approval, whatever its outcome: either only
    reads happened and no hash comes back, or the reads were followed by
    [sendTx] on a transaction that carries the approval. *)
Lemma erc20SignAndSendNewAllowance_outcome (t a : string) (allowance : Z)
    (gasFactor : num) (gasSpeed : string) (nonce geo : Z) (gpo : num)
    (isAsync : bool) (r : result string) (w w' : world) :
  -1 < nonce \/ allow EvGetTransactionCount = true ->
  erc20SignAndSendNewAllowance t a allowance gasFactor gasSpeed nonce geo gpo
    isAsync w = (r, w') ->
  (reads allow w w' /\ forall h, r <> Ret h) \/
  (exists tx w0,
     tx_fn tx = FnApprove t a allowance /\
     (-1 < nonce -> tx_nonce tx = nonce) /\
     reads allow w w0 /\ sendTx tx isAsync w0 = (r, w')).
Proof.
  intros Hn. unfold erc20SignAndSendNewAllowance.
  intros [(fn & w1 & Hfn & Hrest)|(e & Hfn & ->)]%bind_inv; last first.
  { left. split; [|done].
    pose proof (quiet_erc20BuildFunctionSetAllowance t a allowance w) as Hq.
    by rewrite Hfn in Hq. }
  pose proof (quiet_erc20BuildFunctionSetAllowance t a allowance w) as Hq1.
  rewrite Hfn in Hq1. simpl in Hq1.
  apply erc20BuildFunctionSetAllowance_Ret in Hfn as ->.
  pose proof (quiet_buildTx (FnApprove t a allowance) gasFactor gasSpeed nonce geo
                gpo Hn w1) as Hq2.
  apply bind_inv in Hrest as [(tx & w2 & Htx & Hsend)|(e & Htx & ->)].
  - rewrite Htx in Hq2. simpl in Hq2.
    apply buildTx_fields in Htx as [Hf Hnon].
    right. exists tx, w2. split_and!; try done. by eapply reads_trans.
  - rewrite Htx in Hq2. simpl in Hq2.
    left. split; [by eapply reads_trans|done].
Qed.

(** What sending an approval leaves behind when it returns: the reads of
    building the transaction, then the one broadcast, then the wait unless
    the call is asynchronous. *)
Lemma erc20SignAndSendNewAllowance_Ret (t a : string) (allowance : Z)
    (gasFactor : num) (gasSpeed : string) (nonce geo : Z) (gpo : num)
    (isAsync : bool) (w w' : world) (h : string) :
  -1 < nonce \/ allow EvGetTransactionCount = true ->
  erc20SignAndSendNewAllowance t a allowance gasFactor gasSpeed nonce geo gpo
    isAsync w = (Ret h, w') ->
  exists tx w0,
    h = transaction_hash tx /\ tx_fn tx = FnApprove t a allowance /\
    (-1 < nonce -> tx_nonce tx = nonce) /\
    reads allow w w0 /\
    w' = set_trace ((if isAsync then [] else [EvWaitForReceipt h]) ++
                    EvSendRawTransaction tx :: trace w0) w0.
Proof.
  intros Hn [[_ Hno]|(tx & w0 & Hfn & Hnon & Hr & Hsend)]
    %erc20SignAndSendNewAllowance_outcome; [by destruct (Hno h)| |done].
  apply sendTx_outcome in Hsend as (_ & _ & _ & Hh).
  destruct (Hh h eq_refl) as [-> ->]. by exists tx, w0.
Qed.
End Approval.

(** ** AllowanceEnforcer *)

Section AllowanceEnforcer.
Context `{!Collaborators}.

Lemma sent_after_send (tx : transaction) (isAsync : bool) (h : string)
    (tr : list event) :
  sent ((if isAsync then [] else [EvWaitForReceipt h]) ++
        EvSendRawTransaction tx :: tr) = tx :: sent tr.
Proof. by destruct isAsync. Qed.

(** The target handed to the approval: computing it changes nothing once
    the decimals of the token are in the cache. *)
Lemma target_allowance_outcome (t : string) (target : num) (d : Z)
    (r : result num) (w w' : world) :
  decimals w !! t = Some d ->
  (if num_eq target (PInt (-1)) || num_eq target (PInt INFINITE)
   then ret (PInt INFINITE)
   else let! decimals := erc20GetDecimals t in
        lift (num_mul target (py_pow10 decimals))) w = (r, w') ->
  w' = w /\
  forall tv allowance,
    r = Ret tv -> num_int tv = Ret allowance -> approval_amount target d allowance.
Proof.
  intros Hd. unfold approval_amount, is_infinite_target. destruct (_ || _).
  - intros [= <- <-]. split; [done|]. by intros tv allowance [= <-] [= <-].
  - erewrite bind_run by by apply erc20GetDecimals_cached.
    unfold lift. intros [= <- <-]. split; [done|].
    intros tv allowance Htv Ha. by exists tv.
Qed.

(** C4 (erc20EnforceSufficientAllowance), by the comparison of the current
    allowance in standard units with the required amount.  At least the
    amount: nothing is handed to the node and [None] is returned.  Less:
    the enforcement never returns [None]; when it returns, exactly one
    transaction has been handed to the node, the hash returned is its hash,
    and it is an [approve] of the spender whose allowance argument is
    [2^256 - 1] when the target is [-1] or [2^256 - 1], and otherwise
    [int(target * 10 ** decimals)] for the decimals of the token; and when
    it raises, which it does when the gas oracle, the node or a conversion
    raises, or the gas speed has no price, at most that one transaction has
    been handed to the node. *)
Theorem erc20EnforceSufficientAllowance_cases (tokenAddress allowedAddress : string)
    (targetAllowance amount gasFactor : num) (gasSpeed : string)
    (nonceOverride gasEstimateOverride : Z) (gasPriceGweiOverride : num)
    (isAsync : bool) (currentAllowance balance : num) (w w0 w1 : world) :
  erc20GetAllowanceStandard tokenAddress allowedAddress w =
    (Ret currentAllowance, w0) ->
  erc20GetBalanceStandard tokenAddress w0 = (Ret balance, w1) ->
  let enforce :=
    erc20EnforceSufficientAllowance tokenAddress allowedAddress targetAllowance
      amount gasFactor gasSpeed nonceOverride gasEstimateOverride
      gasPriceGweiOverride isAsync in
  if num_ge currentAllowance amount then
    enforce w = (Ret None, w1) /\ sent (trace w1) = sent (trace w)
  else
    exists decimals_of_token,
      decimals w1 !! tokenAddress = Some decimals_of_token /\
      forall r w', enforce w = (r, w') ->
        let approves tx :=
          exists allowance,
            approval_amount targetAllowance decimals_of_token allowance /\
            tx_fn tx = FnApprove tokenAddress allowedAddress allowance /\
            sent (trace w') = tx :: sent (trace w) in
        match r with
        | Ret None => False
        | Ret (Some txHash) =>
            exists tx, txHash = transaction_hash tx /\ approves tx
        | Raise _ =>
            sent (trace w') = sent (trace w) \/ exists tx, approves tx
        end.
Proof.
  intros Hallowance Hbalance enforce. subst enforce.
  assert (forall e, is_read e = true -> no_submit e = true) as Hallow by by intros [].
  assert (erc20HasSufficientAllowance tokenAddress allowedAddress amount w =
            (Ret (num_ge currentAllowance amount), w1)) as Hcheck.
  { unfold erc20HasSufficientAllowance.
    erewrite bind_run by done. by erewrite bind_run by done. }
  destruct (erc20HasSufficientAllowance_run no_submit Hallow _ _ _ _ _ _ Hcheck)
    as [Hr [d Hd]].
  apply reads_no_submit in Hr as [Hsent _].
  unfold erc20EnforceSufficientAllowance. erewrite bind_run by done.
  destruct (num_ge currentAllowance amount); simpl; [done|].
  exists d. split; [done|]. intros r w' Hrun.
  apply bind_inv in Hrun as [(tv & w2 & Htv & Hrun)|(e & Htv & ->)]; last first.
  { apply (target_allowance_outcome _ _ d) in Htv as [-> _]; [by left|done]. }
  apply (target_allowance_outcome _ _ d) in Htv as [-> Hamount]; [|done].
  apply bind_inv in Hrun as [(al & w3 & [Hal ->]%lift_Ret & Hrun)|(e & Hal & ->)];
    last first.
  { unfold lift in Hal. injection Hal as _ <-. by left. }
  specialize (Hamount tv al eq_refl Hal).
  apply bind_inv in Hrun as [(h & w4 & Hsend & [= <- <-])|(e & Hsend & ->)].
  - apply (erc20SignAndSendNewAllowance_outcome no_submit Hallow) in Hsend
      as [[_ Hno]|(tx & w0' & Hfn & _ & Hr0 & Hs)]; [by destruct (Hno h)| |by right].
    apply sendTx_outcome in Hs as (Hsent' & _ & _ & Hh).
    destruct (Hh h eq_refl) as [-> _].
    apply reads_no_submit in Hr0 as [Hs0 _].
    exists tx. split; [done|]. exists al. split_and!; try done. congruence.
  - apply (erc20SignAndSendNewAllowance_outcome no_submit Hallow) in Hsend
      as [[Hr0 _]|(tx & w0' & Hfn & _ & Hr0 & Hs)]; [| |by right].
    + left. apply reads_no_submit in Hr0 as [Hs0 _]. congruence.
    + right. apply sendTx_outcome in Hs as (Hsent' & _).
      apply reads_no_submit in Hr0 as [Hs0 _].
      exists tx, al. split_and!; try done. congruence.
Qed.
End AllowanceEnforcer.

Lemma erc20EnforceSufficientAllowance_cases_witness :
  (exists w1,
     @erc20EnforceSufficientAllowance fixed_collaborators "0xBB" VAULT (PInt (-1))
       (PInt 1) (PFloat 1.05) "average" (-1) (-1) (PInt (-1)) false empty_world =
     (Ret None, w1)) /\
  (exists tx w',
     @erc20EnforceSufficientAllowance fixed_collaborators "0xAA" VAULT (PInt (-1))
       (PInt 1) (PFloat 1.05) "average" (-1) (-1) (PInt (-1)) false empty_world =
     (Ret (Some (@transaction_hash fixed_collaborators tx)), w') /\
     tx_fn tx = FnApprove "0xAA" VAULT INFINITE /\ sent (trace w') = [tx]) /\
  (exists tx w',
     @erc20EnforceSufficientAllowance fixed_collaborators "0xAA" VAULT (PInt 5)
       (PInt 1) (PFloat 1.05) "average" (-1) (-1) (PInt (-1)) false empty_world =
     (Ret (Some (@transaction_hash fixed_collaborators tx)), w') /\
     tx_fn tx = FnApprove "0xAA" VAULT (5 * 10 ^ 18) /\ sent (trace w') = [tx]).
Proof.
  split; [|split].
  - eexists.
    refine (proj1 (@erc20EnforceSufficientAllowance_cases fixed_collaborators
      "0xBB" VAULT (PInt (-1)) (PInt 1) (PFloat 1.05) "average" (-1) (-1) (PInt (-1))
      false (PFloat 5) (PFloat 5) empty_world
      (@erc20GetAllowanceStandard fixed_collaborators "0xBB" VAULT empty_world).2
      _ _ _)); vm_compute; reflexivity.
  - destruct (@erc20EnforceSufficientAllowance_cases fixed_collaborators
      "0xAA" VAULT (PInt (-1)) (PInt 1) (PFloat 1.05) "average" (-1) (-1) (PInt (-1))
      false (PFloat 0) (PFloat 5) empty_world
      (@erc20GetAllowanceStandard fixed_collaborators "0xAA" VAULT empty_world).2
      (@erc20HasSufficientAllowance fixed_collaborators "0xAA" VAULT (PInt 1)
         empty_world).2
      ltac:(vm_compute; reflexivity) ltac:(vm_compute; reflexivity))
      as (d & _ & Hall).
    set (run := @erc20EnforceSufficientAllowance fixed_collaborators "0xAA" VAULT
                  (PInt (-1)) (PInt 1) (PFloat 1.05) "average" (-1) (-1) (PInt (-1))
                  false empty_world) in *.
    assert (run = (Ret (Some "hash7"%string), run.2)) as Hrun
      by (vm_compute; reflexivity).
    destruct (Hall _ _ Hrun) as (tx & Hh & al & Ham & Hfn & Hsent).
    change (al = INFINITE) in Ham. subst al.
    exists tx, run.2. split; [by rewrite <-Hh|]. split; [done|exact Hsent].
  - destruct (@erc20EnforceSufficientAllowance_cases fixed_collaborators
      "0xAA" VAULT (PInt 5) (PInt 1) (PFloat 1.05) "average" (-1) (-1) (PInt (-1))
      false (PFloat 0) (PFloat 5) empty_world
      (@erc20GetAllowanceStandard fixed_collaborators "0xAA" VAULT empty_world).2
      (@erc20HasSufficientAllowance fixed_collaborators "0xAA" VAULT (PInt 1)
         empty_world).2
      ltac:(vm_compute; reflexivity) ltac:(vm_compute; reflexivity))
      as (d & Hd & Hall).
    vm_compute in Hd. injection Hd as <-.
    set (run := @erc20EnforceSufficientAllowance fixed_collaborators "0xAA" VAULT
                  (PInt 5) (PInt 1) (PFloat 1.05) "average" (-1) (-1) (PInt (-1))
                  false empty_world) in *.
    assert (run = (Ret (Some "hash7"%string), run.2)) as Hrun
      by (vm_compute; reflexivity).
    destruct (Hall _ _ Hrun) as (tx & Hh & al & Ham & Hfn & Hsent).
    change (exists scaled,
              @num_mul (PInt 5) (@py_pow10 fixed_collaborators 18) = Ret scaled /\
              num_int scaled = Ret al) in Ham.
    destruct Ham as (sc & Hsc & Hal).
    vm_compute in Hsc. injection Hsc as <-. vm_compute in Hal. injection Hal as <-.
    exists tx, run.2. split; [by rewrite <-Hh|]. split; [done|exact Hsent].
Defined.

(** ** Loop invariants *)

Lemma for_in_seq_invariant {St} (I : nat -> St -> world -> Prop)
    (body : nat -> St -> Py St) (m k : nat) (acc r : St) (w w' : world) :
  I k acc w ->
  (forall i a w1 a' w2,
     (k <= i < k + m)%nat -> I i a w1 -> body i a w1 = (Ret a', w2) -> I (S i) a' w2) ->
  for_in (seq k m) acc body w = (Ret r, w') ->
  I (k + m)%nat r w'.
Proof.
  revert k acc w. induction m as [|m IH]; intros k acc w HI Hstep; simpl.
  - intros [= <- <-]. by rewrite Nat.add_0_r.
  - intros (a' & w1 & Hb & Hrest)%bind_Ret_inv.
    replace (k + S m)%nat with (S k + m)%nat by lia.
    eapply IH; [|intros; eapply Hstep; [lia|done..]|done].
    eapply Hstep; [lia|done..].
Qed.

Lemma for_range_invariant {St} (I : nat -> St -> world -> Prop)
    (body : nat -> St -> Py St) (n : nat) (acc r : St) (w w' : world) :
  I 0%nat acc w ->
  (forall i a w1 a' w2,
     (i < n)%nat -> I i a w1 -> body i a w1 = (Ret a', w2) -> I (S i) a' w2) ->
  for_in (range n) acc body w = (Ret r, w') ->
  I n r w'.
Proof.
  intros HI Hstep Hrun.
  apply (for_in_seq_invariant I body n 0 acc r w w'); [done| |done].
  intros i a w1 a' w2 [_ Hi]. by apply Hstep.
Qed.

Lemma for_in_invariant {X St} (I : list X -> St -> world -> Prop)
    (body : X -> St -> Py St) (xs done : list X) (acc r : St) (w w' : world) :
  I done acc w ->
  (forall pre x a w1 a' w2,
     I pre a w1 -> body x a w1 = (Ret a', w2) -> I (pre ++ [x]) a' w2) ->
  for_in xs acc body w = (Ret r, w') ->
  I (done ++ xs) r w'.
Proof.
  revert done acc w. induction xs as [|x xs IH]; intros done acc w HI Hstep; simpl.
  - intros [= <- <-]. by rewrite app_nil_r.
  - intros (a' & w1 & Hb & Hrest)%bind_Ret_inv.
    rewrite (cons_middle x), (assoc_L (++)). eapply IH; [|done|done].
    by eapply Hstep.
Qed.

(** ** The batched allowance enforcement *)

Section Batch.
Context `{!Collaborators}.

Lemma index_Ret {A} (xs : list A) (i : nat) (x : A) (w w' : world) :
  index xs i w = (Ret x, w') -> xs !! i = Some x /\ w' = w.
Proof. unfold index. destruct (xs !! i); [|done]. by intros [= <- <-]. Qed.

(** One enforcement of the batch, under a nonce that overrides: either
    nothing but reads happened and no hash comes back, or the reads are
    followed by one broadcast, of an approval of the vault that carries the
    nonce handed in. *)
Lemma erc20EnforceSufficientVaultAllowance_step (t : string)
    (target amount gasFactor : num) (gasSpeed : string) (nonce : Z)
    (r : option string) (w w' : world) :
  -1 < nonce ->
  erc20EnforceSufficientVaultAllowance t target amount gasFactor gasSpeed nonce
    (-1) (PInt (-1)) true w = (Ret r, w') ->
  match r with
  | None => reads is_read w w'
  | Some h =>
      exists tx a w0,
        h = transaction_hash tx /\ tx_fn tx = FnApprove t VAULT a /\
        tx_nonce tx = nonce /\ reads is_read w w0 /\
        w' = set_trace (EvSendRawTransaction tx :: trace w0) w0
  end.
Proof.
  intros Hn.
  unfold erc20EnforceSufficientVaultAllowance, erc20EnforceSufficientAllowance.
  intros (b & w1 & Hcheck & Hrest)%bind_Ret_inv.
  apply (erc20HasSufficientAllowance_run is_read) in Hcheck as [Hr1 _]; [|done].
  destruct b; simpl in Hrest; [injection Hrest as <- <-; done|].
  apply bind_Ret_inv in Hrest as (tv & w2 & Htv & Hrest).
  apply bind_Ret_inv in Hrest as (a & w3 & Ha & Hrest).
  apply bind_Ret_inv in Hrest as (h & w4 & Hsend & [= <- <-]).
  assert (reads is_read w1 w2) as Hr2.
  { assert (quiet is_read
      (if num_eq target (PInt (-1)) || num_eq target (PInt INFINITE)
       then ret (PInt INFINITE)
       else let! decimals := erc20GetDecimals t in
            lift (num_mul target (py_pow10 decimals)))) as Hq.
    { destruct (_ || _); [apply quiet_ret|].
      apply quiet_bind; [by apply quiet_erc20GetDecimals|]. intros d.
      apply quiet_lift. }
    specialize (Hq w1). by rewrite Htv in Hq. }
  unfold lift in Ha. injection Ha as _ <-.
  apply (erc20SignAndSendNewAllowance_Ret is_read) in Hsend
    as (tx & w0 & -> & Hfn & Hnon & Hr0 & ->); [|done|by left].
  exists tx, a, w0. split_and!; try done; [by apply Hnon|].
  eapply reads_trans; [done|]. by eapply reads_trans.
Qed.

(** The loop of waits, whatever its outcome: the receipts of a prefix of
    the hashes have been asked for, in their order; of all of them when the
    loop returns; and when it raises, it is the last wait that raised. *)
Lemma wait_loop_outcome (txHashes : list string) (r : result unit) (w w' : world) :
  for_in txHashes tt (fun txHash _ => waitForTx txHash ;;! ret tt) w = (r, w') ->
  exists asked,
    asked `prefix_of` txHashes /\
    w' = set_trace (reverse (EvWaitForReceipt <$> asked) ++ trace w) w /\
    (forall u, r = Ret u -> asked = txHashes) /\
    (forall e, r = Raise e ->
       exists before h,
         asked = before ++ [h] /\
         wait_for_transaction_receipt
           (reverse (EvWaitForReceipt <$> before) ++ trace w) h = Raise e).
Proof.
  revert w. induction txHashes as [|h hs IH]; intros w; simpl.
  - intros [= <- <-]. exists []. split_and!; [done|by destruct w|done|done].
  - unfold bind at 1. unfold bind at 1. unfold waitForTx, bind, ask, ret. simpl.
    destruct (wait_for_transaction_receipt (trace w) h) as [[]|e] eqn:Hwait; simpl.
    + intros (asked & Hpre & -> & Hall & Hraise)%IH. exists (h :: asked). split_and!.
      * by apply prefix_cons.
      * simpl. by rewrite reverse_cons, <-(assoc_L (++)).
      * intros u Hu. by rewrite (Hall u Hu).
      * intros e He. destruct (Hraise e He) as (before & h' & -> & Hw).
        exists (h :: before), h'. split; [done|].
        simpl in Hw. by rewrite fmap_cons, reverse_cons, <-(assoc_L (++)).
    + intros [= <- <-]. exists [h]. split_and!; [|done|done|].
      * by apply prefix_cons, prefix_nil.
      * intros e' [= <-]. by exists [], h.
Qed.

Lemma wait_loop_Ret (txHashes : list string) (w w' : world) :
  for_in txHashes tt (fun txHash _ => waitForTx txHash ;;! ret tt) w = (Ret tt, w') ->
  w' = set_trace (reverse (EvWaitForReceipt <$> txHashes) ++ trace w) w.
Proof.
  intros (asked & _ & -> & Hall & _)%wait_loop_outcome. by rewrite (Hall tt eq_refl).
Qed.
End Batch.

Lemma observations_after_waits (hs : list string) (tr : list event) :
  sent (reverse (EvWaitForReceipt <$> hs) ++ tr) = sent tr /\
  waited (reverse (EvWaitForReceipt <$> hs) ++ tr) = reverse hs ++ waited tr /\
  nonce_fetches (reverse (EvWaitForReceipt <$> hs) ++ tr) = nonce_fetches tr.
Proof.
  unfold sent, waited, nonce_fetches. revert tr.
  induction hs as [|h hs IH]; intros tr; [done|].
  rewrite fmap_cons, !reverse_cons, <-!(assoc_L (++)).
  destruct (IH ([EvWaitForReceipt h] ++ tr)) as (-> & -> & ->). done.
Qed.

Lemma consecutive_from_snoc (base : Z) (k : nat) :
  consecutive_from base (S k) = consecutive_from base k ++ [base + Z.of_nat k].
Proof. unfold consecutive_from. by rewrite seq_S, fmap_app. Qed.

Section BatchNonces.
Context `{!Collaborators}.
Variables (tokens : list string) (targetAllowances amounts : list num).
Variables (gasFactor : num) (gasSpeed : string).

Lemma batch_step (base : Z) (ws : world) (i : nat) (st st' : Z * list string)
    (w1 w2 : world) :
  0 <= base ->
  batch_inv tokens base ws i st w1 ->
  (let '(nonce, txHashes) := st in
   let! token := index tokens i in
   let! targetAllowance := index targetAllowances i in
   let! amount := index amounts i in
   let! txHash :=
     erc20EnforceSufficientVaultAllowance token targetAllowance amount
       gasFactor gasSpeed nonce (-1) (PInt (-1)) true in
   match txHash with
   | Some txHash => ret (nonce + 1, txHashes ++ [txHash])
   | None => ret (nonce, txHashes)
   end) w1 = (Ret st', w2) ->
  batch_inv tokens base ws (S i) st' w2.
Proof.
  unfold batch_inv.
  intros Hbase (txs & Hsent & Hhs & Hnonce & Hnonces & Hwait & Hfetch & Hlen & Hsub).
  destruct st as [nonce hs]; simpl in *. subst nonce hs.
  intros (t & w1' & [Ht ->]%index_Ret & Hrest)%bind_Ret_inv.
  apply bind_Ret_inv in Hrest as (target & w1' & [_ ->]%index_Ret & Hrest).
  apply bind_Ret_inv in Hrest as (amount & w1' & [_ ->]%index_Ret & Hrest).
  apply bind_Ret_inv in Hrest as (r & w3 & Hop & Hrest).
  apply erc20EnforceSufficientVaultAllowance_step in Hop; [|lia].
  rewrite (take_S_r _ _ _ Ht).
  destruct r as [h|]; injection Hrest as <- <-.
  - destruct Hop as (tx & a & w0 & -> & Hfn & Hnon & Hr & ->).
    apply reads_is_read in Hr as (Hs0 & Hw0 & Hf0).
    assert (vault_approval_of tx = Some t) as Hva.
    { unfold vault_approval_of. rewrite Hfn. by case_decide. }
    exists (txs ++ [tx]). simpl.
    rewrite reverse_snoc, !fmap_app, length_app, omap_app, Nat.add_1_r. simpl.
    rewrite consecutive_from_snoc, Hva. simpl. rewrite length_app. simpl.
    split_and!; try done.
    + unfold sent at 1. csimpl. fold (sent (trace w0)). by rewrite Hs0, Hsent.
    + lia.
    + by rewrite Hnonces, Hnon.
    + unfold waited at 1. csimpl. fold (waited (trace w0)). congruence.
    + unfold nonce_fetches at 1. csimpl. fold (nonce_fetches (trace w0)). congruence.
    + lia.
    + by apply sublist_app.
  - apply reads_is_read in Hop as (Hs0 & Hw0 & Hf0).
    exists txs. simpl. split_and!; try done; try congruence.
    by apply sublist_inserts_r.
Qed.

(** The loop of the batch, when it runs to its end, starting from the
    nonce fetched. *)
Lemma batch_loop_inv (w w2 : world) (nonce : Z) (txHashes : list string) :
  let base := Z.of_N (transaction_count (trace w)) in
  let ws := set_trace (EvGetTransactionCount :: trace w) w in
  for_in (range (length tokens)) (base, [])
    (fun i '(nonce, txHashes) =>
       let! token := index tokens i in
       let! targetAllowance := index targetAllowances i in
       let! amount := index amounts i in
       let! txHash :=
         erc20EnforceSufficientVaultAllowance token targetAllowance amount
           gasFactor gasSpeed nonce (-1) (PInt (-1)) true in
       match txHash with
       | Some txHash => ret (nonce + 1, txHashes ++ [txHash])
       | None => ret (nonce, txHashes)
       end) ws = (Ret (nonce, txHashes), w2) ->
  batch_inv tokens base ws (length tokens) (nonce, txHashes) w2.
Proof.
  intros base ws. apply for_range_invariant.
  - exists []. simpl. split_and!; first [done|lia|apply sublist_nil_l].
  - intros i [n h] w1 st' w1' _ Hi Hbody.
    eapply batch_step; [|done|done]. subst base. lia.
Qed.

(** C3 (erc20AsyncEnforceSufficientVaultAllowances): when the batched
    enforcement completes, the account's nonce has been fetched exactly
    once, and the transactions it produced, in the order [txs] of their
    submission, are approvals of the vault for tokens of the batch in the
    order of the batch, carry the consecutive nonces [base], [base + 1],
    ... from the nonce fetched, and are waited for in that same order. *)
Theorem erc20AsyncEnforceSufficientVaultAllowances_nonces
    (nonceOverride gasEstimateOverride : Z) (gasPriceGweiOverride : num)
    (w w' : world) :
  erc20AsyncEnforceSufficientVaultAllowances tokens targetAllowances amounts
    gasFactor gasSpeed nonceOverride gasEstimateOverride gasPriceGweiOverride w =
    (Ret true, w') ->
  exists txs,
    sent (trace w') = reverse txs ++ sent (trace w) /\
    nonce_fetches (trace w') = S (nonce_fetches (trace w)) /\
    tx_nonce <$> txs =
      consecutive_from (Z.of_N (transaction_count (trace w))) (length txs) /\
    waited (trace w') = reverse (transaction_hash <$> txs) ++ waited (trace w) /\
    length (omap vault_approval_of txs) = length txs /\
    omap vault_approval_of txs `sublist_of` tokens.
Proof.
  unfold erc20AsyncEnforceSufficientVaultAllowances.
  destruct (length tokens =? length targetAllowances)%nat; simpl; last first.
  { intros (? & ? & _ & [=])%bind_Ret_inv. }
  intros (base & ws & Hask & Hrest)%bind_Ret_inv.
  unfold ask in Hask. injection Hask as <- <-.
  apply bind_Ret_inv in Hrest as ([nonce hs] & w2 & Hloop & Hrest).
  apply bind_Ret_inv in Hrest as ([] & w3 & Hwaits & [= <-]).
  apply wait_loop_Ret in Hwaits as ->.
  apply batch_loop_inv in Hloop.
  destruct Hloop as (txs & Hsent & Hhs & _ & Hnonces & Hwait & Hfetch & Hlen & Hsub).
  simpl in Hhs. subst hs. exists txs. simpl.
  destruct (observations_after_waits (transaction_hash <$> txs) (trace w2))
    as (-> & -> & ->).
  rewrite firstn_all in Hsub.
  split_and!; [by rewrite Hsent|by rewrite Hfetch|done|by rewrite Hwait|done|done].
Qed.
End BatchNonces.

Lemma erc20AsyncEnforceSufficientVaultAllowances_nonces_witness :
  exists txs,
    sent (trace (run_batch batch_tokens batch_targets batch_amounts empty_world).2) =
      reverse txs ++ sent (trace empty_world) /\
    nonce_fetches
      (trace (run_batch batch_tokens batch_targets batch_amounts empty_world).2) =
      S (nonce_fetches (trace empty_world)) /\
    tx_nonce <$> txs =
      consecutive_from
        (Z.of_N (@transaction_count fixed_collaborators (trace empty_world)))
        (length txs) /\
    waited (trace (run_batch batch_tokens batch_targets batch_amounts empty_world).2) =
      reverse (@transaction_hash fixed_collaborators <$> txs) ++
      waited (trace empty_world) /\
    length (omap vault_approval_of txs) = length txs /\
    omap vault_approval_of txs `sublist_of` batch_tokens.
Proof.
  apply (@erc20AsyncEnforceSufficientVaultAllowances_nonces fixed_collaborators
           batch_tokens batch_targets batch_amounts (PFloat 1.05) "average"
           (-1) (-1) (PInt (-1)) empty_world).
  vm_compute. reflexivity.
Defined.

(** In that batch two of the three operations produce a transaction; they
    carry the nonces 7 and 8 and are waited for in that order. *)
Example batch_of_three_sends_two :
  let w' := (run_batch batch_tokens batch_targets batch_amounts empty_world).2 in
  tx_nonce <$> reverse (sent (trace w')) = [7; 8] /\
  omap vault_approval_of (reverse (sent (trace w'))) = ["0xAA"; "0xAA"]%string /\
  reverse (waited (trace w')) = ["hash7"; "hash8"]%string /\
  nonce_fetches (trace w') = 1%nat.
Proof. vm_compute. done. Qed.

(** ** The length check of the batched form *)

Section LengthCheck.
Context `{!Collaborators}.

(** X18 (erc20AsyncEnforceSufficientVaultAllowances).
    The guard of the batched form: it reports a length mismatch and
    returns [False] exactly when the token list and the list of target
    allowances differ in length; it does so before anything else: the only
    effect is the error report.  The list of amounts is not compared. *)
Theorem erc20AsyncEnforceSufficientVaultAllowances_length_check
    (tokens : list string) (targetAllowances amounts : list num)
    (gasFactor : num) (gasSpeed : string) (nonceOverride gasEstimateOverride : Z)
    (gasPriceGweiOverride : num) (w : world) :
  let run :=
    erc20AsyncEnforceSufficientVaultAllowances tokens targetAllowances amounts
      gasFactor gasSpeed nonceOverride gasEstimateOverride gasPriceGweiOverride w in
  (run.1 = Ret false <-> length tokens <> length targetAllowances) /\
  (length tokens <> length targetAllowances ->
   run.2 =
     set_trace
       (EvError ("Array length mismatch with " +:+ pretty (length tokens) +:+
                 " tokens and " +:+ pretty (length targetAllowances) +:+
                 " targetAllowances.") :: trace w) w).
Proof.
  unfold erc20AsyncEnforceSufficientVaultAllowances.
  destruct (Nat.eqb_spec (length tokens) (length targetAllowances)) as [Heq|Hne];
    simpl.
  - split; [|done]. split; [|done]. intros Hfalse. exfalso.
    match type of Hfalse with (?m w).1 = _ => destruct (m w) as [r w'] eqn:Hrun end.
    simpl in Hfalse. subst r.
    apply bind_Ret_inv in Hrun as (base & ws & _ & Hrun).
    apply bind_Ret_inv in Hrun as ([nonce hs] & w2 & _ & Hrun).
    apply bind_Ret_inv in Hrun as ([] & w3 & _ & [=]).
  - done.
Qed.
End LengthCheck.

Lemma erc20AsyncEnforceSufficientVaultAllowances_length_check_witness :
  (run_batch ["0xAA"] [] [PInt 1] empty_world).2 =
    set_trace
      [EvError "Array length mismatch with 1 tokens and 0 targetAllowances."]
      empty_world.
Proof.
  apply (proj2 (@erc20AsyncEnforceSufficientVaultAllowances_length_check
           fixed_collaborators ["0xAA"] [] [PInt 1] (PFloat 1.05) "average"
           (-1) (-1) (PInt (-1)) empty_world)).
  simpl. lia.
Defined.

(** With one token, one target and two amounts the call goes through and
    returns [True]: the amounts play no part in the guard. *)
Lemma length_check_is_not_on_amounts :
  ~ (forall (tokens : list string) (targetAllowances amounts : list num) (w : world),
       (run_batch tokens targetAllowances amounts w).1 = Ret false <->
       length tokens <> length amounts).
Proof.
  intros Hclaim.
  destruct (Hclaim ["0xBB"] [PInt (-1)] [PInt 1; PInt 2] empty_world) as [_ Hfalse].
  specialize (Hfalse ltac:(simpl; lia)).
  vm_compute in Hfalse. discriminate Hfalse.
Qed.

(** C6 (erc20AsyncEnforceSufficientVaultAllowances), on two tokens, two
    target allowances and one amount.  The token list and the amount list
    differ in length, but the method, unlike [erc20HasSufficientBalances]
    and [balConvertTokensToWei], does not compare them: no mismatch is
    reported and [False] is not returned.  The nonce is fetched, the first
    token is enforced, its approval is handed to the node, and the second
    operation raises [IndexError] on [amounts[1]]; the approval sent is
    never waited for. *)
Theorem erc20AsyncEnforceSufficientVaultAllowances_short_amounts :
  let tokens := ["0xAA"; "0xBB"]%string in
  let amounts := [PInt 1] in
  let run := run_batch tokens [PInt (-1); PInt (-1)] amounts empty_world in
  length tokens <> length amounts /\
  run.1 = Raise IndexError /\
  Forall (fun e => match e with EvError _ => False | _ => True end) (trace run.2) /\
  nonce_fetches (trace run.2) = 1%nat /\
  (exists tx,
     sent (trace run.2) = [tx] /\ tx_fn tx = FnApprove "0xAA" VAULT INFINITE) /\
  waited (trace run.2) = [].
Proof.
  intros tokens amounts run. split; [by vm_compute|].
  split; [vm_compute; reflexivity|].
  split; [vm_compute; by repeat constructor|].
  split; [vm_compute; reflexivity|].
  split; [|vm_compute; reflexivity].
  eexists. split; vm_compute; reflexivity.
Qed.

(** ** BatchSwapEncoder *)

Lemma dict_get_Ret `{Countable K} {V} (d : gmap K V) (k : K) (v : V) (w w' : world) :
  dict_get d k w = (Ret v, w') -> d !! k = Some v /\ w' = w.
Proof. unfold dict_get. destruct (d !! k); [|done]. by intros [= <- <-]. Qed.

Lemma list_get_Ret (l : loc) (i : nat) (x : string) (w w' : world) :
  list_get l i w = (Ret x, w') ->
  exists xs, heap w !! l = Some xs /\ xs !! i = Some x /\ w' = w.
Proof.
  unfold list_get. destruct (heap w !! l) as [xs|]; [|done].
  destruct (xs !! i) eqn:Hi; [|done]. intros [= <- <-]. by exists xs.
Qed.

Section BatchSwap.
Context `{!Collaborators}.

Lemma dict_get_int_Ret {V} (d : gmap nat V) (z : Z) (v : V) (w w' : world) :
  dict_get_int d z w = (Ret v, w') -> 0 <= z /\ d !! Z.to_nat z = Some v /\ w' = w.
Proof.
  unfold dict_get_int. destruct (Z.ltb_spec z 0); [done|].
  intros [? ?]%dict_get_Ret. done.
Qed.

Lemma limit_ok_mono (limits : list pyval) (ys : list string) (s2o : gmap nat nat)
    (w w' : world) (i : nat) (v : Z) :
  decimals w ⊆ decimals w' ->
  limit_ok limits ys s2o w i v -> limit_ok limits ys s2o w' i v.
Proof.
  intros Hsub (k & lim & f & tok & d & sc & ? & ? & ? & ? & Hd & ? & ?).
  exists k, lim, f, tok, d, sc. split_and!; try done. by eapply lookup_weaken.
Qed.

Lemma limits_loop_step (limits : list pyval) (sortedTokens : loc) (ys : list string)
    (s2o : gmap nat nat) (i : nat) (acc acc' : list Z) (w w' : world) :
  heap w !! sortedTokens = Some ys ->
  (let! k := dict_get s2o i in
   let! limit := index limits k in
   let! currLimitStandard := lift (py_float parse_float limit) in
   let! token := list_get sortedTokens i in
   let! decimals := erc20GetDecimals token in
   let! scaled := lift (num_mul (PFloat currLimitStandard) (py_pow10 decimals)) in
   let! currLimitRaw := lift (num_int scaled) in
   ret (acc ++ [currLimitRaw])) w = (Ret acc', w') ->
  reads is_read w w' /\
  exists v, acc' = acc ++ [v] /\ limit_ok limits ys s2o w' i v.
Proof.
  intros Hys.
  intros (k & w1 & [Hk ->]%dict_get_Ret & Hrest)%bind_Ret_inv.
  apply bind_Ret_inv in Hrest as (lim & w1 & [Hlim ->]%index_Ret & Hrest).
  apply bind_Ret_inv in Hrest as (f & w1 & [Hf ->]%lift_Ret & Hrest).
  apply bind_Ret_inv in Hrest as (tok & w1 & (ys' & Hys' & Htok & ->)%list_get_Ret & Hrest).
  assert (ys' = ys) as -> by congruence.
  apply bind_Ret_inv in Hrest as (d & w1 & Hdec & Hrest).
  destruct (erc20GetDecimals_run is_read ltac:(done) tok w) as (d' & w1' & Hrun & Hr & Hd).
  rewrite Hrun in Hdec. injection Hdec as <- <-.
  apply bind_Ret_inv in Hrest as (sc & w2 & [Hsc ->]%lift_Ret & Hrest).
  apply bind_Ret_inv in Hrest as (v & w2 & [Hv ->]%lift_Ret & [= <- <-]).
  split; [done|]. exists v. split; [done|].
  by exists k, lim, f, tok, d', sc.
Qed.

Lemma swaps_loop_step (sortedTokens : loc) (o2s : gmap nat nat) (swap : swap_step)
    (acc acc' : list swaps_tuple) (w w' : world) :
  (let! a := lift (py_int parse_int (sw_assetInIndex swap)) in
   let! idxSortedIn := dict_get_int o2s a in
   let! b := lift (py_int parse_int (sw_assetOutIndex swap)) in
   let! idxSortedOut := dict_get_int o2s b in
   let! token := list_get sortedTokens idxSortedIn in
   let! decimals := erc20GetDecimals token in
   let! amount := lift (py_float parse_float (sw_amount swap)) in
   let! scaled := lift (num_mul (PFloat amount) (py_pow10 decimals)) in
   let! amount := lift (num_int scaled) in
   let swapsTuple :=
     SwapsTuple (sw_poolId swap) idxSortedIn idxSortedOut amount
       balSwapGetUserData in
   ret (acc ++ [swapsTuple])) w = (Ret acc', w') ->
  reads is_read w w' /\
  exists tuple, acc' = acc ++ [tuple] /\ step_ok o2s swap tuple.
Proof.
  intros (a & w1 & [Ha ->]%lift_Ret & Hrest)%bind_Ret_inv.
  apply bind_Ret_inv in Hrest as (j & w1 & (Ha0 & Hj & ->)%dict_get_int_Ret & Hrest).
  apply bind_Ret_inv in Hrest as (b & w1 & [Hb ->]%lift_Ret & Hrest).
  apply bind_Ret_inv in Hrest as (j' & w1 & (Hb0 & Hj' & ->)%dict_get_int_Ret & Hrest).
  apply bind_Ret_inv in Hrest as (tok & w1 & (ys' & _ & _ & ->)%list_get_Ret & Hrest).
  apply bind_Ret_inv in Hrest as (d & w1 & Hdec & Hrest).
  pose proof (quiet_erc20GetDecimals is_read ltac:(done) tok w) as Hq.
  rewrite Hdec in Hq.
  apply bind_Ret_inv in Hrest as (f & w2 & [_ ->]%lift_Ret & Hrest).
  apply bind_Ret_inv in Hrest as (sc & w2 & [_ ->]%lift_Ret & Hrest).
  apply bind_Ret_inv in Hrest as (v & w2 & [_ ->]%lift_Ret & [= <- <-]).
  split; [done|]. eexists. split; [done|]. by exists a, b.
Qed.
End BatchSwap.

Lemma list_elems_Ret (l : loc) (ts : list string) (w w' : world) :
  list_elems l w = (Ret ts, w') -> heap w !! l = Some ts /\ w' = w.
Proof. unfold list_elems. destruct (heap w !! l); [|done]. by intros [= <- <-]. Qed.

Section BatchSwapEncoder.
Context `{!Collaborators}.
Variables (swapDescription : swap_description) (xs : list string) (w : world).
Hypothesis Hassets : heap w !! sd_assets swapDescription = Some xs.
Hypothesis Hunique : NoDup xs.

(** C2 (balCreateFnBatchSwap): in the call the encoder returns, the asset
    list is the caller's addresses in ascending order, each in checksum
    form; for every step the sorted in-index and out-index resolve in that
    list to the addresses that the step's [assetInIndex] and
    [assetOutIndex] had in the caller's list; and the limit at each sorted
    position [i] is the caller's limit at original position
    [sortedIdxToOriginalIdx[i]], which is where the caller had the token of
    sorted position [i], converted with that token's decimals. *)
Theorem balCreateFnBatchSwap_indices_and_limits (kind : Z)
    (swapsTuples : list swaps_tuple) (assets : list string) (funds : funds_tuple)
    (limits : list Z) (deadline : Z) (w' : world) :
  balCreateFnBatchSwap swapDescription w =
    (Ret (FnBatchSwap kind swapsTuples assets funds limits deadline), w') ->
  exists ys o2s s2o w1,
    balReorderTokenDicts (sd_assets swapDescription) w =
      (Ret (sd_assets swapDescription, o2s, s2o), w1) /\
    ys ≡ₚ xs /\ Sorted str_le ys /\
    assets = toChecksumAddress <$> ys /\
    Forall2 (step_resolves xs assets) (sd_swaps swapDescription) swapsTuples /\
    length limits = length xs /\
    forall i v, limits !! i = Some v ->
      exists k tok,
        s2o !! i = Some k /\ xs !! k = Some tok /\
        assets !! i = Some (toChecksumAddress tok) /\
        limit_ok (sd_limits swapDescription) ys s2o w' i v.
Proof.
  set (ys := merge_sort str_le xs).
  set (m := index_maps (address_index xs) ys).
  assert (ys ≡ₚ xs) as Hp by apply merge_sort_Permutation.
  destruct (index_maps_lookup xs ys Hunique Hp) as [Ho2s Hs2o]. fold m in Ho2s, Hs2o.
  unfold balCreateFnBatchSwap.
  erewrite bind_run by by apply balReorderTokenDicts_run.
  fold ys. fold m. cbv beta iota.
  set (w1 := set_heap _ w).
  assert (heap w1 !! sd_assets swapDescription = Some ys) as Hys
    by apply lookup_insert_eq.
  erewrite bind_run by by apply list_len_run.
  intros (limits0 & w2 & Hlimits & Hrest)%bind_Ret_inv.
  assert (reads is_read w1 w2 /\ length limits0 = length ys /\
          forall j v, limits0 !! j = Some v ->
            limit_ok (sd_limits swapDescription) ys m.2 w2 j v) as (Hr2 & Hlen & Hlim).
  { revert Hlimits.
    apply (for_range_invariant (fun i acc wc =>
      reads is_read w1 wc /\ length acc = i /\
      forall j v, acc !! j = Some v ->
        limit_ok (sd_limits swapDescription) ys m.2 wc j v)).
    - split; [by apply reads_refl|]. split; [done|]. intros j v. by rewrite lookup_nil.
    - intros i acc wc acc' wc' _ (Hr & Hl & Hok) Hbody.
      apply (limits_loop_step _ _ ys) in Hbody as (Hr' & v & -> & Hv);
        [|by rewrite (proj1 Hr)].
      split; [by eapply reads_trans|]. split; [rewrite length_app; simpl; lia|].
      intros j v' Hj. destruct (decide (j < length acc)%nat) as [Hlt|Hge].
      + rewrite lookup_app_l in Hj by done.
        eapply limit_ok_mono; [apply Hr'|by apply Hok].
      + rewrite lookup_app_r in Hj by lia.
        destruct (j - length acc)%nat as [|n] eqn:Hn; simpl in Hj; [|done].
        injection Hj as <-. by replace j with i by lia. }
  apply bind_Ret_inv in Hrest as (kind0 & w2' & [_ ->]%lift_Ret & Hrest).
  apply bind_Ret_inv in Hrest as (ts & w2' & [Hts ->]%list_elems_Ret & Hrest).
  assert (ts = ys) as -> by (rewrite (proj1 Hr2) in Hts; congruence).
  apply bind_Ret_inv in Hrest as (tuples & w3 & Hswaps & Hrest).
  assert (reads is_read w2 w3 /\
          Forall2 (step_ok m.1) (sd_swaps swapDescription) tuples) as (Hr3 & Hsteps).
  { revert Hswaps.
    apply (for_in_invariant (fun pre acc wc =>
      reads is_read w2 wc /\ Forall2 (step_ok m.1) pre acc) _ _ []).
    - split; [by apply reads_refl|constructor].
    - intros pre swap acc wc acc' wc' (Hr & Hok) Hbody.
      apply swaps_loop_step in Hbody as (Hr' & tuple & -> & Htuple).
      split; [by eapply reads_trans|]. apply Forall2_app; [done|by constructor]. }
  apply bind_Ret_inv in Hrest as (deadline0 & w3' & [_ ->]%lift_Ret & Hrest).
  apply build_call_Ret in Hrest as (Hcall & -> & _).
  injection Hcall as -> -> -> -> -> ->.
  exists ys, m.1, m.2, w1. split; [by apply balReorderTokenDicts_run|].
  split; [done|]. split; [apply Sorted_merge_sort, _|]. split; [done|].
  split; [|split].
  - eapply Forall2_impl; [done|].
    intros swap tuple (a & b & Ha & Hb & Ha0 & Hb0 & Hin & Hout & _).
    apply Ho2s in Hin as (tin & Hxin & Hyin).
    apply Ho2s in Hout as (tout & Hxout & Hyout).
    exists a, b, tin, tout. rewrite !list_lookup_fmap, Hyin, Hyout. done.
  - by rewrite Hlen, Hp.
  - intros i v Hv. specialize (Hlim i v Hv).
    pose proof Hlim as (k & lim & f & tok & d & sc & Hk & _ & _ & Htok & _).
    apply Hs2o in Hk as Hsame. destruct Hsame as (t & Hxk & Hyi).
    assert (t = tok) as -> by congruence.
    exists k, tok. split; [done|]. split; [done|].
    split; [by rewrite list_lookup_fmap, Htok|].
    eapply limit_ok_mono; [apply Hr3|done].
Qed.
End BatchSwapEncoder.

Lemma bb_aa_cc_NoDup : NoDup bb_aa_cc.
Proof. refine (bool_decide_unpack (NoDup bb_aa_cc) _). vm_compute. exact I. Qed.

Lemma balCreateFnBatchSwap_indices_and_limits_witness :
  let r := @balCreateFnBatchSwap fixed_collaborators demo_swap (world_with bb_aa_cc) in
  r.1 = Ret demo_swap_call /\
  exists ys o2s s2o w1,
    balReorderTokenDicts (sd_assets demo_swap) (world_with bb_aa_cc) =
      (Ret (sd_assets demo_swap, o2s, s2o), w1) /\
    ys ≡ₚ bb_aa_cc /\ Sorted str_le ys /\
    ["0xAA"; "0xBB"; "0xCC"]%string = @toChecksumAddress fixed_collaborators <$> ys /\
    Forall2 (@step_resolves fixed_collaborators bb_aa_cc ["0xAA"; "0xBB"; "0xCC"]%string)
      (sd_swaps demo_swap)
      [SwapsTuple "pool1" 1 0 1500000000000000000 (replicate 32 0)] /\
    length [0; 100000000000000000000; 2500000000000000000] = length bb_aa_cc /\
    forall i v,
      [0; 100000000000000000000; 2500000000000000000] !! i = Some v ->
      exists k tok,
        s2o !! i = Some k /\ bb_aa_cc !! k = Some tok /\
        ["0xAA"; "0xBB"; "0xCC"]%string !! i =
          Some (@toChecksumAddress fixed_collaborators tok) /\
        @limit_ok fixed_collaborators (sd_limits demo_swap) ys s2o r.2 i v.
Proof.
  intros r. split; [vm_compute; reflexivity|].
  apply (@balCreateFnBatchSwap_indices_and_limits fixed_collaborators demo_swap
           bb_aa_cc (world_with bb_aa_cc) eq_refl bb_aa_cc_NoDup
           0 [SwapsTuple "pool1" 1 0 1500000000000000000 (replicate 32 0)]
           ["0xAA"; "0xBB"; "0xCC"]%string (FundsTuple "0xME" false "0xME" false)
           [0; 100000000000000000000; 2500000000000000000] 999 r.2).
  vm_compute. reflexivity.
Defined.

(** Because the encoder sorts the caller's asset list in place, encoding the
    same description a second time starts from the sorted list and pairs
    the caller's indices and limits with other tokens. *)
Example second_encoding_differs :
  let r := @balCreateFnBatchSwap fixed_collaborators demo_swap (world_with bb_aa_cc) in
  let r' := @balCreateFnBatchSwap fixed_collaborators demo_swap r.2 in
  r.1 = Ret demo_swap_call /\ r'.1 <> Ret demo_swap_call.
Proof. vm_compute. split; [done|discriminate]. Qed.

(** When the caller's addresses are in checksum form already, the emitted
    addresses are the caller's own strings. *)
Lemma step_resolves_checksummed `{!Collaborators} (xs assets : list string)
    (swap : swap_step) (tuple : swaps_tuple) :
  (forall t, t ∈ xs -> toChecksumAddress t = t) ->
  step_resolves xs assets swap tuple ->
  exists a b,
    py_int parse_int (sw_assetInIndex swap) = Ret a /\
    py_int parse_int (sw_assetOutIndex swap) = Ret b /\
    assets !! st_idxSortedIn tuple = xs !! Z.to_nat a /\
    assets !! st_idxSortedOut tuple = xs !! Z.to_nat b.
Proof.
  intros Hcs (a & b & tin & tout & Ha & Hb & _ & _ & Hin & Hout & Hain & Haout).
  exists a, b. split; [done|]. split; [done|].
  rewrite Hain, Haout, Hin, Hout.
  rewrite !Hcs by by eapply list_elem_of_lookup_2. done.
Qed.

(** * Further properties *)

(** ** TokenReorderer on any list *)

Lemma index_maps_prefix_sound (d : gmap string nat) (ys : list string) (k : nat) :
  let P := fun j i => exists t, ys !! j = Some t /\ d !! t = Some i in
  (k <= length ys)%nat ->
  let m := foldl (flip (remap_step d ys)) (∅, ∅) (range k) in
  (forall i j, m.1 !! i = Some j -> (j < k)%nat /\ P j i) /\
  (forall i j, m.2 !! j = Some i <-> (j < k)%nat /\ P j i).
Proof.
  intros P. induction k as [|k IH]; intros Hk; cbv zeta.
  - split; intros i j; simpl; rewrite lookup_empty; [done|]. split; [done|lia].
  - destruct IH as [IH1 IH2]; [lia|].
    unfold range in *. rewrite seq_S, foldl_snoc. simpl.
    set (m := foldl _ _ _) in *. unfold flip, remap_step.
    destruct (lookup_lt_is_Some_2 ys k) as [t0 Ht0]; [lia|]. rewrite Ht0.
    assert (forall j i, (j < S k)%nat /\ P j i <->
              ((j < k)%nat /\ P j i) \/ (j = k /\ d !! t0 = Some i)) as Hsplit.
    { intros j i. split.
      - intros [Hj HP]. destruct (decide (j = k)) as [->|]; [|left; split; [lia|done]].
        right. split; [done|]. destruct HP as (t & Ht & Hd). congruence.
      - intros [[? ?]|[-> ?]]; [split; [lia|done]|]. split; [lia|]. by exists t0. }
    destruct (d !! t0) as [i0|] eqn:Hd0; simpl.
    + split; intros i j; rewrite Hsplit, lookup_insert.
      * case_decide as Hi; subst.
        -- intros [= <-]. by right.
        -- intros ?%IH1. by left.
      * case_decide as Hj; subst.
        -- split; [intros [= <-]; by right|].
           intros [[Hj _]|[_ ?]]; [lia|done].
        -- rewrite IH2. split; [by left|]. intros [?|[? _]]; done.
    + split; intros i j; rewrite Hsplit.
      * intros ?%IH1. by left.
      * rewrite IH2. split; [by left|]. intros [?|[_ [=]]]; done.
Qed.

Section ReorderAnyList.
Variables (tokens : loc) (xs : list string) (w : world).
Hypothesis Htokens : heap w !! tokens = Some xs.

(** X1 (balReorderTokenDicts).
    On any list, repeated addresses included, the reorder operation
    returns; [sortedIdxToOriginalIdx] is defined exactly on [0, n) and sends
    every sorted position to an original position that held the same
    address; and whatever [originalIdxToSortedIdx] holds is right in the same
    sense. *)
Theorem balReorderTokenDicts_resolves_on_any_list :
  exists o2s s2o w' ys,
    balReorderTokenDicts tokens w = (Ret (tokens, o2s, s2o), w') /\
    heap w' !! tokens = Some ys /\ ys ≡ₚ xs /\ Sorted str_le ys /\
    (forall j, (j < length xs)%nat ->
       exists i, s2o !! j = Some i /\ (i < length xs)%nat /\ xs !! i = ys !! j) /\
    (forall j, (length xs <= j)%nat -> s2o !! j = None) /\
    (forall i j, o2s !! i = Some j -> (j < length xs)%nat /\ xs !! i = ys !! j).
Proof.
  set (ys := merge_sort str_le xs).
  assert (ys ≡ₚ xs) as Hp by apply merge_sort_Permutation.
  pose proof (Permutation_length Hp) as Hlen.
  destruct (index_maps_prefix_sound (address_index xs) ys (length ys)) as [H1 H2];
    [done|].
  fold (index_maps (address_index xs) ys) in H1, H2.
  set (m := index_maps (address_index xs) ys) in *.
  destruct (address_index_prefix xs (length xs)) as [Hd1 Hd2]; [done|].
  fold (address_index xs) in Hd1, Hd2.
  exists m.1, m.2, (set_heap (<[tokens := ys]> (heap w)) w), ys.
  split; [by apply balReorderTokenDicts_run|].
  split; [apply lookup_insert_eq|]. split; [done|].
  split; [apply Sorted_merge_sort, _|]. split; [|split].
  - intros j Hj. destruct (lookup_lt_is_Some_2 ys j) as [t Ht]; [lia|].
    destruct (address_index_is_Some xs t) as [i Hi].
    { rewrite <-Hp. by eapply list_elem_of_lookup_2. }
    exists i. apply Hd1 in Hi as Hx. destruct Hx as [Hlt Hx].
    split; [|split; [done|congruence]].
    apply H2. split; [lia|]. by exists t.
  - intros j Hj. apply eq_None_not_Some. intros [i Hi].
    apply H2 in Hi as [Hlt _]. lia.
  - intros i j (Hj & t & Hy & Hd)%H1. apply Hd1 in Hd as [_ Hx].
    split; [lia|congruence].
Qed.
End ReorderAnyList.

Lemma balReorderTokenDicts_resolves_on_any_list_witness :
  exists o2s s2o w' ys,
    balReorderTokenDicts 0%nat (world_with ["0xBB"; "0xAA"; "0xBB"]) =
      (Ret (0%nat, o2s, s2o), w') /\
    heap w' !! 0%nat = Some ys /\ ys ≡ₚ ["0xBB"; "0xAA"; "0xBB"]%string /\
    Sorted str_le ys /\
    (forall j, (j < 3)%nat ->
       exists i, s2o !! j = Some i /\ (i < 3)%nat /\
                 ["0xBB"; "0xAA"; "0xBB"]%string !! i = ys !! j) /\
    (forall j, (3 <= j)%nat -> s2o !! j = None) /\
    (forall i j, o2s !! i = Some j ->
       (j < 3)%nat /\ ["0xBB"; "0xAA"; "0xBB"]%string !! i = ys !! j).
Proof.
  apply (balReorderTokenDicts_resolves_on_any_list 0%nat ["0xBB"; "0xAA"; "0xBB"]
           (world_with ["0xBB"; "0xAA"; "0xBB"])).
  reflexivity.
Defined.

(** With a repeated address the maps are no bijection any more: original
    position 0 has no entry in [originalIdxToSortedIdx]. *)
Example balReorderTokenDicts_repeated_address :
  exists w',
    balReorderTokenDicts 0%nat (world_with ["0xBB"; "0xAA"; "0xBB"]) =
      (Ret (0%nat, {[ 1%nat := 0%nat; 2%nat := 2%nat ]},
                   {[ 0%nat := 1%nat; 1%nat := 2%nat; 2%nat := 2%nat ]}), w').
Proof. eexists. vm_compute. reflexivity. Qed.

(** ** Reordering twice *)

Lemma set_heap_same (w : world) : set_heap (heap w) w = w.
Proof. by destruct w. Qed.

Section ReorderTwice.
Variables (tokens : loc) (xs : list string) (w : world).
Hypothesis Htokens : heap w !! tokens = Some xs.
Hypothesis Hunique : NoDup xs.

(** X2 (balReorderTokenDicts).
    After one reordering the caller's list is sorted, so a second
    reordering of the same list changes nothing and returns the identity
    for both maps: the caller's original order is not recoverable from
    it. *)
Theorem balReorderTokenDicts_twice_is_identity :
  exists o2s1 s2o1 w1 o2s2 s2o2,
    balReorderTokenDicts tokens w = (Ret (tokens, o2s1, s2o1), w1) /\
    balReorderTokenDicts tokens w1 = (Ret (tokens, o2s2, s2o2), w1) /\
    forall i, (i < length xs)%nat -> o2s2 !! i = Some i /\ s2o2 !! i = Some i.
Proof.
  set (ys := merge_sort str_le xs).
  assert (ys ≡ₚ xs) as Hp by apply merge_sort_Permutation.
  assert (NoDup ys) as Hnd by by rewrite Hp.
  assert (merge_sort str_le ys = ys) as Hfix.
  { symmetry. apply sort_unique; [done|apply Sorted_merge_sort, _]. }
  set (w1 := set_heap (<[tokens := ys]> (heap w)) w).
  assert (heap w1 !! tokens = Some ys) as Hys by apply lookup_insert_eq.
  destruct (index_maps_lookup ys ys Hnd (reflexivity _)) as [H1 H2].
  eexists _, _, w1, _, _. split; [by apply balReorderTokenDicts_run|]. split.
  - rewrite (balReorderTokenDicts_run tokens ys w1 Hys). cbv zeta. rewrite Hfix.
    f_equal. unfold w1 at 1 2. simpl. rewrite insert_insert_eq.
    fold w1. apply (set_heap_same w1).
  - intros i Hi. rewrite <-(Permutation_length Hp) in Hi.
    destruct (lookup_lt_is_Some_2 ys i Hi) as [t Ht].
    rewrite H1, H2. split; by exists t.
Qed.
End ReorderTwice.

Lemma balReorderTokenDicts_twice_is_identity_witness :
  exists o2s1 s2o1 w1 o2s2 s2o2,
    balReorderTokenDicts 0%nat (world_with bb_aa_cc) = (Ret (0%nat, o2s1, s2o1), w1) /\
    balReorderTokenDicts 0%nat w1 = (Ret (0%nat, o2s2, s2o2), w1) /\
    forall i, (i < length bb_aa_cc)%nat -> o2s2 !! i = Some i /\ s2o2 !! i = Some i.
Proof.
  apply (balReorderTokenDicts_twice_is_identity 0%nat bb_aa_cc (world_with bb_aa_cc)).
  - reflexivity.
  - exact bb_aa_cc_NoDup.
Defined.

(** ** The decimals cache *)

Section DecimalsCache.
Context `{!Collaborators}.

(** X3 (erc20GetDecimals).
    [erc20GetDecimals] asks the token at most once: an answer it returns is
    in the cache afterwards, a second call returns it again and does
    nothing, and a value already cached is returned without any call. *)
Theorem erc20GetDecimals_asks_once (t : string) (d : Z) (w w1 : world) :
  erc20GetDecimals t w = (Ret d, w1) ->
  erc20GetDecimals t w1 = (Ret d, w1) /\
  match decimals w !! t with
  | Some cached => d = cached /\ w1 = w
  | None =>
      d = erc20_answer (trace w) t QDecimals /\
      trace w1 = EvErc20Call t QDecimals :: trace w /\
      decimals w1 = <[t := d]> (decimals w)
  end.
Proof.
  intros Hrun. split.
  - apply erc20GetDecimals_cached.
    destruct (erc20GetDecimals_run is_read ltac:(done) t w) as (d' & w' & Hr & _ & Hd).
    congruence.
  - revert Hrun. unfold erc20GetDecimals, bind at 1, get_world.
    destruct (decimals w !! t) as [c|] eqn:Hc; [by intros [= <- <-]|].
    destruct (erc20GetContract_returns t w) as (w0 & Hg & Hd0).
    assert (trace w0 = trace w) as Ht0.
    { revert Hg. unfold erc20GetContract, bind, get_world.
      case_decide; by intros [= <-]. }
    erewrite bind_run by done.
    unfold bind, erc20_call, ask, ret. simpl. intros [= <- <-]. simpl.
    by rewrite Ht0, Hd0.
Qed.
End DecimalsCache.

Lemma erc20GetDecimals_asks_once_witness :
  let r := @erc20GetDecimals fixed_collaborators "0xAA" empty_world in
  @erc20GetDecimals fixed_collaborators "0xAA" r.2 = (Ret 18, r.2) /\
  match decimals empty_world !! "0xAA" with
  | Some cached => 18 = cached /\ r.2 = empty_world
  | None =>
      18 = @erc20_answer fixed_collaborators (trace empty_world) "0xAA" QDecimals /\
      trace r.2 = EvErc20Call "0xAA" QDecimals :: trace empty_world /\
      decimals r.2 = <["0xAA" := 18]> (decimals empty_world)
  end.
Proof.
  intros r.
  apply (@erc20GetDecimals_asks_once fixed_collaborators "0xAA" 18 empty_world r.2).
  vm_compute. reflexivity.
Defined.

(** ** The rate limiter *)

Section RateLimiter.
Context `{!Collaborators}.

(** X4 (getGasPriceEtherscanGwei).
    A quote of the gas price, whatever the speed and whatever the oracle
    does.  The quote first reads the clock and sleeps [(1/5 - dt) * 1.1]
    seconds exactly when the reading is less than [1/5] s after the last
    call; the length of that sleep is never negative and never NaN, so the
    sleep is not refused.  For an unknown speed the quote then reports the
    error and returns [False].  For a known speed it asks the oracle once.
    When the request raises, the quote raises the same and the time of the
    last call stays what it was.  When the request returns, the clock
    reading taken after it becomes the time of the last call, and the quote
    returns the field of the speed in the payload, or raises what the
    lookup of that field raises. *)
Theorem getGasPriceEtherscanGwei_rate_limit (speed : string) (w : world) :
  let sleeps := rate_limit_sleep (time_now (trace w)) (lastEtherscanCallTime w) in
  let tr1 := sleeps ++ EvTime :: trace w in
  Forall (fun e => match e with
                   | EvSleep seconds => sleep_accepts seconds = true
                   | _ => False
                   end) sleeps /\
  getGasPriceEtherscanGwei speed w =
    match etherscanSpeedDict !! speed with
    | None =>
        (Ret PyFalse, set_trace (EvError ("Speed entered is: " +:+ speed) :: tr1) w)
    | Some key =>
        match etherscan_get tr1 with
        | Raise e => (Raise e, set_trace (EvEtherscanGet :: tr1) w)
        | Ret response =>
            (match response key with
             | Ret price => Ret (Val price)
             | Raise e => Raise e
             end,
             set_lastEtherscanCallTime (time_now (EvEtherscanGet :: tr1))
               (set_trace (EvTime :: EvEtherscanGet :: tr1) w))
        end
    end.
Proof.
  unfold getGasPriceEtherscanGwei, rate_limit_sleep.
  unfold bind at 1. unfold time_time at 1, ask at 1.
  unfold bind at 1. unfold get_world at 1. cbn [trace set_trace lastEtherscanCallTime].
  destruct (_ <? _)%float eqn:Hdt.
  - split; [by constructor; [apply rate_limit_sleep_accepted|]|].
    unfold bind at 1, time_sleep. rewrite rate_limit_sleep_accepted by done.
    unfold emit. destruct (etherscanSpeedDict !! speed) as [key|]; [|done].
    unfold bind, ask, time_time, ret, lift. simpl.
    destruct (etherscan_get _) as [response|e]; simpl; [|done].
    by destruct (response key).
  - split; [done|]. unfold bind at 1, ret at 1.
    destruct (etherscanSpeedDict !! speed) as [key|]; [|done].
    unfold bind, ask, time_time, ret, lift. simpl.
    destruct (etherscan_get _) as [response|e]; simpl; [|done].
    by destruct (response key).
Qed.
End RateLimiter.

(** ** Receipt polling that succeeds *)

Section ReceiptFound.
Context `{!Collaborators}.
Variables (txHash : string) (delay : num).

Lemma getTxReceipt_loop_found (k : nat) (r : receipt) (xs : list nat) (w : world) :
  (k < length xs)%nat ->
  ((0 < k)%nat -> sleep_accepts delay = true) ->
  (forall j, (j < k)%nat -> exists e,
     transaction_receipt (failed_lookups j txHash delay ++ trace w) txHash = Raise e) ->
  transaction_receipt (failed_lookups k txHash delay ++ trace w) txHash = Ret r ->
  for_each xs tt (fun (i : nat) (_ : unit) =>
      try_except
        (let! receipt :=
           ask (EvGetTransactionReceipt txHash)
               (fun tr => transaction_receipt tr txHash) in
         ret (inl receipt))
        (fun e => time_sleep delay ;;! ret (inr tt))) w =
    (Ret (inl r) : result (receipt + unit),
     set_trace (EvGetTransactionReceipt txHash ::
                failed_lookups k txHash delay ++ trace w) w).
Proof.
  revert xs w. induction k as [|k IH]; intros [|x xs] w Hlen Hd Hfail Hfound;
    simpl in Hlen; try lia; simpl.
  - unfold bind at 1. unfold try_except at 1. unfold bind at 1. unfold ask at 1.
    simpl in Hfound. by rewrite Hfound.
  - unfold bind at 1. unfold try_except at 1. unfold bind at 1. unfold ask at 1.
    destruct (Hfail 0%nat ltac:(lia)) as [e He]. simpl in He. rewrite He. simpl.
    unfold bind at 1. rewrite time_sleep_run by (apply Hd; lia). unfold ret at 1.
    rewrite IH; simpl.
    + by rewrite failed_lookups_snoc.
    + lia.
    + intros _. apply Hd. lia.
    + intros j Hj. rewrite failed_lookups_snoc. apply Hfail. lia.
    + by rewrite failed_lookups_snoc.
Qed.

(** X5 (getTxReceipt).
    For a delay that [time.sleep] takes, not negative, not NaN and at most
    [sleep_max] seconds: when the first [k] lookups fail, with whatever
    exceptions, and the next one finds the receipt within the budget, the
    polling returns that receipt after exactly [k] sleeps of [delay] and
    [k + 1] lookups.  The delay does not matter when the first lookup
    succeeds. *)
Theorem getTxReceipt_found_after_failures (maxRetries : Z) (k : nat) (r : receipt)
    (w : world) :
  (k < Z.to_nat maxRetries)%nat ->
  ((0 < k)%nat ->
   sleep_accepts delay = true /\ num_ge (PInt sleep_max) delay = true) ->
  (forall j, (j < k)%nat -> exists e,
     transaction_receipt (failed_lookups j txHash delay ++ trace w) txHash = Raise e) ->
  transaction_receipt (failed_lookups k txHash delay ++ trace w) txHash = Ret r ->
  getTxReceipt txHash delay maxRetries w =
    (Ret (Val r),
     set_trace (EvGetTransactionReceipt txHash ::
                failed_lookups k txHash delay ++ trace w) w).
Proof.
  intros Hk Hd Hfail Hfound. unfold getTxReceipt.
  erewrite bind_run; [|apply (getTxReceipt_loop_found k r); [| |done..]].
  - done.
  - unfold range. by rewrite length_seq.
  - intros Hpos. by apply Hd.
Qed.


End ReceiptFound.

Lemma getTxReceipt_found_after_failures_witness :
  @getTxReceipt patient_collaborators "0xhash" (PInt 2) 5 empty_world =
    (Ret (Val (Receipt "0xhash" 1)),
     set_trace (EvGetTransactionReceipt "0xhash" ::
                failed_lookups 2 "0xhash" (PInt 2) ++ trace empty_world)
       empty_world).
Proof.
  apply (@getTxReceipt_found_after_failures patient_collaborators "0xhash" (PInt 2)
           5 2 (Receipt "0xhash" 1) empty_world).
  - vm_compute. lia.
  - intros _. split; reflexivity.
  - intros j Hj. exists KeyError.
    destruct j as [|[|j]]; [reflexivity|reflexivity|lia].
  - reflexivity.
Defined.


(** ** Balance checks *)

Section Balances.
Context `{!Collaborators}.

Lemma erc20GetContract_run (t : string) (w : world) :
  exists w',
    erc20GetContract t w = (Ret t, w') /\ trace w' = trace w /\
    decimals w' = decimals w /\ heap w' = heap w.
Proof. unfold erc20GetContract, bind, get_world. case_decide; by eexists. Qed.

Lemma erc20GetDecimals_events (t : string) (w : world) :
  exists d w',
    erc20GetDecimals t w = (Ret d, w') /\
    (trace w' = trace w \/ trace w' = EvErc20Call t QDecimals :: trace w).
Proof.
  unfold erc20GetDecimals, bind at 1, get_world.
  destruct (decimals w !! t) as [d|].
  - exists d, w. split; [done|by left].
  - destruct (erc20GetContract_run t w) as (w1 & Hc & Ht & _).
    erewrite bind_run by done.
    unfold bind, erc20_call, ask, ret. simpl.
    eexists _, _. split; [done|]. right. simpl. by rewrite Ht.
Qed.

Lemma erc20GetBalanceStandard_events (t : string) (w : world) (r : result num)
    (w' : world) :
  erc20GetBalanceStandard t w = (r, w') ->
  balance_calls (trace w') = t :: balance_calls (trace w) /\
  insufficient_reports (trace w') = insufficient_reports (trace w).
Proof.
  unfold erc20GetBalanceStandard.
  destruct (erc20GetContract_run t w) as (w1 & Hc & Ht1 & _).
  erewrite bind_run by done.
  destruct (erc20GetDecimals_events t w1) as (d & w2 & Hd & Ht2).
  erewrite bind_run by done.
  unfold bind, erc20_call, ask, lift. simpl. intros [= <- <-]. simpl.
  unfold balance_calls, insufficient_reports.
  destruct Ht2 as [-> | ->]; csimpl; by rewrite Ht1.
Qed.

Lemma erc20HasSufficientBalance_events (t : string) (amount : pyval) (b : bool)
    (w w' : world) :
  erc20HasSufficientBalance t amount w = (Ret b, w') ->
  balance_calls (trace w') = t :: balance_calls (trace w) /\
  insufficient_reports (trace w') =
    ((if b then 0 else 1) + insufficient_reports (trace w))%nat.
Proof.
  unfold erc20HasSufficientBalance.
  intros (bal & w1 & Hbal & Hrest)%bind_Ret_inv.
  apply erc20GetBalanceStandard_events in Hbal as [Hc Hi].
  apply bind_Ret_inv in Hrest as (need & w2 & [_ ->]%lift_Ret & Hrest).
  apply bind_Ret_inv in Hrest as (has & w2 & [_ ->]%lift_Ret & Hrest).
  apply bind_Ret_inv in Hrest as ([] & w2 & Herr & [= <- <-]).
  destruct (need <=? has)%float; simpl in Herr.
  - by injection Herr as <-.
  - unfold emit in Herr. injection Herr as <-. simpl.
    unfold balance_calls, insufficient_reports in *. csimpl.
    by rewrite Hc, Hi.
Qed.

(** X7 (erc20HasSufficientBalances).
    [erc20HasSufficientBalances], when it returns.  With as many amounts as
    tokens it asks the balance of every token, in the order of the list and
    also after a token has turned out short, and it returns [True] exactly
    when no insufficient balance was reported.  With a different number of
    amounts it returns [False] without asking any balance. *)
Theorem erc20HasSufficientBalances_checks_every_token (tokens : list string)
    (amounts : list pyval) (b : bool) (w w' : world) :
  erc20HasSufficientBalances tokens amounts w = (Ret b, w') ->
  if decide (length tokens = length amounts) then
    balance_calls (trace w') = reverse tokens ++ balance_calls (trace w) /\
    (b = true <->
     insufficient_reports (trace w') = insufficient_reports (trace w))
  else
    b = false /\ balance_calls (trace w') = balance_calls (trace w).
Proof.
  unfold erc20HasSufficientBalances.
  destruct (Nat.eqb_spec (length tokens) (length amounts)) as [Heq|Hne];
    case_decide; try done; simpl.
  - intros Hloop.
    assert (balance_calls (trace w') =
              reverse (take (length tokens) tokens) ++ balance_calls (trace w) /\
            exists k,
              insufficient_reports (trace w') =
                (k + insufficient_reports (trace w))%nat /\
              (b = true <-> k = 0%nat)) as [Hcalls (k & Hk & Hb)].
    { revert Hloop.
      apply (for_range_invariant (fun i acc wc =>
        balance_calls (trace wc) =
          reverse (take i tokens) ++ balance_calls (trace w) /\
        exists k,
          insufficient_reports (trace wc) =
            (k + insufficient_reports (trace w))%nat /\
          (acc = true <-> k = 0%nat))).
      - split; [done|]. by exists 0%nat.
      - intros i acc wc acc' wc' _ (Hc & k & Hk & Hacc).
        intros (t & w1 & [Ht ->]%index_Ret & Hrest)%bind_Ret_inv.
        apply bind_Ret_inv in Hrest as (a & w1 & [_ ->]%index_Ret & Hrest).
        apply bind_Ret_inv in Hrest as (cur & w1 & Hcheck & [= <- <-]).
        apply erc20HasSufficientBalance_events in Hcheck as [Hc1 Hi1].
        split.
        + by rewrite (take_S_r _ _ _ Ht), reverse_snoc, Hc1, Hc.
        + exists ((if cur then 0 else 1) + k)%nat. split; [lia|].
          rewrite andb_true_iff, Hacc. destruct cur; [split; [lia|]|split; [|lia]].
          * intros ?. split; [lia|done].
          * by intros [_ ?]. }
    rewrite firstn_all in Hcalls. split; [done|]. rewrite Hb. lia.
  - intros [= <- <-]. done.
Qed.
End Balances.

Lemma erc20HasSufficientBalances_checks_every_token_witness :
  let r :=
    @erc20HasSufficientBalances fixed_collaborators ["0xAA"; "0xBB"]
      [VNum (PInt 10); VNum (PInt 1)] empty_world in
  if decide (length ["0xAA"; "0xBB"]%string =
             length [VNum (PInt 10); VNum (PInt 1)]) then
    balance_calls (trace r.2) =
      reverse ["0xAA"; "0xBB"]%string ++ balance_calls (trace empty_world) /\
    (false = true <->
     insufficient_reports (trace r.2) = insufficient_reports (trace empty_world))
  else
    false = false /\ balance_calls (trace r.2) = balance_calls (trace empty_world).
Proof.
  intros r.
  apply (@erc20HasSufficientBalances_checks_every_token fixed_collaborators
           ["0xAA"; "0xBB"]%string [VNum (PInt 10); VNum (PInt 1)] false
           empty_world r.2).
  vm_compute. reflexivity.
Defined.

(** ** Target allowances of a pool description *)

Section TargetAllowances.
Context `{!Collaborators}.

Lemma token_entry_run (poolData : pool_data) (t : string) (w : world) :
  t ∈ (pd_tokens poolData).*1 ->
  exists entry,
    entry_of poolData t = Some entry /\
    token_entry poolData t w = (Ret entry, w).
Proof.
  intros (kv & -> & Hkv)%list_elem_of_fmap.
  destruct (list_find_elem_of (fun kv' => kv'.1 = kv.1) (pd_tokens poolData) kv)
    as [[i kv'] Hf]; [done..|].
  unfold entry_of, token_entry. rewrite Hf. by eexists.
Qed.

Lemma foldl_snoc_fmap {X Y} (g : X -> Y) (xs : list X) (acc : list Y) :
  foldl (flip (fun x a => a ++ [g x])) acc xs = acc ++ (g <$> xs).
Proof.
  revert acc. induction xs as [|x xs IH]; intros acc; simpl.
  - by rewrite app_nil_r.
  - rewrite IH. unfold flip. by rewrite <-(assoc_L (++)).
Qed.

Lemma erc20GetTargetAllowancesFromPoolData_run (poolDescription : pool_data)
    (w : world) :
  exists tokens allowances ys w',
    erc20GetTargetAllowancesFromPoolData poolDescription w =
      (Ret (tokens, allowances), w') /\
    heap w !! tokens = None /\
    heap w' = <[tokens := ys]> (heap w) /\ trace w' = trace w /\
    ys ≡ₚ (pd_tokens poolDescription).*1 /\ Sorted str_le ys /\
    Forall2 (fun t a => exists entry,
               entry_of poolDescription t = Some entry /\
               a = target_allowance_of entry) ys allowances /\
    Forall (fun a => num_eq a (PInt (-1)) = false) allowances.
Proof.
  set (keys := (pd_tokens poolDescription).*1).
  set (l := fresh (dom (heap w))).
  set (ys := merge_sort str_le keys).
  assert (ys ≡ₚ keys) as Hp by apply merge_sort_Permutation.
  set (g := fun t => match entry_of poolDescription t with
                     | Some entry => target_allowance_of entry
                     | None => PInt INFINITE
                     end).
  exists l, (g <$> ys), ys.
  unfold erc20GetTargetAllowancesFromPoolData. fold keys.
  erewrite bind_run by apply list_new_run. fold l.
  erewrite bind_run by apply balSortTokens_run, lookup_insert_eq.
  fold ys. cbv beta iota.
  erewrite bind_run by apply list_elems_run, lookup_insert_eq.
  erewrite bind_run; last first.
  { apply (for_in_pure _ _ (fun t a => a ++ [g t])).
    intros t a Ht. rewrite Hp in Ht.
    destruct (token_entry_run poolDescription t
                (set_heap (<[l:=ys]> (heap (set_heap (<[l:=keys]> (heap w)) w)))
                   (set_heap (<[l:=keys]> (heap w)) w)) Ht) as (entry & He & Hrun).
    erewrite bind_run by exact Hrun.
    unfold g. rewrite He. unfold target_allowance_of.
    by destruct (td_allowance entry). }
  rewrite foldl_snoc_fmap. simpl.
  eexists. split; [done|]. simpl. split_and!; try done.
  - apply not_elem_of_dom, is_fresh.
  - apply insert_insert_eq.
  - apply Sorted_merge_sort, _.
  - apply Forall2_fmap_r, Forall_Forall2_diag, Forall_forall. intros t Ht.
    rewrite Hp in Ht.
    destruct (token_entry_run poolDescription t w Ht) as (entry & He & _).
    exists entry. split; [done|]. unfold g. by rewrite He.
  - apply Forall_fmap, Forall_forall. intros t _. unfold g; simpl.
    destruct (entry_of poolDescription t) as [entry|]; [|done].
    unfold target_allowance_of.
    destruct (td_allowance entry) as [given|]; [|done].
    by destruct (num_eq given (PInt (-1))) eqn:Hg.
Qed.

(** X8 (erc20GetTargetAllowancesFromPoolData).
    [erc20GetTargetAllowancesFromPoolData], when it returns.  The token
    list it hands back is a new list object, the description's token
    addresses in ascending order; the allowance at each position is that of
    the token at the same position of this sorted list, not of the
    description's order; an absent or [-1] allowance has become
    [2^256 - 1], so no [-1] is handed on; nothing is asked of the chain and
    no list the caller holds is changed. *)
Theorem erc20GetTargetAllowancesFromPoolData_aligned (poolDescription : pool_data)
    (tokens : loc) (allowances : list num) (w w' : world) :
  erc20GetTargetAllowancesFromPoolData poolDescription w =
    (Ret (tokens, allowances), w') ->
  exists ys,
    heap w !! tokens = None /\
    heap w' = <[tokens := ys]> (heap w) /\ trace w' = trace w /\
    ys ≡ₚ (pd_tokens poolDescription).*1 /\ Sorted str_le ys /\
    Forall2 (fun t a => exists entry,
               entry_of poolDescription t = Some entry /\
               a = target_allowance_of entry) ys allowances /\
    Forall (fun a => num_eq a (PInt (-1)) = false) allowances.
Proof.
  intros Hrun.
  destruct (erc20GetTargetAllowancesFromPoolData_run poolDescription w)
    as (tokens0 & allowances0 & ys & w0 & Hrun0 & Hrest).
  rewrite Hrun0 in Hrun. injection Hrun as <- <- <-. by exists ys.
Qed.
End TargetAllowances.

Lemma erc20GetTargetAllowancesFromPoolData_aligned_witness :
  let poolDescription := pool_owned_by "0x123" in
  let r :=
    @erc20GetTargetAllowancesFromPoolData fixed_collaborators poolDescription
      empty_world in
  r.1 = Ret (0%nat, [PInt INFINITE; PInt INFINITE]) /\
  exists ys,
    heap empty_world !! 0%nat = None /\
    heap r.2 = <[0%nat := ys]> (heap empty_world) /\
    trace r.2 = trace empty_world /\
    ys ≡ₚ (pd_tokens poolDescription).*1 /\ Sorted str_le ys /\
    Forall2 (fun t a => exists entry,
               entry_of poolDescription t = Some entry /\
               a = target_allowance_of entry) ys [PInt INFINITE; PInt INFINITE] /\
    Forall (fun a => num_eq a (PInt (-1)) = false) [PInt INFINITE; PInt INFINITE].
Proof.
  intros poolDescription r. split; [vm_compute; reflexivity|].
  apply (@erc20GetTargetAllowancesFromPoolData_aligned fixed_collaborators
           poolDescription 0%nat [PInt INFINITE; PInt INFINITE] empty_world r.2).
  vm_compute. reflexivity.
Defined.

(** ** Conversion to raw units *)

Section ConvertToWei.
Context `{!Collaborators}.

Lemma wei_ok_mono (tokens : list string) (amounts : list num) (w w' : world)
    (i : nat) (raw : Z) :
  decimals w ⊆ decimals w' ->
  wei_ok tokens amounts w i raw -> wei_ok tokens amounts w' i raw.
Proof.
  intros Hsub (t & a & d & sc & ? & ? & Hd & ? & ?).
  exists t, a, d, sc. split_and!; try done. by eapply lookup_weaken.
Qed.

(** X9 (balConvertTokensToWei).
    [balConvertTokensToWei], when it returns: [False] exactly when the two
    lists differ in length; otherwise one raw amount per token, in the order
    of the lists, each the amount at its position multiplied by ten to the
    decimals of the token at that position and truncated.  It reads the
    decimals through the cache and submits nothing. *)
Theorem balConvertTokensToWei_elementwise (tokens : list string)
    (amounts : list num) (r : or_false (list Z)) (w w' : world) :
  balConvertTokensToWei tokens amounts w = (Ret r, w') ->
  reads is_read w w' /\
  match r with
  | PyFalse => length tokens <> length amounts
  | Val raws =>
      length tokens = length amounts /\ length raws = length tokens /\
      forall i raw, raws !! i = Some raw -> wei_ok tokens amounts w' i raw
  end.
Proof.
  unfold balConvertTokensToWei.
  destruct (Nat.eqb_spec (length tokens) (length amounts)) as [Heq|Hne]; simpl.
  - intros (raws & w1 & Hloop & [= <- <-])%bind_Ret_inv.
    assert (reads is_read w w1 /\ length raws = length tokens /\
            forall j raw, raws !! j = Some raw -> wei_ok tokens amounts w1 j raw)
      as (Hr & Hlen & Hok).
    { revert Hloop.
      apply (for_range_invariant (fun i acc wc =>
        reads is_read w wc /\ length acc = i /\
        forall j raw, acc !! j = Some raw -> wei_ok tokens amounts wc j raw)).
      - split; [by apply reads_refl|]. split; [done|]. intros j v.
        by rewrite lookup_nil.
      - intros i acc wc acc' wc' _ (Hr & Hl & Hok).
        intros (t & w1' & [Ht ->]%index_Ret & Hrest)%bind_Ret_inv.
        apply bind_Ret_inv in Hrest as (a & w1' & [Ha ->]%index_Ret & Hrest).
        apply bind_Ret_inv in Hrest as (d & w2 & Hdec & Hrest).
        destruct (erc20GetDecimals_run is_read ltac:(done) t wc)
          as (d' & w2' & Hrun & Hr' & Hd).
        rewrite Hrun in Hdec. injection Hdec as <- <-.
        apply bind_Ret_inv in Hrest as (sc & w3 & [Hsc ->]%lift_Ret & Hrest).
        apply bind_Ret_inv in Hrest as (raw & w3 & [Hraw ->]%lift_Ret & [= <- <-]).
        split; [by eapply reads_trans|].
        split; [rewrite length_app; simpl; lia|].
        intros j raw' Hj. destruct (decide (j < length acc)%nat) as [Hlt|Hge].
        + rewrite lookup_app_l in Hj by done.
          eapply wei_ok_mono; [apply Hr'|by apply Hok].
        + rewrite lookup_app_r in Hj by lia.
          destruct (j - length acc)%nat as [|n] eqn:Hn; simpl in Hj; [|done].
          injection Hj as <-. replace j with i by lia.
          by exists t, a, d', sc. }
    done.
  - intros (? & w1 & Herr & [= <- <-])%bind_Ret_inv. split; [|done].
    unfold ERROR, emit in Herr. injection Herr as Herr. subst w1.
    by apply reads_event.
Qed.
End ConvertToWei.

Lemma balConvertTokensToWei_elementwise_witness :
  let r :=
    @balConvertTokensToWei fixed_collaborators ["0xAA"; "0xBB"]
      [PFloat 1.5; PInt 2] empty_world in
  reads is_read empty_world r.2 /\
  length ["0xAA"; "0xBB"]%string = length [PFloat 1.5; PInt 2] /\
  length [1500000000000000000; 2000000000000000000] =
    length ["0xAA"; "0xBB"]%string /\
  forall i raw,
    [1500000000000000000; 2000000000000000000] !! i = Some raw ->
    @wei_ok fixed_collaborators ["0xAA"; "0xBB"] [PFloat 1.5; PInt 2] r.2 i raw.
Proof.
  intros r.
  apply (@balConvertTokensToWei_elementwise fixed_collaborators
           ["0xAA"; "0xBB"]%string [PFloat 1.5; PInt 2]
           (Val [1500000000000000000; 2000000000000000000]) empty_world r.2).
  vm_compute. reflexivity.
Defined.

(** ** The pool factories *)

Section Factories.
Context `{!Collaborators}.

Lemma token_weight_Ret (poolData : pool_data) (t : string) (x : num) (w w' : world) :
  token_weight poolData t w = (Ret x, w') -> weight_of poolData t = Some x /\ w' = w.
Proof.
  unfold token_weight, weight_of, entry_of.
  destruct (list_find _ _) as [[i kv]|]; [|done]. by intros [= <- <-].
Qed.

Lemma intWithDecimalsWeights_Ret (poolData : pool_data) (tokens : loc)
    (ws : list Z) (w w' : world) :
  intWithDecimalsWeights_of poolData tokens w = (Ret ws, w') ->
  exists ys,
    heap w !! tokens = Some ys /\ w' = w /\
    Forall2 (scaled_weight_ok poolData) ys ws.
Proof.
  unfold intWithDecimalsWeights_of.
  intros (ys & w1 & [Hys ->]%list_elems_Ret & Hloop)%bind_Ret_inv.
  exists ys. split; [done|]. revert Hloop.
  apply (for_in_invariant (fun pre acc wc =>
    wc = w /\ Forall2 (scaled_weight_ok poolData) pre acc) _ _ []).
  - by split.
  - intros pre t acc wc acc' wc' [-> Hok].
    intros (x & w1 & [Hx ->]%token_weight_Ret & Hrest)%bind_Ret_inv.
    apply bind_Ret_inv in Hrest as (sc & w1 & [Hsc ->]%lift_Ret & Hrest).
    apply bind_Ret_inv in Hrest as (z & w1 & [Hz ->]%lift_Ret & [= <- <-]).
    split; [done|]. apply Forall2_app; [done|]. constructor; [|done].
    by exists x, sc.
Qed.

Lemma swapFeePercentage_Ret (poolData : pool_data) (fee : Z) (w w' : world) :
  swapFeePercentage_of poolData w = (Ret fee, w') -> w' = w.
Proof.
  unfold swapFeePercentage_of.
  intros (sc & w1 & [_ ->]%lift_Ret & [_ ->]%lift_Ret)%bind_Ret_inv. done.
Qed.

Lemma balWeightsEqualOne_Ret (poolData : pool_data) (ok : bool) (w w' : world) :
  balWeightsEqualOne poolData w = (Ret ok, w') ->
  exists sum,
    weight_sum poolData (pd_tokens poolData).*1 (PFloat 0) = Ret sum /\
    ok = num_eq sum (PFloat 1) /\ heap w' = heap w.
Proof.
  unfold balWeightsEqualOne, bind at 1. rewrite weight_loop_run.
  destruct (weight_sum _ _ _) as [sum|e]; [|done].
  intros Hrun. exists sum. split; [done|]. revert Hrun.
  destruct (num_eq sum (PFloat 1)); simpl; unfold bind, emit, ret;
    by intros [= <- <-].
Qed.

Lemma balSetOwner_Ret (poolData : pool_data) (owner : or_false string)
    (w w' : world) :
  balSetOwner poolData w = (Ret owner, w') ->
  owner = owner_of poolData /\ heap w' = heap w /\
  (owner = PyFalse -> exists text, trace w' = EvError text :: trace w).
Proof.
  unfold balSetOwner, owner_of. destruct (pd_owner poolData) as [o|].
  - destruct (py_len o =? 42)%nat; simpl; unfold bind, emit, ret;
      intros [= <- <-]; [done|]. split; [done|]. split; [done|]. by eexists.
  - by intros [= <- <-].
Qed.

(** The sorted keys of a description in a new list object: the start of
    both factory methods. *)
Lemma sorted_keys_run {A} (poolData : pool_data) (k : loc * list string -> Py A)
    (w : world) :
  let keys := (pd_tokens poolData).*1 in
  let l := fresh (dom (heap w)) in
  let ys := merge_sort str_le keys in
  (let! keys := list_new keys in
   let! r := balSortTokens keys in
   k r) w =
  k (l, toChecksumAddress <$> ys) (set_heap (<[l := ys]> (heap w)) w).
Proof.
  intros keys l ys.
  erewrite bind_run by apply list_new_run. fold l.
  erewrite bind_run by apply balSortTokens_run, lookup_insert_eq.
  fold ys. simpl. by rewrite insert_insert_eq.
Qed.

Lemma fresh_list_keeps_others (w : world) (ys : list string) (l : loc)
    (xs : list string) :
  heap w !! l = Some xs ->
  <[fresh (dom (heap w)) := ys]> (heap w) !! l = Some xs.
Proof.
  intros Hl. rewrite lookup_insert_ne; [done|]. intros <-.
  by apply (is_fresh (dom (heap w))), elem_of_dom.
Qed.

(** X10 (balCreateFnWeightedPoolFactory).
    The weighted factory, when it returns.  It returns [False] exactly when
    the weights, added as doubles in the order of the description, do not
    compare equal to [1.0].  In the call it builds otherwise, the tokens
    are the description's addresses in ascending order, in checksum form,
    and the weight at each position is [int(weight * 1e18)] of the token at
    that position of the sorted list.  Sorting is done on a list of its
    own: no list the caller holds is changed. *)
Theorem balCreateFnWeightedPoolFactory_aligned (poolData : pool_data)
    (r : or_false contract_fn) (w w' : world) :
  balCreateFnWeightedPoolFactory poolData w = (Ret r, w') ->
  (forall l xs, heap w !! l = Some xs -> heap w' !! l = Some xs) /\
  exists sum,
    weight_sum poolData (pd_tokens poolData).*1 (PFloat 0) = Ret sum /\
    match r with
    | PyFalse => num_eq sum (PFloat 1) = false
    | Val fn =>
        num_eq sum (PFloat 1) = true /\
        exists ys weights fee,
          fn = FnCreateWeighted (pd_name poolData) (pd_symbol poolData)
                 (toChecksumAddress <$> ys) weights fee (owner_of poolData) /\
          ys ≡ₚ (pd_tokens poolData).*1 /\ Sorted str_le ys /\
          Forall2 (scaled_weight_ok poolData) ys weights
    end.
Proof.
  unfold balCreateFnWeightedPoolFactory.
  rewrite (sorted_keys_run poolData (fun '(tokens, checksumTokens) => _)).
  set (ys := merge_sort str_le (pd_tokens poolData).*1).
  set (w1 := set_heap _ w).
  intros (ws & w2 & (ys' & Hys & -> & Hws)%intWithDecimalsWeights_Ret & Hrest)
    %bind_Ret_inv.
  simpl in Hys. rewrite lookup_insert_eq in Hys. injection Hys as <-.
  apply bind_Ret_inv in Hrest as (fee & w2 & ->%swapFeePercentage_Ret & Hrest).
  apply bind_Ret_inv in Hrest as (ok & w2 & Hok & Hrest).
  apply balWeightsEqualOne_Ret in Hok as (sum & Hsum & -> & Hh2).
  assert (forall w3, heap w3 = heap w2 ->
            forall l xs, heap w !! l = Some xs -> heap w3 !! l = Some xs) as Hkeep.
  { intros w3 -> l xs Hl. rewrite Hh2. by apply fresh_list_keeps_others. }
  destruct (num_eq sum (PFloat 1)) eqn:Heq; simpl in Hrest.
  - apply bind_Ret_inv in Hrest as (owner & w3 & (-> & Hh3 & _)%balSetOwner_Ret & Hrest).
    apply bind_Ret_inv in Hrest as (fn & w4 & (-> & -> & _)%build_call_Ret & Hrest).
    injection Hrest as <- <-. split; [by apply Hkeep|].
    exists sum. split; [done|]. split; [done|].
    exists ys, ws, fee. split; [done|].
    split; [apply merge_sort_Permutation|]. split; [apply Sorted_merge_sort, _|done].
  - injection Hrest as <- <-. split; [by apply Hkeep|]. by exists sum.
Qed.

Lemma bind_same_trace {A B} (m : Py A) (k : A -> Py B) :
  (forall w, trace (m w).2 = trace w) ->
  (forall a w, trace (k a w).2 = trace w) ->
  forall w, trace (bind m k w).2 = trace w.
Proof.
  intros Hm Hk w. unfold bind. specialize (Hm w).
  destruct (m w) as [[a|e] w1]; simpl in *; [|done]. by rewrite Hk.
Qed.

Lemma for_in_same_trace {X St} (xs : list X) (body : X -> St -> Py St) (acc : St) :
  (forall x a w, trace (body x a w).2 = trace w) ->
  forall w, trace (for_in xs acc body w).2 = trace w.
Proof.
  intros Hb. revert acc. induction xs as [|x xs IH]; intros acc; simpl; [done|].
  apply bind_same_trace; [apply Hb|]. intros a. apply IH.
Qed.

Lemma intWithDecimalsWeights_same_trace (poolData : pool_data) (l : loc) (w : world) :
  trace (intWithDecimalsWeights_of poolData l w).2 = trace w.
Proof.
  revert w. unfold intWithDecimalsWeights_of. apply bind_same_trace.
  { intros w. unfold list_elems. by destruct (heap w !! l). }
  intros ts. apply for_in_same_trace. intros t acc.
  apply bind_same_trace.
  { intros w. unfold token_weight. by destruct (list_find _ _) as [[i kv]|]. }
  intros x. apply bind_same_trace; [done|]. intros sc.
  apply bind_same_trace; [done|]. done.
Qed.

Lemma swapFeePercentage_same_trace (poolData : pool_data) (w : world) :
  trace (swapFeePercentage_of poolData w).2 = trace w.
Proof.
  revert w. unfold swapFeePercentage_of. apply bind_same_trace; [done|]. done.
Qed.

(** X11 (balCreateFnWeightedPoolFactory, balSetOwner).
    With an owner entry that is not 42 characters long the weighted factory
    never returns a create call.  It returns [False] when the weights do
    not compare equal to [1.0].  When they do, [balSetOwner] reports the
    error and hands back [False], the factory goes on to build the create
    call with [False] in the place of the owner address, and that is
    refused: the factory raises [ValidationError] after the one report.
    The only other way out is a conversion of a weight or of the fee that
    raises before anything is reported. *)
Theorem balCreateFnWeightedPoolFactory_malformed_owner (poolData : pool_data)
    (ownerAddress : string) (r : result (or_false contract_fn)) (w w' : world) :
  pd_owner poolData = Some ownerAddress ->
  py_len ownerAddress <> 42%nat ->
  balCreateFnWeightedPoolFactory poolData w = (r, w') ->
  match r with
  | Ret (Val fn) => False
  | Ret PyFalse =>
      exists sum,
        weight_sum poolData (pd_tokens poolData).*1 (PFloat 0) = Ret sum /\
        num_eq sum (PFloat 1) = false
  | Raise e =>
      trace w' = trace w \/
      e = ValidationError /\
      (exists sum,
         weight_sum poolData (pd_tokens poolData).*1 (PFloat 0) = Ret sum /\
         num_eq sum (PFloat 1) = true) /\
      trace w' =
        EvError ("Entry for " +:+ quoted "owner" +:+
                 " must be a 42 character Ethereum address beginning with " +:+
                 quoted "0x") :: trace w
  end.
Proof.
  intros Howner Hlen. unfold balCreateFnWeightedPoolFactory.
  rewrite (sorted_keys_run poolData (fun '(tokens, checksumTokens) => _)).
  set (w1 := set_heap _ w).
  intros [(ws & w2 & Hws & Hrest)|(e & Hws & ->)]%bind_inv; last first.
  { left. pose proof (intWithDecimalsWeights_same_trace poolData
                        (fresh (dom (heap w))) w1) as Ht.
    by rewrite Hws in Ht. }
  pose proof (intWithDecimalsWeights_same_trace poolData
                (fresh (dom (heap w))) w1) as Ht2.
  rewrite Hws in Ht2. simpl in Ht2.
  apply bind_inv in Hrest as [(fee & w3 & Hfee & Hrest)|(e & Hfee & ->)]; last first.
  { left. pose proof (swapFeePercentage_same_trace poolData w2) as Ht.
    rewrite Hfee in Ht. simpl in Ht. congruence. }
  pose proof (swapFeePercentage_same_trace poolData w2) as Ht3.
  rewrite Hfee in Ht3. simpl in Ht3.
  revert Hrest. unfold bind at 1, balWeightsEqualOne, bind at 1.
  rewrite weight_loop_run.
  destruct (weight_sum _ _ _) as [sum|e] eqn:Hsum; last first.
  { intros [= <- <-]. left. congruence. }
  destruct (num_eq sum (PFloat 1)) eqn:Heq; simpl.
  - unfold bind at 1, ret at 1. unfold bind at 1, balSetOwner. rewrite Howner.
    destruct (Nat.eqb_spec (py_len ownerAddress) 42) as [|_]; [done|]. simpl.
    unfold bind, ERROR, emit, ret, build_call. simpl.
    intros [= <- <-]. right. split; [done|]. split; [by exists sum|].
    simpl. congruence.
  - unfold bind, ERROR, emit, ret. simpl. intros [= <- <-]. by exists sum.
Qed.

(** X12 (balCreateFnWeightedPool2TokensFactory).
    The two-token factory returns only for a description of exactly two
    tokens.  Then it returns [False] exactly when the weights do not compare
    equal to [1.0], and otherwise a create call whose tokens are the two
    addresses in ascending order, whose weights follow that order, and whose
    oracle flag is the description's, a string counting as true exactly
    when its lower-case form is [true], and an absent entry as false. *)
Theorem balCreateFnWeightedPool2TokensFactory_two_tokens (poolData : pool_data)
    (r : or_false contract_fn) (w w' : world) :
  balCreateFnWeightedPool2TokensFactory poolData w = (Ret r, w') ->
  length (pd_tokens poolData) = 2%nat /\
  (forall l xs, heap w !! l = Some xs -> heap w' !! l = Some xs) /\
  exists sum,
    weight_sum poolData (pd_tokens poolData).*1 (PFloat 0) = Ret sum /\
    match r with
    | PyFalse => num_eq sum (PFloat 1) = false
    | Val fn =>
        num_eq sum (PFloat 1) = true /\
        exists ys weights fee,
          fn = FnCreateWeighted2Tokens (pd_name poolData) (pd_symbol poolData)
                 (toChecksumAddress <$> ys) weights fee
                 match pd_oracleEnabled poolData with
                 | Some (inl b) => b
                 | Some (inr text) => bool_decide (str_lower text = "true")
                 | None => false
                 end
                 (owner_of poolData) /\
          ys ≡ₚ (pd_tokens poolData).*1 /\ Sorted str_le ys /\
          Forall2 (scaled_weight_ok poolData) ys weights
    end.
Proof.
  intros Hrun.
  assert (length (pd_tokens poolData) = 2%nat) as Hlen.
  { destruct (decide (length (pd_tokens poolData) = 2%nat)) as [|Hne]; [done|].
    destruct (balCreateFnWeightedPool2TokensFactory_wrong_count poolData w Hne)
      as (w0 & Hraise & _). congruence. }
  split; [done|]. revert Hrun. unfold balCreateFnWeightedPool2TokensFactory.
  rewrite (sorted_keys_run poolData (fun '(tokens, checksumTokens) => _)).
  set (ys := merge_sort str_le (pd_tokens poolData).*1).
  set (w1 := set_heap _ w).
  erewrite bind_run by (apply list_len_run; apply lookup_insert_eq).
  assert (length ys = 2%nat) as ->.
  { unfold ys. by rewrite (Permutation_length (merge_sort_Permutation _ _)), length_fmap. }
  simpl.
  intros (ok & w2 & Hok & Hrest)%bind_Ret_inv.
  apply balWeightsEqualOne_Ret in Hok as (sum & Hsum & -> & Hh2).
  assert (forall w3, heap w3 = heap w2 ->
            forall l xs, heap w !! l = Some xs -> heap w3 !! l = Some xs) as Hkeep.
  { intros w3 -> l xs Hl. rewrite Hh2. by apply fresh_list_keeps_others. }
  destruct (num_eq sum (PFloat 1)) eqn:Heq; simpl in Hrest.
  - apply bind_Ret_inv in Hrest
      as (ws & w3 & (ys' & Hys & -> & Hws)%intWithDecimalsWeights_Ret & Hrest).
    rewrite Hh2 in Hys. simpl in Hys. rewrite lookup_insert_eq in Hys.
    injection Hys as <-.
    apply bind_Ret_inv in Hrest as (fee & w3 & ->%swapFeePercentage_Ret & Hrest).
    apply bind_Ret_inv in Hrest as (owner & w3 & (-> & Hh3 & _)%balSetOwner_Ret & Hrest).
    apply bind_Ret_inv in Hrest as (fn & w4 & (-> & -> & _)%build_call_Ret & Hrest).
    injection Hrest as <- <-. split; [apply Hkeep; congruence|].
    exists sum. split; [done|]. split; [done|].
    exists ys, ws, fee. split; [done|].
    split; [apply merge_sort_Permutation|]. split; [apply Sorted_merge_sort, _|done].
  - injection Hrest as <- <-. split; [by apply Hkeep|]. by exists sum.
Qed.
End Factories.

Lemma balCreateFnWeightedPoolFactory_aligned_witness :
  let poolData := pool_of [("0xBB", PFloat 0.25); ("0xAA", PFloat 0.75)] in
  let r := @balCreateFnWeightedPoolFactory fixed_collaborators poolData empty_world in
  (forall l xs, heap empty_world !! l = Some xs -> heap r.2 !! l = Some xs) /\
  exists sum,
    weight_sum poolData (pd_tokens poolData).*1 (PFloat 0) = Ret sum /\
    num_eq sum (PFloat 1) = true /\
    exists ys weights fee,
      FnCreateWeighted "pool" "BPT" ["0xAA"; "0xBB"]
        [750000000000000000; 250000000000000000] 3000000000000000
        (Val ZERO_ADDRESS) =
      FnCreateWeighted (pd_name poolData) (pd_symbol poolData)
        (@toChecksumAddress fixed_collaborators <$> ys) weights fee
        (@owner_of fixed_collaborators poolData) /\
      ys ≡ₚ (pd_tokens poolData).*1 /\ Sorted str_le ys /\
      Forall2 (scaled_weight_ok poolData) ys weights.
Proof.
  intros poolData r.
  apply (@balCreateFnWeightedPoolFactory_aligned fixed_collaborators poolData
           (Val (FnCreateWeighted "pool" "BPT" ["0xAA"; "0xBB"]
                   [750000000000000000; 250000000000000000] 3000000000000000
                   (Val ZERO_ADDRESS)))
           empty_world r.2).
  vm_compute. reflexivity.
Defined.

Lemma balCreateFnWeightedPoolFactory_malformed_owner_witness :
  let r :=
    @balCreateFnWeightedPoolFactory fixed_collaborators (pool_owned_by "0x123")
      empty_world in
  r.1 = Raise ValidationError /\
  (trace r.2 = trace empty_world \/
   ValidationError = ValidationError /\
   (exists sum,
      weight_sum (pool_owned_by "0x123") (pd_tokens (pool_owned_by "0x123")).*1
        (PFloat 0) = Ret sum /\
      num_eq sum (PFloat 1) = true) /\
   trace r.2 =
     EvError ("Entry for " +:+ quoted "owner" +:+
              " must be a 42 character Ethereum address beginning with " +:+
              quoted "0x") :: trace empty_world).
Proof.
  intros r. split; [vm_compute; reflexivity|].
  apply (@balCreateFnWeightedPoolFactory_malformed_owner fixed_collaborators
           (pool_owned_by "0x123") "0x123" (Raise ValidationError) empty_world r.2).
  - reflexivity.
  - vm_compute. lia.
  - vm_compute. reflexivity.
Defined.

Lemma balCreateFnWeightedPool2TokensFactory_two_tokens_witness :
  let owner := "0x00000000000000000000000000000000000000AB"%string in
  let poolData := pool_owned_by owner in
  let r :=
    @balCreateFnWeightedPool2TokensFactory fixed_collaborators poolData empty_world in
  length (pd_tokens poolData) = 2%nat /\
  (forall l xs, heap empty_world !! l = Some xs -> heap r.2 !! l = Some xs) /\
  exists sum,
    weight_sum poolData (pd_tokens poolData).*1 (PFloat 0) = Ret sum /\
    num_eq sum (PFloat 1) = true /\
    exists ys weights fee,
      FnCreateWeighted2Tokens "pool" "BPT" ["0xAA"; "0xBB"]
        [500000000000000000; 500000000000000000] 3000000000000000 true
        (Val (@toChecksumAddress fixed_collaborators owner)) =
      FnCreateWeighted2Tokens (pd_name poolData) (pd_symbol poolData)
        (@toChecksumAddress fixed_collaborators <$> ys) weights fee
        match pd_oracleEnabled poolData with
        | Some (inl b) => b
        | Some (inr text) => bool_decide (str_lower text = "true")
        | None => false
        end
        (@owner_of fixed_collaborators poolData) /\
      ys ≡ₚ (pd_tokens poolData).*1 /\ Sorted str_le ys /\
      Forall2 (scaled_weight_ok poolData) ys weights.
Proof.
  intros owner poolData r.
  apply (@balCreateFnWeightedPool2TokensFactory_two_tokens fixed_collaborators
           poolData
           (Val (FnCreateWeighted2Tokens "pool" "BPT" ["0xAA"; "0xBB"]
                   [500000000000000000; 500000000000000000] 3000000000000000
                   true (Val (@toChecksumAddress fixed_collaborators owner))))
           empty_world r.2).
  vm_compute. reflexivity.
Defined.

(** ** Methods that only read *)

Lemma only_reads_refl (w : world) : only_reads w w.
Proof. by exists []. Qed.

Lemma only_reads_trans (w1 w2 w3 : world) :
  only_reads w1 w2 -> only_reads w2 w3 -> only_reads w1 w3.
Proof.
  intros (evs1 & Ht1 & He1) (evs2 & Ht2 & He2).
  exists (evs2 ++ evs1). split; [by rewrite Ht2, Ht1, (assoc_L (++))|].
  by apply Forall_app.
Qed.

Lemma only_reads_unchanged (w w' : world) :
  only_reads w w' -> submissions_unchanged w w'.
Proof.
  intros (evs & Ht & He). unfold submissions_unchanged, sent, waited, nonce_fetches.
  rewrite Ht, !omap_app, !(omap_allowed is_read _ evs) by (done || by intros []).
  done.
Qed.

Lemma silent_same_trace {A} (m : Py A) :
  (forall w, trace (m w).2 = trace w) -> silent m.
Proof. intros Hm w. exists []. by rewrite Hm. Qed.

Lemma silent_of_quiet {A} (m : Py A) : quiet is_read m -> silent m.
Proof. intros Hq w. by destruct (Hq w) as (_ & _ & Hr). Qed.

Lemma silent_ret {A} (a : A) : silent (ret a).
Proof. intros w. apply only_reads_refl. Qed.

Lemma silent_lift {A} (r : result A) : silent (lift r).
Proof. intros w. apply only_reads_refl. Qed.

Lemma silent_bind {A B} (m : Py A) (k : A -> Py B) :
  silent m -> (forall a, silent (k a)) -> silent (bind m k).
Proof.
  intros Hm Hk w. unfold bind. specialize (Hm w).
  destruct (m w) as [[a|e] w1]; simpl in *; [|done].
  eapply only_reads_trans; [done|]. apply Hk.
Qed.

Lemma silent_for_in {X St} (xs : list X) (body : X -> St -> Py St) (acc : St) :
  (forall x a, silent (body x a)) -> silent (for_in xs acc body).
Proof.
  intros Hb. revert acc. induction xs as [|x xs IH]; intros acc; simpl.
  - apply silent_ret.
  - apply silent_bind; [apply Hb|]. intros a. apply IH.
Qed.

Lemma silent_list_len (l : loc) : silent (list_len l).
Proof. apply silent_same_trace. intros w. unfold list_len. by destruct (heap w !! l). Qed.

Lemma silent_list_get (l : loc) (i : nat) : silent (list_get l i).
Proof.
  apply silent_same_trace. intros w. unfold list_get.
  destruct (heap w !! l) as [xs|]; [|done]. by destruct (xs !! i).
Qed.

Lemma silent_list_sort (l : loc) : silent (list_sort l).
Proof. apply silent_same_trace. intros w. unfold list_sort. by destruct (heap w !! l). Qed.

Lemma silent_list_elems (l : loc) : silent (list_elems l).
Proof. apply silent_same_trace. intros w. unfold list_elems. by destruct (heap w !! l). Qed.

Lemma silent_list_new (xs : list string) : silent (list_new xs).
Proof. by apply silent_same_trace. Qed.

Lemma silent_dict_get `{Countable K} {V} (d : gmap K V) (k : K) : silent (dict_get d k).
Proof. apply silent_same_trace. intros w. unfold dict_get. by destruct (d !! k). Qed.

Lemma silent_balReorderTokenDicts (tokens : loc) : silent (balReorderTokenDicts tokens).
Proof.
  unfold balReorderTokenDicts.
  apply silent_bind; [apply silent_list_len|]. intros n.
  apply silent_bind.
  { apply silent_for_in. intros i d.
    apply silent_bind; [apply silent_list_get|]. intros t. apply silent_ret. }
  intros d. apply silent_bind; [apply silent_list_sort|]. intros _.
  apply silent_bind; [apply silent_list_len|]. intros n'.
  apply silent_bind; [|intros [o2s s2o]; apply silent_ret].
  apply silent_for_in. intros i [o2s s2o].
  apply silent_bind; [apply silent_list_get|]. intros t.
  apply silent_bind; [apply silent_dict_get|]. intros k.
  apply silent_bind; [apply silent_list_get|]. intros t'.
  apply silent_bind; [apply silent_dict_get|]. intros k'. apply silent_ret.
Qed.

Section Silent.
Context `{!Collaborators}.

Lemma silent_index {A} (xs : list A) (i : nat) : silent (index xs i).
Proof. apply silent_same_trace. intros w. unfold index. by destruct (xs !! i). Qed.

Lemma silent_dict_get_int {V} (d : gmap nat V) (z : Z) : silent (dict_get_int d z).
Proof.
  unfold dict_get_int. destruct (z <? 0); [by apply silent_same_trace|].
  apply silent_dict_get.
Qed.

Lemma silent_ERROR (args : list string) : silent (ERROR args).
Proof. by apply silent_of_quiet, quiet_ERROR. Qed.

Lemma silent_build_call (fn : contract_fn) : silent (build_call fn).
Proof. by apply silent_of_quiet, quiet_build_call. Qed.

Lemma silent_erc20GetDecimals (t : string) : silent (erc20GetDecimals t).
Proof. by apply silent_of_quiet, quiet_erc20GetDecimals. Qed.

Lemma silent_balCreateFnBatchSwap (sd : swap_description) :
  silent (balCreateFnBatchSwap sd).
Proof.
  unfold balCreateFnBatchSwap.
  apply silent_bind; [apply silent_balReorderTokenDicts|]. intros [[l o2s] s2o].
  apply silent_bind; [apply silent_list_len|]. intros n.
  apply silent_bind.
  { apply silent_for_in. intros i acc.
    apply silent_bind; [apply silent_dict_get|]. intros k.
    apply silent_bind; [apply silent_index|]. intros lim.
    apply silent_bind; [apply silent_lift|]. intros f.
    apply silent_bind; [apply silent_list_get|]. intros t.
    apply silent_bind; [apply silent_erc20GetDecimals|]. intros d.
    apply silent_bind; [apply silent_lift|]. intros sc.
    apply silent_bind; [apply silent_lift|]. intros raw. apply silent_ret. }
  intros limits. apply silent_bind; [apply silent_lift|]. intros kind.
  apply silent_bind; [apply silent_list_elems|]. intros ts.
  apply silent_bind.
  { apply silent_for_in. intros swap acc.
    apply silent_bind; [apply silent_lift|]. intros a.
    apply silent_bind; [apply silent_dict_get_int|]. intros i.
    apply silent_bind; [apply silent_lift|]. intros b.
    apply silent_bind; [apply silent_dict_get_int|]. intros j.
    apply silent_bind; [apply silent_list_get|]. intros t.
    apply silent_bind; [apply silent_erc20GetDecimals|]. intros d.
    apply silent_bind; [apply silent_lift|]. intros f.
    apply silent_bind; [apply silent_lift|]. intros sc.
    apply silent_bind; [apply silent_lift|]. intros raw. apply silent_ret. }
  intros tuples. apply silent_bind; [apply silent_lift|]. intros deadline.
  apply silent_build_call.
Qed.

Lemma silent_token_weight (poolData : pool_data) (t : string) :
  silent (token_weight poolData t).
Proof.
  apply silent_same_trace. intros w. unfold token_weight.
  by destruct (list_find _ _) as [[i kv]|].
Qed.

Lemma silent_balSortTokens (l : loc) : silent (balSortTokens l).
Proof.
  unfold balSortTokens. apply silent_bind; [apply silent_list_sort|]. intros _.
  apply silent_bind; [apply silent_list_elems|]. intros ts. apply silent_ret.
Qed.

Lemma silent_intWithDecimalsWeights_of (poolData : pool_data) (l : loc) :
  silent (intWithDecimalsWeights_of poolData l).
Proof.
  unfold intWithDecimalsWeights_of.
  apply silent_bind; [apply silent_list_elems|]. intros ts.
  apply silent_for_in. intros t acc.
  apply silent_bind; [apply silent_token_weight|]. intros x.
  apply silent_bind; [apply silent_lift|]. intros sc.
  apply silent_bind; [apply silent_lift|]. intros z. apply silent_ret.
Qed.

Lemma silent_swapFeePercentage_of (poolData : pool_data) :
  silent (swapFeePercentage_of poolData).
Proof.
  unfold swapFeePercentage_of. apply silent_bind; [apply silent_lift|].
  intros sc. apply silent_lift.
Qed.

Lemma silent_balWeightsEqualOne (poolData : pool_data) :
  silent (balWeightsEqualOne poolData).
Proof.
  unfold balWeightsEqualOne. apply silent_bind.
  { apply silent_for_in. intros t acc.
    apply silent_bind; [apply silent_token_weight|]. intros x. apply silent_lift. }
  intros sum. apply silent_bind; [|intros; apply silent_ret].
  destruct (negb _); [apply silent_ERROR|apply silent_ret].
Qed.

Lemma silent_balSetOwner (poolData : pool_data) : silent (balSetOwner poolData).
Proof.
  unfold balSetOwner. destruct (pd_owner poolData) as [o|]; [|apply silent_ret].
  destruct (negb _); [|apply silent_ret].
  apply silent_bind; [apply silent_ERROR|]. intros; apply silent_ret.
Qed.

Lemma silent_balCreateFnWeightedPoolFactory (poolData : pool_data) :
  silent (balCreateFnWeightedPoolFactory poolData).
Proof.
  unfold balCreateFnWeightedPoolFactory.
  apply silent_bind; [apply silent_list_new|]. intros l.
  apply silent_bind; [apply silent_balSortTokens|]. intros [l' cs].
  apply silent_bind; [apply silent_intWithDecimalsWeights_of|]. intros ws.
  apply silent_bind; [apply silent_swapFeePercentage_of|]. intros fee.
  apply silent_bind; [apply silent_balWeightsEqualOne|]. intros ok.
  destruct (negb ok); [apply silent_ret|].
  apply silent_bind; [apply silent_balSetOwner|]. intros owner.
  apply silent_bind; [apply silent_build_call|]. intros; apply silent_ret.
Qed.

Lemma silent_balCreateFnWeightedPool2TokensFactory (poolData : pool_data) :
  silent (balCreateFnWeightedPool2TokensFactory poolData).
Proof.
  unfold balCreateFnWeightedPool2TokensFactory.
  apply silent_bind; [apply silent_list_new|]. intros l.
  apply silent_bind; [apply silent_balSortTokens|]. intros [l' cs].
  apply silent_bind; [apply silent_list_len|]. intros n.
  destruct (negb _).
  { apply silent_bind; [apply silent_ERROR|]. intros; apply silent_ret. }
  apply silent_bind; [apply silent_balWeightsEqualOne|]. intros ok.
  destruct (negb ok); [apply silent_ret|].
  apply silent_bind; [apply silent_intWithDecimalsWeights_of|]. intros ws.
  apply silent_bind; [apply silent_swapFeePercentage_of|]. intros fee.
  apply silent_bind; [apply silent_balSetOwner|]. intros owner.
  apply silent_bind; [apply silent_build_call|]. intros; apply silent_ret.
Qed.

Lemma silent_erc20GetBalanceStandard (t : string) : silent (erc20GetBalanceStandard t).
Proof.
  apply silent_of_quiet. intros w.
  destruct (erc20GetBalanceStandard_run is_read ltac:(done) t w)
    as (d & raw & w' & -> & Hr & _). done.
Qed.

Lemma silent_erc20HasSufficientBalances (tokens : list string) (amounts : list pyval) :
  silent (erc20HasSufficientBalances tokens amounts).
Proof.
  unfold erc20HasSufficientBalances. destruct (negb _).
  { apply silent_bind; [apply silent_ERROR|]. intros; apply silent_ret. }
  apply silent_for_in. intros i acc.
  apply silent_bind; [apply silent_index|]. intros t.
  apply silent_bind; [apply silent_index|]. intros a.
  apply silent_bind; [|intros; apply silent_ret].
  unfold erc20HasSufficientBalance.
  apply silent_bind; [apply silent_erc20GetBalanceStandard|]. intros bal.
  apply silent_bind; [apply silent_lift|]. intros need.
  apply silent_bind; [apply silent_lift|]. intros has.
  apply silent_bind; [|intros; apply silent_ret].
  destruct (negb _); [apply silent_ERROR|apply silent_ret].
Qed.

Lemma silent_balConvertTokensToWei (tokens : list string) (amounts : list num) :
  silent (balConvertTokensToWei tokens amounts).
Proof.
  unfold balConvertTokensToWei. destruct (negb _).
  { apply silent_bind; [apply silent_ERROR|]. intros; apply silent_ret. }
  apply silent_bind; [|intros; apply silent_ret].
  apply silent_for_in. intros i acc.
  apply silent_bind; [apply silent_index|]. intros t.
  apply silent_bind; [apply silent_index|]. intros a.
  apply silent_bind; [apply silent_erc20GetDecimals|]. intros d.
  apply silent_bind; [apply silent_lift|]. intros sc.
  apply silent_bind; [apply silent_lift|]. intros raw. apply silent_ret.
Qed.

(** X13 (balCreateFnBatchSwap, the pool factories,
    erc20HasSufficientBalances, balConvertTokensToWei).
    The encoders and the checks submit nothing, whether they return or
    raise: between the start and the end of a call of the batch-swap
    encoder, of either pool factory, of the balance check or of the
    conversion to raw units, no transaction is broadcast, no receipt is
    waited for and no nonce is fetched. *)
Theorem encoders_and_checks_submit_nothing (swapDescription : swap_description)
    (poolData : pool_data) (tokens : list string) (amounts : list pyval)
    (rawAmounts : list num) (w : world) :
  submissions_unchanged w (balCreateFnBatchSwap swapDescription w).2 /\
  submissions_unchanged w (balCreateFnWeightedPoolFactory poolData w).2 /\
  submissions_unchanged w (balCreateFnWeightedPool2TokensFactory poolData w).2 /\
  submissions_unchanged w (erc20HasSufficientBalances tokens amounts w).2 /\
  submissions_unchanged w (balConvertTokensToWei tokens rawAmounts w).2.
Proof.
  split_and!; apply only_reads_unchanged.
  - apply silent_balCreateFnBatchSwap.
  - apply silent_balCreateFnWeightedPoolFactory.
  - apply silent_balCreateFnWeightedPool2TokensFactory.
  - apply silent_erc20HasSufficientBalances.
  - apply silent_balConvertTokensToWei.
Qed.
End Silent.

(** ** The batch-swap encoder on any asset list *)

Lemma balReorderTokenDicts_no_list (tokens : loc) (w : world) :
  heap w !! tokens = None -> balReorderTokenDicts tokens w = (Raise TypeError, w).
Proof.
  intros Hnone. unfold balReorderTokenDicts.
  erewrite bind_raise; [done|]. unfold list_len. by rewrite Hnone.
Qed.

Section BatchSwapAmounts.
Context `{!Collaborators}.

Lemma amount_ok_mono (ys : list string) (w w' : world) (swap : swap_step)
    (tuple : swaps_tuple) :
  decimals w ⊆ decimals w' ->
  amount_ok ys w swap tuple -> amount_ok ys w' swap tuple.
Proof.
  intros Hsub (tok & d & f & sc & ? & Hd & ? & ? & ? & ? & ?).
  exists tok, d, f, sc. split_and!; try done. by eapply lookup_weaken.
Qed.

Lemma swaps_loop_step_amount (sortedTokens : loc) (ys : list string)
    (o2s : gmap nat nat) (swap : swap_step) (acc acc' : list swaps_tuple)
    (w w' : world) :
  heap w !! sortedTokens = Some ys ->
  (let! a := lift (py_int parse_int (sw_assetInIndex swap)) in
   let! idxSortedIn := dict_get_int o2s a in
   let! b := lift (py_int parse_int (sw_assetOutIndex swap)) in
   let! idxSortedOut := dict_get_int o2s b in
   let! token := list_get sortedTokens idxSortedIn in
   let! decimals := erc20GetDecimals token in
   let! amount := lift (py_float parse_float (sw_amount swap)) in
   let! scaled := lift (num_mul (PFloat amount) (py_pow10 decimals)) in
   let! amount := lift (num_int scaled) in
   let swapsTuple :=
     SwapsTuple (sw_poolId swap) idxSortedIn idxSortedOut amount
       balSwapGetUserData in
   ret (acc ++ [swapsTuple])) w = (Ret acc', w') ->
  reads is_read w w' /\
  exists tuple,
    acc' = acc ++ [tuple] /\ step_ok o2s swap tuple /\ amount_ok ys w' swap tuple.
Proof.
  intros Hys.
  intros (a & w1 & [Ha ->]%lift_Ret & Hrest)%bind_Ret_inv.
  apply bind_Ret_inv in Hrest as (j & w1 & (Ha0 & Hj & ->)%dict_get_int_Ret & Hrest).
  apply bind_Ret_inv in Hrest as (b & w1 & [Hb ->]%lift_Ret & Hrest).
  apply bind_Ret_inv in Hrest as (j' & w1 & (Hb0 & Hj' & ->)%dict_get_int_Ret & Hrest).
  apply bind_Ret_inv in Hrest
    as (tok & w1 & (ys' & Hys' & Htok & ->)%list_get_Ret & Hrest).
  assert (ys' = ys) as -> by congruence.
  apply bind_Ret_inv in Hrest as (d & w1 & Hdec & Hrest).
  destruct (erc20GetDecimals_run is_read ltac:(done) tok w)
    as (d' & w1' & Hrun & Hr & Hd).
  rewrite Hrun in Hdec. injection Hdec as <- <-.
  apply bind_Ret_inv in Hrest as (f & w2 & [Hf ->]%lift_Ret & Hrest).
  apply bind_Ret_inv in Hrest as (sc & w2 & [Hsc ->]%lift_Ret & Hrest).
  apply bind_Ret_inv in Hrest as (v & w2 & [Hv ->]%lift_Ret & [= <- <-]).
  split; [done|]. eexists. split; [done|]. split.
  - by exists a, b.
  - by exists tok, d', f, sc.
Qed.

(** X14 (balCreateFnBatchSwap).
    [balCreateFnBatchSwap], whenever it returns, on any asset list, repeated
    addresses included.  The emitted assets are the caller's addresses in
    ascending order, which is also what the caller's list holds afterwards;
    there is one limit per asset; there is one tuple per step, in the order
    of the steps, its two indices are positions of the emitted asset list,
    its amount is [int(float(amount) * 10 ** decimals)] for the decimals of
    the token at its in-index, and pool id and user data pass through;
    [kind] and [deadline] are the description's, read through [int], and the
    funds tuple carries the two addresses in checksum form. *)
Theorem balCreateFnBatchSwap_ranges_and_amounts (swapDescription : swap_description)
    (kind : Z) (swapsTuples : list swaps_tuple) (assets : list string)
    (funds : funds_tuple) (limits : list Z) (deadline : Z) (w w' : world) :
  balCreateFnBatchSwap swapDescription w =
    (Ret (FnBatchSwap kind swapsTuples assets funds limits deadline), w') ->
  exists xs ys,
    heap w !! sd_assets swapDescription = Some xs /\
    heap w' !! sd_assets swapDescription = Some ys /\
    ys ≡ₚ xs /\ Sorted str_le ys /\ assets = toChecksumAddress <$> ys /\
    length limits = length assets /\
    Forall2 (fun swap tuple =>
               (st_idxSortedIn tuple < length assets)%nat /\
               (st_idxSortedOut tuple < length assets)%nat /\
               amount_ok ys w' swap tuple)
      (sd_swaps swapDescription) swapsTuples /\
    py_int parse_int (sd_kind swapDescription) = Ret kind /\
    py_int parse_int (sd_deadline swapDescription) = Ret deadline /\
    funds = FundsTuple (toChecksumAddress (sd_sender swapDescription))
              (sd_fromInternalBalance swapDescription)
              (toChecksumAddress (sd_recipient swapDescription))
              (sd_toInternalBalance swapDescription).
Proof.
  intros Hrun.
  destruct (heap w !! sd_assets swapDescription) as [xs|] eqn:Hassets; last first.
  { unfold balCreateFnBatchSwap in Hrun.
    erewrite bind_raise in Hrun by by apply balReorderTokenDicts_no_list.
    discriminate Hrun. }
  revert Hrun.
  set (ys := merge_sort str_le xs).
  set (m := index_maps (address_index xs) ys).
  assert (ys ≡ₚ xs) as Hp by apply merge_sort_Permutation.
  destruct (index_maps_prefix_sound (address_index xs) ys (length ys)) as [Hm1 _];
    [done|].
  fold (index_maps (address_index xs) ys) in Hm1. fold m in Hm1.
  unfold balCreateFnBatchSwap.
  erewrite bind_run by by apply balReorderTokenDicts_run.
  fold ys. fold m. cbv beta iota.
  set (w1 := set_heap _ w).
  assert (heap w1 !! sd_assets swapDescription = Some ys) as Hys
    by apply lookup_insert_eq.
  erewrite bind_run by by apply list_len_run.
  intros (limits0 & w2 & Hlimits & Hrest)%bind_Ret_inv.
  assert (reads is_read w1 w2 /\ length limits0 = length ys) as (Hr2 & Hlen).
  { revert Hlimits.
    apply (for_range_invariant (fun i acc wc =>
      reads is_read w1 wc /\ length acc = i)).
    - split; [by apply reads_refl|done].
    - intros i acc wc acc' wc' _ (Hr & Hl) Hbody.
      apply (limits_loop_step _ _ ys) in Hbody as (Hr' & v & -> & _);
        [|by rewrite (proj1 Hr)].
      split; [by eapply reads_trans|]. rewrite length_app; simpl; lia. }
  apply bind_Ret_inv in Hrest as (kind0 & w2' & [Hkind ->]%lift_Ret & Hrest).
  apply bind_Ret_inv in Hrest as (ts & w2' & [Hts ->]%list_elems_Ret & Hrest).
  assert (heap w2 !! sd_assets swapDescription = Some ys) as Hys2
    by by rewrite (proj1 Hr2).
  assert (ts = ys) as -> by congruence.
  apply bind_Ret_inv in Hrest as (tuples & w3 & Hswaps & Hrest).
  assert (reads is_read w2 w3 /\
          Forall2 (fun swap tuple =>
                     step_ok m.1 swap tuple /\ amount_ok ys w3 swap tuple)
            (sd_swaps swapDescription) tuples) as (Hr3 & Hsteps).
  { revert Hswaps.
    apply (for_in_invariant (fun pre acc wc =>
      reads is_read w2 wc /\
      Forall2 (fun swap tuple =>
                 step_ok m.1 swap tuple /\ amount_ok ys wc swap tuple) pre acc)
      _ _ []).
    - split; [by apply reads_refl|constructor].
    - intros pre swap acc wc acc' wc' (Hr & Hok) Hbody.
      apply (swaps_loop_step_amount _ ys) in Hbody as (Hr' & tuple & -> & Hso & Hao);
        [|by rewrite (proj1 Hr)].
      split; [by eapply reads_trans|]. apply Forall2_app; [|by constructor].
      eapply Forall2_impl; [done|]. intros sw tp [? ?]. split; [done|].
      eapply amount_ok_mono; [apply Hr'|done]. }
  apply bind_Ret_inv in Hrest as (deadline0 & w3' & [Hdeadline ->]%lift_Ret & Hrest).
  apply build_call_Ret in Hrest as (Hcall & -> & _).
  injection Hcall as -> -> -> -> -> ->.
  exists xs, ys. split; [done|].
  split; [by rewrite (proj1 Hr3)|]. split; [done|].
  split; [apply Sorted_merge_sort, _|]. split; [done|].
  split; [by rewrite length_fmap|]. split; [|done].
  eapply Forall2_impl; [done|].
  intros swap tuple [(a & b & _ & _ & _ & _ & Hin & Hout & _) Hamount].
  rewrite length_fmap.
  apply Hm1 in Hin as [Hin _]. apply Hm1 in Hout as [Hout _]. done.
Qed.
End BatchSwapAmounts.

Lemma balCreateFnBatchSwap_ranges_and_amounts_witness :
  let r := @balCreateFnBatchSwap fixed_collaborators demo_swap (world_with bb_aa_cc) in
  exists xs ys,
    heap (world_with bb_aa_cc) !! sd_assets demo_swap = Some xs /\
    heap r.2 !! sd_assets demo_swap = Some ys /\
    ys ≡ₚ xs /\ Sorted str_le ys /\
    ["0xAA"; "0xBB"; "0xCC"]%string = @toChecksumAddress fixed_collaborators <$> ys /\
    length [0; 100000000000000000000; 2500000000000000000] =
      length ["0xAA"; "0xBB"; "0xCC"]%string /\
    Forall2 (fun swap tuple =>
               (st_idxSortedIn tuple < length ["0xAA"; "0xBB"; "0xCC"]%string)%nat /\
               (st_idxSortedOut tuple < length ["0xAA"; "0xBB"; "0xCC"]%string)%nat /\
               @amount_ok fixed_collaborators ys r.2 swap tuple)
      (sd_swaps demo_swap)
      [SwapsTuple "pool1" 1 0 1500000000000000000 (replicate 32 0)] /\
    py_int (@parse_int fixed_collaborators) (sd_kind demo_swap) = Ret 0 /\
    py_int (@parse_int fixed_collaborators) (sd_deadline demo_swap) = Ret 999 /\
    FundsTuple "0xME" false "0xME" false =
      FundsTuple (@toChecksumAddress fixed_collaborators (sd_sender demo_swap))
        (sd_fromInternalBalance demo_swap)
        (@toChecksumAddress fixed_collaborators (sd_recipient demo_swap))
        (sd_toInternalBalance demo_swap).
Proof.
  intros r.
  apply (@balCreateFnBatchSwap_ranges_and_amounts fixed_collaborators demo_swap
           0 [SwapsTuple "pool1" 1 0 1500000000000000000 (replicate 32 0)]
           ["0xAA"; "0xBB"; "0xCC"]%string (FundsTuple "0xME" false "0xME" false)
           [0; 100000000000000000000; 2500000000000000000] 999
           (world_with bb_aa_cc) r.2).
  vm_compute. reflexivity.
Defined.

(** ** Sending a batch swap *)

Section DoBatchSwap.
Context `{!Collaborators}.

Lemma waited_after_send (tx : transaction) (isAsync : bool) (h : string)
    (tr : list event) :
  waited ((if isAsync then [] else [EvWaitForReceipt h]) ++
          EvSendRawTransaction tx :: tr) =
  (if isAsync then [] else [h]) ++ waited tr.
Proof. by destruct isAsync. Qed.

(** X15 (balDoBatchSwap).
    [balDoBatchSwap], when it returns: the description was encoded, exactly
    one transaction was broadcast, it carries the encoded call and, when a
    nonce override was given, that nonce; the hash returned is the hash of
    that transaction; and its receipt was waited for exactly when the call
    was not asynchronous. *)
Theorem balDoBatchSwap_sends_one_transaction (swapDescription : swap_description)
    (isAsync : bool) (gasFactor : num) (gasPriceSpeed : string)
    (nonceOverride gasEstimateOverride : Z) (gasPriceGweiOverride : num)
    (txHash : string) (w w' : world) :
  balDoBatchSwap swapDescription isAsync gasFactor gasPriceSpeed nonceOverride
    gasEstimateOverride gasPriceGweiOverride w = (Ret txHash, w') ->
  exists fn w1 tx,
    balCreateFnBatchSwap swapDescription w = (Ret fn, w1) /\
    tx_fn tx = fn /\ (-1 < nonceOverride -> tx_nonce tx = nonceOverride) /\
    txHash = transaction_hash tx /\
    sent (trace w') = tx :: sent (trace w) /\
    waited (trace w') = (if isAsync then [] else [txHash]) ++ waited (trace w).
Proof.
  unfold balDoBatchSwap.
  intros (fn & w1 & Hfn & Hrest)%bind_Ret_inv.
  apply bind_Ret_inv in Hrest as (tx & w2 & Htx & Hsend).
  apply sendTx_outcome in Hsend as (_ & _ & _ & Hh).
  destruct (Hh txHash eq_refl) as [-> ->].
  pose proof (only_reads_unchanged _ _ (silent_balCreateFnBatchSwap swapDescription w))
    as (Hs1 & Hw1 & _).
  rewrite Hfn in Hs1, Hw1. simpl in Hs1, Hw1.
  pose proof (quiet_buildTx no_submit ltac:(by intros []) fn gasFactor gasPriceSpeed
                nonceOverride gasEstimateOverride gasPriceGweiOverride
                (or_intror eq_refl) w1) as Hq.
  rewrite Htx in Hq. simpl in Hq. apply reads_no_submit in Hq as [Hs2 Hw2].
  apply buildTx_fields in Htx as [Hf Hn].
  exists fn, w1, tx. split_and!; try done; simpl.
  - rewrite sent_after_send. congruence.
  - rewrite waited_after_send. congruence.
Qed.
End DoBatchSwap.

Lemma balDoBatchSwap_sends_one_transaction_witness :
  let r :=
    @balDoBatchSwap fixed_collaborators demo_swap false (PFloat 1.05) "average"
      (-1) (-1) (PInt (-1)) (world_with bb_aa_cc) in
  exists fn w1 tx,
    @balCreateFnBatchSwap fixed_collaborators demo_swap (world_with bb_aa_cc) =
      (Ret fn, w1) /\
    tx_fn tx = fn /\ (-1 < -1 -> tx_nonce tx = -1) /\
    "hash7"%string = @transaction_hash fixed_collaborators tx /\
    sent (trace r.2) = tx :: sent (trace (world_with bb_aa_cc)) /\
    waited (trace r.2) =
      (if false then [] else ["hash7"%string]) ++ waited (trace (world_with bb_aa_cc)).
Proof.
  intros r.
  apply (@balDoBatchSwap_sends_one_transaction fixed_collaborators demo_swap false
           (PFloat 1.05) "average" (-1) (-1) (PInt (-1)) "hash7"
           (world_with bb_aa_cc) r.2).
  vm_compute. reflexivity.
Defined.

(** ** Enforcement of the vault allowance: waiting *)

Section VaultAllowance.
Context `{!Collaborators}.

Lemma quiet_for_in (allow : event -> bool) {X St} (xs : list X)
    (body : X -> St -> Py St) (acc : St) :
  (forall x a, quiet allow (body x a)) -> quiet allow (for_in xs acc body).
Proof.
  intros Hb. revert acc. induction xs as [|x xs IH]; intros acc; simpl.
  - apply quiet_ret.
  - apply quiet_bind; [apply Hb|]. intros a. apply IH.
Qed.

Lemma quiet_index (allow : event -> bool) {A} (xs : list A) (i : nat) :
  quiet allow (index xs i).
Proof. unfold index. destruct (xs !! i); [apply quiet_ret|apply quiet_raise]. Qed.

Lemma quiet_erc20EnforceSufficientVaultAllowance_async (t : string)
    (target amount gasFactor : num) (gasSpeed : string)
    (nonce gasEstimate : Z) (gasPrice : num) :
  quiet no_wait
    (erc20EnforceSufficientVaultAllowance t target amount gasFactor gasSpeed nonce
       gasEstimate gasPrice true).
Proof.
  assert (forall e, is_read e = true -> no_wait e = true) as Hallow by by intros [].
  unfold erc20EnforceSufficientVaultAllowance, erc20EnforceSufficientAllowance.
  apply quiet_bind.
  { intros w. destruct (erc20HasSufficientAllowance t VAULT amount w) as [r w1] eqn:Hc.
    by apply (erc20HasSufficientAllowance_run no_wait Hallow) in Hc as [? _]. }
  intros [|]; simpl; [apply quiet_ret|].
  apply quiet_bind.
  { destruct (_ || _); [apply quiet_ret|].
    apply quiet_bind; [by apply quiet_erc20GetDecimals|]. intros d. apply quiet_lift. }
  intros tv. apply quiet_bind; [apply quiet_lift|]. intros a.
  apply quiet_bind; [|intros; apply quiet_ret].
  unfold erc20SignAndSendNewAllowance.
  apply quiet_bind; [by apply quiet_erc20BuildFunctionSetAllowance|].
  intros fn. apply quiet_bind; [apply quiet_buildTx; [done|by right]|].
  intros tx w. destruct (sendTx tx true w) as [r w'] eqn:Hsend.
  apply sendTx_outcome in Hsend as (_ & _ & Hasync & _).
  rewrite (Hasync eq_refl). by apply reads_event.
Qed.

(** X16 (erc20AsyncEnforceSufficientVaultAllowances).
    Whatever its outcome, the batched enforcement waits only after its last
    broadcast: what it leaves on the trace is first a stretch [evs] without
    any wait, then the waits; and the receipts asked for are those of the
    first transactions broadcast, in the order of the broadcasts.  When it
    raises, either an operation of the batch raised: then no receipt has
    been asked for, and the approvals broadcast before the failure are left
    unconfirmed; or a wait raised: then the approvals after that one are
    left unconfirmed. *)
Theorem erc20AsyncEnforceSufficientVaultAllowances_waits_after_broadcasts
    (tokens : list string) (targetAllowances amounts : list num) (gasFactor : num)
    (gasSpeed : string) (nonceOverride gasEstimateOverride : Z)
    (gasPriceGweiOverride : num) (r : result bool) (w w' : world) :
  erc20AsyncEnforceSufficientVaultAllowances tokens targetAllowances amounts
    gasFactor gasSpeed nonceOverride gasEstimateOverride gasPriceGweiOverride w =
    (r, w') ->
  exists asked evs,
    trace w' = reverse (EvWaitForReceipt <$> asked) ++ evs ++ trace w /\
    Forall (fun e => no_wait e = true) evs /\
    asked `prefix_of` (transaction_hash <$> reverse (sent evs)) /\
    forall e, r = Raise e ->
      asked = [] \/
      exists before h,
        asked = before ++ [h] /\
        wait_for_transaction_receipt
          (reverse (EvWaitForReceipt <$> before) ++ evs ++ trace w) h = Raise e.
Proof.
  unfold erc20AsyncEnforceSufficientVaultAllowances.
  destruct (length tokens =? length targetAllowances)%nat; simpl; last first.
  { unfold bind, emit, ret. intros [= <- <-]. eexists [], [_].
    split; [done|]. split; [by repeat constructor|]. split; [apply prefix_nil|done]. }
  intros Hrun. erewrite bind_run in Hrun by reflexivity.
  set (w0 := set_trace (EvGetTransactionCount :: trace w) w) in Hrun.
  apply bind_inv in Hrun as [([n hs] & w2 & Hloop & Hrest)|(e & Hloop & ->)].
  - pose proof Hloop as (txs & Hsent & Hhs & _)%batch_loop_inv.
    simpl in Hhs. subst hs.
    match type of Hloop with
    | for_in ?xs ?acc ?body _ = _ =>
        assert (quiet no_wait (for_in xs acc body)) as Hq
    end.
    { apply quiet_for_in. intros i [n' hs].
      apply quiet_bind; [apply quiet_index|]. intros t.
      apply quiet_bind; [apply quiet_index|]. intros ta.
      apply quiet_bind; [apply quiet_index|]. intros am.
      apply quiet_bind;
        [apply quiet_erc20EnforceSufficientVaultAllowance_async|].
      intros [h|]; apply quiet_ret. }
    specialize (Hq w0). rewrite Hloop in Hq.
    destruct Hq as (_ & _ & evs & Ht & Hall). simpl in Ht.
    assert (sent (evs ++ [EvGetTransactionCount]) = reverse txs) as Hevs.
    { rewrite Ht in Hsent. unfold sent in *. rewrite omap_app in *. csimpl in *.
      rewrite app_nil_r. by apply (inj (.++ _)) in Hsent. }
    assert (exists asked,
              asked `prefix_of` (transaction_hash <$> txs) /\
              trace w' = reverse (EvWaitForReceipt <$> asked) ++ trace w2 /\
              (forall e, r = Raise e ->
                 exists before h,
                   asked = before ++ [h] /\
                   wait_for_transaction_receipt
                     (reverse (EvWaitForReceipt <$> before) ++ trace w2) h = Raise e))
      as (asked & Hpre & Htw & Hraise).
    { apply bind_inv in Hrest as [(u & w3 & Hwaits & [= <- <-])|(e & Hwaits & ->)];
        apply wait_loop_outcome in Hwaits as (asked & Hpre & -> & _ & Hraise);
        exists asked; (split; [done|]); (split; [done|]).
      - done.
      - intros e' [= <-]. by apply Hraise. }
    exists asked, (evs ++ [EvGetTransactionCount]).
    rewrite Htw, Ht, <-!(assoc_L (++)). simpl.
    split; [done|]. split; [apply Forall_app; split; [done|by repeat constructor]|].
    split; [by rewrite Hevs, reverse_involutive|].
    intros e He. right. destruct (Hraise e He) as (before & h & -> & Hw).
    exists before, h. split; [done|]. by rewrite Ht in Hw.
  - match type of Hloop with
    | for_in ?xs ?acc ?body _ = _ =>
        assert (quiet no_wait (for_in xs acc body)) as Hq
    end.
    { apply quiet_for_in. intros i [n' hs].
      apply quiet_bind; [apply quiet_index|]. intros t.
      apply quiet_bind; [apply quiet_index|]. intros ta.
      apply quiet_bind; [apply quiet_index|]. intros am.
      apply quiet_bind;
        [apply quiet_erc20EnforceSufficientVaultAllowance_async|].
      intros [h|]; apply quiet_ret. }
    specialize (Hq w0). rewrite Hloop in Hq.
    destruct Hq as (_ & _ & evs & Ht & Hall). simpl in Ht.
    exists [], (evs ++ [EvGetTransactionCount]).
    rewrite Ht, <-!(assoc_L (++)). simpl.
    split; [done|]. split; [apply Forall_app; split; [done|by repeat constructor]|].
    split; [apply prefix_nil|]. intros; by left.
Qed.

(** X17 (erc20EnforceSufficientVaultAllowance).
    One enforcement of the vault allowance, when it returns.  The overrides
    of the gas estimate and of the gas price play no part: with any other
    values for them the call does the same and returns the same.  With
    [None] nothing was broadcast and nothing waited for.  With a hash,
    exactly one transaction was broadcast, an approval of the vault for the
    token, with the nonce override when one was given; the hash is that
    transaction's; and its receipt was waited for exactly when the call was
    not asynchronous. *)
Theorem erc20EnforceSufficientVaultAllowance_outcomes (t : string)
    (target amount gasFactor : num) (gasSpeed : string)
    (nonce gasEstimate : Z) (gasPrice : num) (isAsync : bool)
    (r : option string) (w w' : world) :
  erc20EnforceSufficientVaultAllowance t target amount gasFactor gasSpeed nonce
    gasEstimate gasPrice isAsync w = (Ret r, w') ->
  (forall (gasEstimate' : Z) (gasPrice' : num),
     erc20EnforceSufficientVaultAllowance t target amount gasFactor gasSpeed nonce
       gasEstimate' gasPrice' isAsync w = (Ret r, w')) /\
  match r with
  | None =>
      sent (trace w') = sent (trace w) /\ waited (trace w') = waited (trace w)
  | Some h =>
      exists tx a,
        h = transaction_hash tx /\ tx_fn tx = FnApprove t VAULT a /\
        (-1 < nonce -> tx_nonce tx = nonce) /\
        sent (trace w') = tx :: sent (trace w) /\
        waited (trace w') = (if isAsync then [] else [h]) ++ waited (trace w)
  end.
Proof.
  assert (forall e, is_read e = true -> no_submit e = true) as Hallow by by intros [].
  intros Hrun. split; [intros gasEstimate' gasPrice'; exact Hrun|]. revert Hrun.
  unfold erc20EnforceSufficientVaultAllowance, erc20EnforceSufficientAllowance.
  intros (b & w1 & Hcheck & Hrest)%bind_Ret_inv.
  apply (erc20HasSufficientAllowance_run no_submit Hallow) in Hcheck as [Hr1 _].
  destruct b; simpl in Hrest.
  { injection Hrest as <- <-. by apply reads_no_submit. }
  apply bind_Ret_inv in Hrest as (tv & w2 & Htv & Hrest).
  apply bind_Ret_inv in Hrest as (a & w3 & Ha & Hrest).
  apply bind_Ret_inv in Hrest as (h & w4 & Hsend & [= <- <-]).
  assert (reads no_submit w1 w2) as Hr2.
  { assert (quiet no_submit
      (if num_eq target (PInt (-1)) || num_eq target (PInt INFINITE)
       then ret (PInt INFINITE)
       else let! decimals := erc20GetDecimals t in
            lift (num_mul target (py_pow10 decimals)))) as Hq.
    { destruct (_ || _); [apply quiet_ret|].
      apply quiet_bind; [by apply quiet_erc20GetDecimals|]. intros d.
      apply quiet_lift. }
    specialize (Hq w1). by rewrite Htv in Hq. }
  unfold lift in Ha. injection Ha as _ <-.
  apply (erc20SignAndSendNewAllowance_Ret no_submit Hallow) in Hsend
    as (tx & w0 & -> & Hfn & Hnon & Hr0 & ->); [|by right].
  assert (reads no_submit w w0) as [Hs Hw]%reads_no_submit.
  { eapply reads_trans; [done|]. by eapply reads_trans. }
  exists tx, a. split_and!; try done; simpl.
  - rewrite sent_after_send. congruence.
  - rewrite waited_after_send. congruence.
Qed.
End VaultAllowance.

Lemma erc20AsyncEnforceSufficientVaultAllowances_waits_after_broadcasts_witness :
  let r := run_batch ["0xAA"; "0xBB"] [PInt (-1); PInt (-1)] [PInt 1] empty_world in
  r.1 = Raise IndexError /\ length (sent (trace r.2)) = 1%nat /\
  exists asked evs,
    trace r.2 = reverse (EvWaitForReceipt <$> asked) ++ evs ++ trace empty_world /\
    Forall (fun e => no_wait e = true) evs /\
    asked `prefix_of`
      (@transaction_hash fixed_collaborators <$> reverse (sent evs)) /\
    forall e, (Raise IndexError : result bool) = Raise e ->
      asked = [] \/
      exists before h,
        asked = before ++ [h] /\
        @wait_for_transaction_receipt fixed_collaborators
          (reverse (EvWaitForReceipt <$> before) ++ evs ++ trace empty_world) h =
        (Raise e : result unit).
Proof.
  intros r. split; [vm_compute; reflexivity|]. split; [vm_compute; reflexivity|].
  apply (@erc20AsyncEnforceSufficientVaultAllowances_waits_after_broadcasts
           fixed_collaborators ["0xAA"; "0xBB"]%string [PInt (-1); PInt (-1)]
           [PInt 1] (PFloat 1.05) "average" (-1) (-1) (PInt (-1)) (Raise IndexError)
           empty_world r.2).
  vm_compute. reflexivity.
Defined.

Lemma erc20EnforceSufficientVaultAllowance_outcomes_witness :
  let r :=
    @erc20EnforceSufficientVaultAllowance fixed_collaborators "0xAA" (PInt (-1))
      (PInt 1) (PFloat 1.05) "average" 3 (-1) (PInt (-1)) false empty_world in
  (forall (gasEstimate' : Z) (gasPrice' : num),
     @erc20EnforceSufficientVaultAllowance fixed_collaborators "0xAA" (PInt (-1))
       (PInt 1) (PFloat 1.05) "average" 3 gasEstimate' gasPrice' false empty_world =
     (Ret (Some "hash3"%string), r.2)) /\
  exists tx a,
    "hash3"%string = @transaction_hash fixed_collaborators tx /\
    tx_fn tx = FnApprove "0xAA" VAULT a /\
    (-1 < 3 -> tx_nonce tx = 3) /\
    sent (trace r.2) = tx :: sent (trace empty_world) /\
    waited (trace r.2) =
      (if false then [] else ["hash3"%string]) ++ waited (trace empty_world).
Proof.
  intros r.
  apply (@erc20EnforceSufficientVaultAllowance_outcomes fixed_collaborators "0xAA"
           (PInt (-1)) (PInt 1) (PFloat 1.05) "average" 3 (-1) (PInt (-1)) false
           (Some "hash3"%string) empty_world r.2).
  vm_compute. reflexivity.
Defined.
